(** * goshadertranslator: the host/guest bridge of [transpiler.go]

    A shallow embedding of the Go binding that drives the ANGLE shader
    translator compiled to WebAssembly: the life cycle of a
    [ShaderTranslator] ([Close]), the request/response bridge
    ([TranslateShader], [writeStringToMemory], [readStringFromMemory]) and
    the construction of the result ([newShader]).

    Go values are modelled as follows.
    - [string] is a sequence of 8-bit characters, as a Go string is;
      [[]byte] is [list Byte.byte].
    - [uint64]/[uint32] are [Z]; the conversions the code writes
      ([uint32(ptr)], [mem.Size()-ptr]) are written out with their
      wrap-around.
    - [map[string]T] is [gmap string T]; the order in which [range] visits
      a map is not fixed by the language and is a parameter.
    - [interface{}] values produced by [encoding/json] are the inductive
      type [JSON]; an unchecked type assertion [x.(T)] that fails is a
      run-time panic, the outcome [Panic].
    - The guest module (its exported functions and what they do to linear
      memory) and the wazero runtime are parameters of the development. *)

From Stdlib Require Import ZArith NArith List String Ascii Lia.
From Stdlib Require Import Strings.Byte Floats.SpecFloat DecimalString.
From stdpp Require Import gmap strings list fin_maps sorting.

Import ListNotations.
Local Open Scope string_scope.
Local Open Scope list_scope.
Local Open Scope Z_scope.
Local Set Warnings "-register-all".

(** ** Machine integers *)

Definition uint32 (z : Z) : Z := z mod 2 ^ 32.
Definition uint64 (z : Z) : Z := z mod 2 ^ 64.

(** [[]byte(s)] and [string(b)]. *)
Definition bytes_of_string (s : string) : list Byte.byte := list_byte_of_string s.
Definition string_of_bytes (b : list Byte.byte) : string := string_of_list_byte b.

(** ** encoding/base64: [StdEncoding.EncodeToString] *)

Module Base64.

Definition encodeStd : list Byte.byte :=
  bytes_of_string
    "ABCDEFGHIJKLMNOPQRSTUVWXYZabcdefghijklmnopqrstuvwxyz0123456789+/".

Definition StdPadding : Byte.byte := "="%byte.

(** The character of a 6-bit group. *)
Definition enc (n : N) : Byte.byte :=
  nth (N.to_nat (N.land n 63)) encodeStd "A"%byte.

(** Three source bytes give four characters; a remainder of one or two
    bytes is padded with [=]. *)
Fixpoint encode (src : list Byte.byte) : list Byte.byte :=
  match src with
  | [] => []
  | [a] =>
      let val := N.shiftl (Byte.to_N a) 16 in
      [enc (N.shiftr val 18); enc (N.shiftr val 12); StdPadding; StdPadding]
  | [a; b] =>
      let val := N.lor (N.shiftl (Byte.to_N a) 16) (N.shiftl (Byte.to_N b) 8) in
      [enc (N.shiftr val 18); enc (N.shiftr val 12); enc (N.shiftr val 6);
       StdPadding]
  | a :: b :: c :: rest =>
      let val := N.lor (N.lor (N.shiftl (Byte.to_N a) 16)
                              (N.shiftl (Byte.to_N b) 8)) (Byte.to_N c) in
      enc (N.shiftr val 18) :: enc (N.shiftr val 12) :: enc (N.shiftr val 6)
        :: enc val :: encode rest
  end.

Definition EncodeToString (src : list Byte.byte) : string :=
  string_of_bytes (encode src).

End Base64.

(** ** encoding/json, the encoder: [json.Marshal] of the request *)

Module GoJSON.

Definition lit (s : string) : list Byte.byte := bytes_of_string s.

Definition quote : Byte.byte := Byte.x22.
Definition backslash : Byte.byte := Byte.x5c.

Definition hex (n : N) : Byte.byte :=
  nth (N.to_nat (N.land n 15)) (lit "0123456789abcdef") "0"%byte.

(** [htmlSafeSet]: the ASCII characters written as they are. *)
Definition htmlSafeSet (n : N) : bool :=
  (32 <=? n)%N && (n <? 128)%N
  && negb ((n =? 34)%N || (n =? 38)%N || (n =? 60)%N || (n =? 62)%N
           || (n =? 92)%N).

(** The escape of an ASCII byte that is not in [htmlSafeSet]. *)
Definition escape (b : Byte.byte) : list Byte.byte :=
  let n := Byte.to_N b in
  if ((n =? 92) || (n =? 34))%N then [backslash; b]
  else if (n =? 8)%N then [backslash; "b"%byte]
  else if (n =? 12)%N then [backslash; "f"%byte]
  else if (n =? 10)%N then [backslash; "n"%byte]
  else if (n =? 13)%N then [backslash; "r"%byte]
  else if (n =? 9)%N then [backslash; "t"%byte]
  else [backslash; "u"%byte; "0"%byte; "0"%byte; hex (N.shiftr n 4); hex n].

(** [unicode/utf8]: for a leading byte, the length of the sequence and
    the range accepted for its second byte. *)
Definition first (n : N) : option (nat * N * N) :=
  if ((0xC2 <=? n) && (n <=? 0xDF))%N then Some (2%nat, 0x80, 0xBF)%N
  else if (n =? 0xE0)%N then Some (3%nat, 0xA0, 0xBF)%N
  else if ((0xE1 <=? n) && (n <=? 0xEC))%N then Some (3%nat, 0x80, 0xBF)%N
  else if (n =? 0xED)%N then Some (3%nat, 0x80, 0x9F)%N
  else if ((0xEE <=? n) && (n <=? 0xEF))%N then Some (3%nat, 0x80, 0xBF)%N
  else if (n =? 0xF0)%N then Some (4%nat, 0x90, 0xBF)%N
  else if ((0xF1 <=? n) && (n <=? 0xF3))%N then Some (4%nat, 0x80, 0xBF)%N
  else if (n =? 0xF4)%N then Some (4%nat, 0x80, 0x8F)%N
  else None.

Definition between (lo hi : N) (b : Byte.byte) : bool :=
  ((lo <=? Byte.to_N b) && (Byte.to_N b <=? hi))%N.

Definition replacement : list Byte.byte := backslash :: lit "ufffd".

(** The body of a string literal: ASCII outside [htmlSafeSet] is escaped,
    a byte that does not start a valid UTF-8 sequence becomes [\ufffd],
    U+2028 and U+2029 are escaped, anything else is copied. *)
Fixpoint appendBody (src : list Byte.byte) : list Byte.byte :=
  match src with
  | [] => []
  | b0 :: t0 =>
      let n := Byte.to_N b0 in
      if (n <? 128)%N then
        (if htmlSafeSet n then [b0] else escape b0) ++ appendBody t0
      else
        let invalid := replacement ++ appendBody t0 in
        match first n with
        | None => invalid
        | Some (size, lo, hi) =>
            match t0 with
            | [] => invalid
            | b1 :: t1 =>
                if negb (between lo hi b1) then invalid
                else if (size =? 2)%nat then b0 :: b1 :: appendBody t1
                else
                  match t1 with
                  | [] => invalid
                  | b2 :: t2 =>
                      if negb (between 0x80 0xBF b2) then invalid
                      else if (size =? 3)%nat then
                        if ((n =? 0xE2) && (Byte.to_N b1 =? 0x80)
                            && ((Byte.to_N b2 =? 0xA8) || (Byte.to_N b2 =? 0xA9)))%N
                        then backslash :: lit "u202" ++ hex (Byte.to_N b2)
                               :: appendBody t2
                        else b0 :: b1 :: b2 :: appendBody t2
                      else
                        match t2 with
                        | [] => invalid
                        | b3 :: t3 =>
                            if negb (between 0x80 0xBF b3) then invalid
                            else b0 :: b1 :: b2 :: b3 :: appendBody t3
                        end
                  end
            end
        end
  end.

Definition appendString (s : string) : list Byte.byte :=
  quote :: appendBody (bytes_of_string s) ++ [quote].

Definition appendBool (b : bool) : list Byte.byte :=
  if b then lit "true" else lit "false".

Definition appendInt (z : Z) : list Byte.byte :=
  lit (NilZero.string_of_int (Z.to_int z)).

(** A struct field or map entry: the quoted key, a colon, the value. *)
Definition member (key : string) (value : list Byte.byte) : list Byte.byte :=
  appendString key ++ lit ":" ++ value.

(** Members separated by commas. *)
Fixpoint members (ms : list (list Byte.byte)) : list Byte.byte :=
  match ms with
  | [] => []
  | m :: rest =>
      m ++ match rest with [] => [] | _ :: _ => lit "," ++ members rest end
  end.

Definition object (ms : list (list Byte.byte)) : list Byte.byte :=
  lit "{" ++ members ms ++ lit "}".

(** A [map[string]bool] is written with its keys sorted. *)
Definition key_le (a b : string * bool) : Prop := String.leb a.1 b.1 = true.

#[export] Instance key_le_dec (a b : string * bool) : Decision (key_le a b) :=
  decide (String.leb a.1 b.1 = true).

Definition appendMapBool (m : gmap string bool) : list Byte.byte :=
  object ((fun kv : string * bool => member kv.1 (appendBool kv.2))
            <$> merge_sort key_le (map_to_list m)).

End GoJSON.

(** ** encoding/json, the decoder: values of type [interface{}] *)

(** [float64] as sign, mantissa and exponent. *)
Definition float64 : Type := spec_float.

Inductive JSON : Type :=
| JNull
| JBool (b : bool)
| JNumber (f : float64)
| JString (s : string)
| JArray (l : list JSON)
| JObject (m : gmap string JSON).

(** The comma-ok type assertions [x.(T)] on the value found under a key
    ([None] for a missing key, Go's nil interface). *)
Definition asMap (x : option JSON) : option (gmap string JSON) :=
  match x with Some (JObject m) => Some m | _ => None end.
Definition asString (x : option JSON) : option string :=
  match x with Some (JString s) => Some s | _ => None end.
Definition asBool (x : option JSON) : option bool :=
  match x with Some (JBool b) => Some b | _ => None end.
Definition asFloat64 (x : option JSON) : option float64 :=
  match x with Some (JNumber f) => Some f | _ => None end.

(** The integer part of a finite [float64] (rounding toward zero). *)
Definition float64_trunc (f : float64) : option Z :=
  match f with
  | S754_zero _ => Some 0
  | S754_finite s m e =>
      let a := Z.shiftl (Z.pos m) e in Some (if s then - a else a)
  | S754_infinity _ | S754_nan => None
  end.

(** What [json.Unmarshal(data, &responseMap)] leaves in [responseMap]. *)
Inductive Decoded : Type :=
| DecodeError (err : string)
| DecodedMap (m : gmap string JSON).

(** ** The result types (the file of [Shader] and [newShader]) *)

Record ShaderVariable : Type := {
  Active : bool;
  IsRowMajor : bool;
  MappedName : string;
  Name : string;
  Precision : Z;
  StaticUse : bool;
  Type' : Z;
  Category : string
}.

Record Shader : Type := {
  Code : string;
  Variables : gmap string ShaderVariable
}.

(** ** The request types (transpiler.go) *)

Definition ShaderSpec : Type := string.
Definition ShaderSpecGLES2 : ShaderSpec := "gles2".
Definition ShaderSpecGLES3 : ShaderSpec := "gles3".
Definition ShaderSpecGLES31 : ShaderSpec := "gles31".
Definition ShaderSpecGLES32 : ShaderSpec := "gles32".
Definition ShaderSpecWebGL : ShaderSpec := "webgl".
Definition ShaderSpecWebGL2 : ShaderSpec := "webgl2".
Definition ShaderSpecWebGL3 : ShaderSpec := "webgl3".
Definition ShaderSpecWebGLN : ShaderSpec := "webgln".

Definition OutputFormat : Type := string.
Definition OutputFormatESSL : OutputFormat := "essl".
Definition OutputFormatGLSL : OutputFormat := "glsl".
Definition OutputFormatGLSL130 : OutputFormat := "glsl130".
Definition OutputFormatGLSL140 : OutputFormat := "glsl140".
Definition OutputFormatGLSL150 : OutputFormat := "glsl150".
Definition OutputFormatGLSL330 : OutputFormat := "glsl330".
Definition OutputFormatGLSL400 : OutputFormat := "glsl400".
Definition OutputFormatGLSL410 : OutputFormat := "glsl410".
Definition OutputFormatGLSL420 : OutputFormat := "glsl420".
Definition OutputFormatGLSL430 : OutputFormat := "glsl430".
Definition OutputFormatGLSL440 : OutputFormat := "glsl440".
Definition OutputFormatGLSL450 : OutputFormat := "glsl450".

Record TranslateRequestParams : Type := {
  ShaderCodeBase64 : string;
  ShaderType : string;
  Spec : ShaderSpec;
  Output : OutputFormat;
  PrintActiveVariables : bool;
  CompileOptions : gmap string bool
}.

Record JSONRPCRequest : Type := {
  JsonRPC : string;
  ID : Z;
  Method : string;
  Params : TranslateRequestParams
}.

(** [json.Marshal] of the two request structs: the fields in declaration
    order under the names of their [json] tags. It has no failing case for
    these types. *)
Definition Marshal_TranslateRequestParams (p : TranslateRequestParams)
  : list Byte.byte :=
  GoJSON.object
    [ GoJSON.member "shader_code_base64" (GoJSON.appendString (ShaderCodeBase64 p));
      GoJSON.member "shader_type" (GoJSON.appendString (ShaderType p));
      GoJSON.member "spec" (GoJSON.appendString (Spec p));
      GoJSON.member "output" (GoJSON.appendString (Output p));
      GoJSON.member "print_active_variables"
        (GoJSON.appendBool (PrintActiveVariables p));
      GoJSON.member "compile_options" (GoJSON.appendMapBool (CompileOptions p)) ].

Definition Marshal_JSONRPCRequest (r : JSONRPCRequest) : list Byte.byte :=
  GoJSON.object
    [ GoJSON.member "jsonrpc" (GoJSON.appendString (JsonRPC r));
      GoJSON.member "id" (GoJSON.appendInt (ID r));
      GoJSON.member "method" (GoJSON.appendString (Method r));
      GoJSON.member "params" (Marshal_TranslateRequestParams (Params r)) ].

(** Does a string contain a line feed? *)
Fixpoint has_newline (s : string) : bool :=
  match s with
  | EmptyString => false
  | String c rest => Ascii.eqb c "010"%char || has_newline rest
  end.

(** ** The request envelope as the protocol describes it

    A JSON document with ordered members, its text, and the envelope of a
    translate request. [Marshal_JSONRPCRequest] above is compared with
    these. *)

Inductive JDoc : Type :=
| DString (s : string)
| DInt (z : Z)
| DBool (b : bool)
| DObject (fields : list (string * JDoc)).

Fixpoint spec_render (d : JDoc) : list Byte.byte :=
  match d with
  | DString s => GoJSON.appendString s
  | DInt z => GoJSON.appendInt z
  | DBool b => GoJSON.appendBool b
  | DObject fields =>
      GoJSON.lit "{"
        ++ (fix fields_text (l : list (string * JDoc)) : list Byte.byte :=
              match l with
              | [] => []
              | (k, v) :: rest =>
                  GoJSON.appendString k ++ GoJSON.lit ":" ++ spec_render v
                    ++ match rest with
                       | [] => []
                       | _ :: _ => GoJSON.lit "," ++ fields_text rest
                       end
              end) fields
        ++ GoJSON.lit "}"
  end.

(** The envelope around a base64 text. *)
Definition spec_envelope_of (code64 shaderType : string) (spec : ShaderSpec)
    (output : OutputFormat) : JDoc :=
  DObject
    [ ("jsonrpc", DString "2.0");
      ("id", DInt 1);
      ("method", DString "translate");
      ("params",
        DObject
          [ ("shader_code_base64", DString code64);
            ("shader_type", DString shaderType);
            ("spec", DString spec);
            ("output", DString output);
            ("print_active_variables", DBool true);
            ("compile_options", DObject [ ("objectCode", DBool true) ]) ]) ].

Definition spec_envelope (shaderCode shaderType : string) (spec : ShaderSpec)
    (output : OutputFormat) : JDoc :=
  spec_envelope_of (Base64.EncodeToString (bytes_of_string shaderCode))
    shaderType spec output.

(** The request as a string of bytes followed by the terminator. *)
Definition spec_request (shaderCode shaderType : string) (spec : ShaderSpec)
    (output : OutputFormat) : list Byte.byte :=
  spec_render (spec_envelope shaderCode shaderType spec output) ++ [Byte.x00].

(** ** Reading the request back, as the protocol's formats define it

    Independent of the encoders above: the base64 decoder of RFC 4648
    (alphabet by value, [=] padding) and a reader of compact JSON text
    (RFC 8259: objects, strings with their escapes, integers, booleans).
    The request written by the host is compared with these. *)

(** A text of ASCII characters only. *)
Definition spec_ascii (s : string) : Prop :=
  Forall (fun b => (Byte.to_N b <? 128)%N = true) (bytes_of_string s).

(** The value of a base64 character. *)
Definition spec_base64_value (c : Byte.byte) : option N :=
  let n := Byte.to_N c in
  if ((65 <=? n) && (n <=? 90))%N then Some (n - 65)%N
  else if ((97 <=? n) && (n <=? 122))%N then Some (n - 71)%N
  else if ((48 <=? n) && (n <=? 57))%N then Some (n + 4)%N
  else if (n =? 43)%N then Some 62%N
  else if (n =? 47)%N then Some 63%N
  else None.

Definition byte_of_N (n : N) : Byte.byte :=
  match Byte.of_N (n mod 256) with Some b => b | None => Byte.x00 end.

(** Four characters give three bytes; a final group padded with one or
    two [=] gives two bytes or one, and the bits of its last character
    that no byte uses are zero (the canonical form of RFC 4648, 3.5). *)
Fixpoint spec_base64_decode (text : list Byte.byte) : option (list Byte.byte) :=
  match text with
  | [] => Some []
  | c0 :: c1 :: c2 :: c3 :: rest =>
      match spec_base64_value c0, spec_base64_value c1 with
      | Some d0, Some d1 =>
          let b0 := byte_of_N (d0 * 4 + d1 / 16) in
          if Byte.eqb c2 "="%byte then
            if Byte.eqb c3 "="%byte && (d1 mod 16 =? 0)%N
            then match rest with [] => Some [b0] | _ :: _ => None end
            else None
          else
            match spec_base64_value c2 with
            | Some d2 =>
                let b1 := byte_of_N (d1 mod 16 * 16 + d2 / 4) in
                if Byte.eqb c3 "="%byte
                then
                  if (d2 mod 4 =? 0)%N
                  then match rest with [] => Some [b0; b1] | _ :: _ => None end
                  else None
                else
                  match spec_base64_value c3 with
                  | Some d3 =>
                      let b2 := byte_of_N (d2 mod 4 * 64 + d3) in
                      match spec_base64_decode rest with
                      | Some bytes => Some (b0 :: b1 :: b2 :: bytes)
                      | None => None
                      end
                  | None => None
                  end
            | None => None
            end
      | _, _ => None
      end
  | _ => None
  end.

(** The value of a hexadecimal digit. *)
Definition spec_hex_value (c : Byte.byte) : option N :=
  let n := Byte.to_N c in
  if ((48 <=? n) && (n <=? 57))%N then Some (n - 48)%N
  else if ((97 <=? n) && (n <=? 102))%N then Some (n - 87)%N
  else if ((65 <=? n) && (n <=? 70))%N then Some (n - 55)%N
  else None.

(** The UTF-8 bytes of a code point of the basic plane. *)
Definition spec_utf8 (cp : N) : list Byte.byte :=
  if (cp <? 128)%N then [byte_of_N cp]
  else if (cp <? 2048)%N then [byte_of_N (192 + cp / 64); byte_of_N (128 + cp mod 64)]
  else [byte_of_N (224 + cp / 4096); byte_of_N (128 + cp / 64 mod 64);
        byte_of_N (128 + cp mod 64)].

(** The characters of a JSON string after its opening quote, up to the
    closing quote, and the text that follows. *)
Fixpoint spec_read_string (text : list Byte.byte)
  : option (list Byte.byte * list Byte.byte) :=
  match text with
  | [] => None
  | c :: t =>
      if Byte.eqb c Byte.x22 then Some ([], t)
      else if Byte.eqb c Byte.x5c then
        match t with
        | [] => None
        | e :: t1 =>
            let simple (b : Byte.byte) :=
              match spec_read_string t1 with
              | Some (s, rest) => Some (b :: s, rest)
              | None => None
              end in
            if Byte.eqb e Byte.x22 then simple Byte.x22
            else if Byte.eqb e Byte.x5c then simple Byte.x5c
            else if Byte.eqb e "/"%byte then simple "/"%byte
            else if Byte.eqb e "b"%byte then simple Byte.x08
            else if Byte.eqb e "f"%byte then simple Byte.x0c
            else if Byte.eqb e "n"%byte then simple Byte.x0a
            else if Byte.eqb e "r"%byte then simple Byte.x0d
            else if Byte.eqb e "t"%byte then simple Byte.x09
            else if Byte.eqb e "u"%byte then
              match t1 with
              | h1 :: h2 :: h3 :: h4 :: t2 =>
                  match spec_hex_value h1, spec_hex_value h2,
                        spec_hex_value h3, spec_hex_value h4 with
                  | Some v1, Some v2, Some v3, Some v4 =>
                      match spec_read_string t2 with
                      | Some (s, rest) =>
                          Some (spec_utf8 (v1 * 4096 + v2 * 256 + v3 * 16 + v4)%N ++ s,
                                rest)
                      | None => None
                      end
                  | _, _, _, _ => None
                  end
              | _ => None
              end
            else None
        end
      else if (Byte.to_N c <? 32)%N then None
      else
        match spec_read_string t with
        | Some (s, rest) => Some (c :: s, rest)
        | None => None
        end
  end.

(** The digits at the head of a text, as a number, and what follows. *)
Fixpoint spec_read_digits (acc : Z) (text : list Byte.byte) : Z * list Byte.byte :=
  match text with
  | c :: t =>
      if ((48 <=? Byte.to_N c) && (Byte.to_N c <=? 57))%N
      then spec_read_digits (acc * 10 + Z.of_N (Byte.to_N c - 48)) t
      else (acc, text)
  | [] => (acc, text)
  end.

(** A JSON value at the head of a compact text and what follows it;
    [fuel] bounds the nesting and the number of members. *)
Fixpoint spec_read_value (fuel : nat) (text : list Byte.byte)
  : option (JDoc * list Byte.byte) :=
  match fuel with
  | O => None
  | S fuel' =>
      match text with
      | [] => None
      | c :: t =>
          if Byte.eqb c Byte.x22 then
            match spec_read_string t with
            | Some (s, rest) => Some (DString (string_of_bytes s), rest)
            | None => None
            end
          else if Byte.eqb c "{"%byte then
            match t with
            | c' :: t' =>
                if Byte.eqb c' "}"%byte then Some (DObject [], t')
                else
                  match spec_read_members fuel' t with
                  | Some (fields, rest) => Some (DObject fields, rest)
                  | None => None
                  end
            | [] => None
            end
          else if ((48 <=? Byte.to_N c) && (Byte.to_N c <=? 57))%N then
            Some (DInt (spec_read_digits 0 text).1, (spec_read_digits 0 text).2)
          else
            match text with
            | "t"%byte :: "r"%byte :: "u"%byte :: "e"%byte :: rest =>
                Some (DBool true, rest)
            | "f"%byte :: "a"%byte :: "l"%byte :: "s"%byte :: "e"%byte :: rest =>
                Some (DBool false, rest)
            | _ => None
            end
      end
  end
with spec_read_members (fuel : nat) (text : list Byte.byte)
  : option (list (string * JDoc) * list Byte.byte) :=
  match fuel with
  | O => None
  | S fuel' =>
      match text with
      | c :: t =>
          if Byte.eqb c Byte.x22 then
            match spec_read_string t with
            | Some (key, colon :: t1) =>
                if Byte.eqb colon ":"%byte then
                  match spec_read_value fuel' t1 with
                  | Some (value, sep :: t2) =>
                      if Byte.eqb sep "}"%byte
                      then Some ([(string_of_bytes key, value)], t2)
                      else if Byte.eqb sep ","%byte then
                        match spec_read_members fuel' t2 with
                        | Some (fields, rest) =>
                            Some ((string_of_bytes key, value) :: fields, rest)
                        | None => None
                        end
                      else None
                  | _ => None
                  end
                else None
            | _ => None
            end
          else None
      | [] => None
      end
  end.

(** ** Outcomes of a Go call returning [(T, error)] *)

Inductive outcome (A : Type) : Type :=
| Ok (a : A)          (* (a, nil) *)
| Err (e : string)    (* (zero value, fmt.Errorf(e)) *)
| Panic.              (* the call does not return: run-time panic *)
Arguments Ok {A} a.
Arguments Err {A} e.
Arguments Panic {A}.

(** ** wazero: linear memory ([api.Memory]) *)

Module Memory.

Definition Size (m : list Byte.byte) : Z := uint32 (Z.of_nat (length m)).

Definition hasSize (m : list Byte.byte) (offset byteCount : Z) : bool :=
  offset + byteCount <=? Z.of_nat (length m).

Definition Read (m : list Byte.byte) (offset byteCount : Z)
  : option (list Byte.byte) :=
  if hasSize m offset byteCount
  then Some (take (Z.to_nat byteCount) (drop (Z.to_nat offset) m))
  else None.

Definition Write (m : list Byte.byte) (offset : Z) (v : list Byte.byte)
  : option (list Byte.byte) :=
  if hasSize m offset (Z.of_nat (length v))
  then Some (take (Z.to_nat offset) m ++ v
               ++ drop (Z.to_nat offset + length v) m)
  else None.

Definition WriteByte (m : list Byte.byte) (offset : Z) (v : Byte.byte)
  : option (list Byte.byte) :=
  if hasSize m offset 1 then Some (<[Z.to_nat offset := v]> m) else None.

End Memory.

(** ** wazero: the exported functions ([api.Function]) *)

Inductive Export : Type := initialize | finalize | invoke | malloc | free.

(** [results, err := f.Call(ctx, params...)] *)
Inductive CallResult : Type :=
| Returned (results : list Z)
| Failed (err : string).

(** What the host did to the runtime, oldest first. *)
Inductive Event : Type :=
| EvCall (f : Export) (params : list Z)
| EvRuntimeClose
| EvLog (msg : string).

(** ** The translator instance *)

(** [ShaderTranslator]: the instantiated module (memory and guest state),
    the [closed] flag, and the history of what the host asked of the
    runtime. *)
Record ShaderTranslator (Guest : Type) : Type := {
  memory : list Byte.byte;
  guest : Guest;
  closed : bool;
  history : list Event
}.
Arguments memory {Guest} _.
Arguments guest {Guest} _.
Arguments closed {Guest} _.
Arguments history {Guest} _.

Definition record {Guest : Type} (ev : Event) (st : ShaderTranslator Guest)
  : ShaderTranslator Guest :=
  {| memory := memory st; guest := guest st; closed := closed st;
     history := history st ++ [ev] |}.

Definition setMemory {Guest : Type} (m : list Byte.byte) (st : ShaderTranslator Guest)
  : ShaderTranslator Guest :=
  {| memory := m; guest := guest st; closed := closed st;
     history := history st |}.

Definition setClosed {Guest : Type} (b : bool) (st : ShaderTranslator Guest)
  : ShaderTranslator Guest :=
  {| memory := memory st; guest := guest st; closed := b;
     history := history st |}.

(** ** The embedded module, before it is instantiated

    What [NewShaderTranslator] meets when it sets the runtime up: whether
    WASI could be instantiated ([MustInstantiate] panics otherwise), the
    error of [CompileModule] if any, the error of [InstantiateModule] or
    the memory and state of the new instance, and which of the five
    functions the module exports ([ExportedFunction] returns nil for the
    others). *)
Record Embedded (Guest : Type) : Type := {
  wasi_instantiates : bool;
  CompileModule : option string;
  InstantiateModule : string + (list Byte.byte * Guest);
  ExportedFunction : Export -> bool
}.
Arguments wasi_instantiates {Guest} _.
Arguments CompileModule {Guest} _.
Arguments InstantiateModule {Guest} _.
Arguments ExportedFunction {Guest} _.

(** The events of a history that are calls of a given export. *)
Definition callsOf (f : Export) (events : list Event) : list (list Z) :=
  omap (fun ev =>
          match ev with
          | EvCall g params =>
              match f, g with
              | initialize, initialize | finalize, finalize | invoke, invoke
              | malloc, malloc | free, free => Some params
              | _, _ => None
              end
          | _ => None
          end) events.

(** How often the runtime was closed in a history. *)
Definition runtimeCloses (events : list Event) : nat :=
  length (omap (fun ev =>
                  match ev with EvRuntimeClose => Some tt | _ => None end)
            events).

Definition isObject (data : JSON) : bool :=
  match data with JObject _ => true | _ => false end.

(** ** A small guest, for running the definitions

    A guest with a small memory whose [malloc] hands out a fixed
    offset, whose [invoke] stores a prepared reply and returns its offset
    (0 when the reply does not fit), and whose runtime can be made to
    refuse to close a number of times. *)

Record SampleGuest : Type := {
  heap_next : Z;
  reply : list Byte.byte;
  reply_at : Z;
  close_failures : nat
}.

Definition sample_Call (f : Export) (params : list Z)
    (s : list Byte.byte * SampleGuest)
  : CallResult * (list Byte.byte * SampleGuest) :=
  match f with
  | initialize => (Returned [1], s)
  | finalize => (Returned [], s)
  | malloc => (Returned [heap_next s.2], s)
  | free => (Returned [], s)
  | invoke =>
      match Memory.Write s.1 (reply_at s.2) (reply s.2) with
      | Some m => (Returned [reply_at s.2], (m, s.2))
      | None => (Returned [0], s)
      end
  end.

Definition sample_runtime_Close (s : list Byte.byte * SampleGuest)
  : option string * (list Byte.byte * SampleGuest) :=
  match close_failures s.2 with
  | O => (None, s)
  | S n =>
      (Some "module closed with exit code 1",
       (s.1, {| heap_next := heap_next s.2; reply := reply s.2;
                reply_at := reply_at s.2; close_failures := n |}))
  end.

Definition sample_memory : list Byte.byte := repeat Byte.x00 4096.

(** A translator as [NewShaderTranslator] returns it. *)
Definition sample_translator (g : SampleGuest) : ShaderTranslator SampleGuest :=
  {| memory := sample_memory; guest := g; closed := false;
     history := [EvCall initialize []] |}.

#[global] Instance byte_eq_dec : EqDecision Byte.byte := Byte.byte_eq_dec.

(** The [float64] of an integer. *)
Definition float64_of_Z (z : Z) : float64 := binary_normalize 53 1024 z 0 false.

(** *** Sample responses: their text and what it decodes to *)

Definition sample_array (elements : list (list Byte.byte)) : list Byte.byte :=
  GoJSON.lit "[" ++ GoJSON.members elements ++ GoJSON.lit "]".

(** A variable object with all seven fields. *)
Definition sample_variable_text (name mapped_name : string) : list Byte.byte :=
  GoJSON.object
    [ GoJSON.member "active" (GoJSON.lit "true");
      GoJSON.member "is_row_major" (GoJSON.lit "false");
      GoJSON.member "mapped_name" (GoJSON.appendString mapped_name);
      GoJSON.member "name" (GoJSON.appendString name);
      GoJSON.member "precision_enum" (GoJSON.lit "36338");
      GoJSON.member "static_use" (GoJSON.lit "true");
      GoJSON.member "type_enum" (GoJSON.lit "5126") ].

Definition sample_variable (name mapped_name : string) : gmap string JSON :=
  list_to_map
    [ ("active", JBool true);
      ("is_row_major", JBool false);
      ("mapped_name", JString mapped_name);
      ("name", JString name);
      ("precision_enum", JNumber (float64_of_Z 36338));
      ("static_use", JBool true);
      ("type_enum", JNumber (float64_of_Z 5126)) ].

(** A variable object without its "precision_enum". *)
Definition sample_incomplete_text (name mapped_name : string) : list Byte.byte :=
  GoJSON.object
    [ GoJSON.member "active" (GoJSON.lit "true");
      GoJSON.member "is_row_major" (GoJSON.lit "false");
      GoJSON.member "mapped_name" (GoJSON.appendString mapped_name);
      GoJSON.member "name" (GoJSON.appendString name);
      GoJSON.member "static_use" (GoJSON.lit "true");
      GoJSON.member "type_enum" (GoJSON.lit "5126") ].

Definition sample_incomplete (name mapped_name : string) : gmap string JSON :=
  delete "precision_enum" (sample_variable name mapped_name).

Definition sample_response_text (members : list (list Byte.byte))
  : list Byte.byte :=
  GoJSON.object
    (GoJSON.member "jsonrpc" (GoJSON.appendString "2.0")
       :: GoJSON.member "id" (GoJSON.lit "1") :: members).

Definition sample_response (members : list (string * JSON)) : gmap string JSON :=
  list_to_map (("jsonrpc", JString "2.0") :: ("id", JNumber (float64_of_Z 1))
                 :: members).

Definition sample_result_text (active_variables : list (list Byte.byte))
  : list Byte.byte :=
  GoJSON.member "result"
    (GoJSON.object
       [ GoJSON.member "object_code" (GoJSON.appendString "void main(){}");
         GoJSON.member "active_variables" (GoJSON.object active_variables) ]).

Definition sample_result (active_variables : list (string * JSON))
  : string * JSON :=
  ("result",
   JObject (list_to_map
              [ ("object_code", JString "void main(){}");
                ("active_variables", JObject (list_to_map active_variables)) ])).

(** A translation whose variable "iTime" is listed under two
    categories. *)
Definition translated_text : list Byte.byte :=
  sample_response_text
    [ sample_result_text
        [ GoJSON.member "uniforms"
            (sample_array [ sample_variable_text "iTime" "_uiTime";
                            sample_variable_text "iResolution" "_uiResolution" ]);
          GoJSON.member "varyings"
            (sample_array [ sample_variable_text "iTime" "_viTime" ]) ] ].

Definition translated : gmap string JSON :=
  sample_response
    [ sample_result
        [ ("uniforms",
            JArray [ JObject (sample_variable "iTime" "_uiTime");
                     JObject (sample_variable "iResolution" "_uiResolution") ]);
          ("varyings", JArray [ JObject (sample_variable "iTime" "_viTime") ]) ] ].

(** A failed translation. *)
Definition failed_text : list Byte.byte :=
  sample_response_text
    [ GoJSON.member "error"
        (GoJSON.object
           [ GoJSON.member "code" (GoJSON.lit "-32000");
             GoJSON.member "message" (GoJSON.appendString "Shader compilation failed");
             GoJSON.member "data"
               (GoJSON.object
                  [ GoJSON.member "info_log"
                      (GoJSON.appendString "ERROR: 0:1: syntax error") ]) ]) ].

Definition failed : gmap string JSON :=
  sample_response
    [ ("error",
        JObject (list_to_map
                   [ ("code", JNumber (float64_of_Z (-32000)));
                     ("message", JString "Shader compilation failed");
                     ("data",
                       JObject (list_to_map
                                  [ ("info_log",
                                      JString "ERROR: 0:1: syntax error") ])) ])) ].

(** A translation one of whose variables lacks its precision. *)
Definition incomplete_text : list Byte.byte :=
  sample_response_text
    [ sample_result_text
        [ GoJSON.member "uniforms"
            (sample_array [ sample_incomplete_text "iTime" "_uiTime" ]) ] ].

Definition incomplete : gmap string JSON :=
  sample_response
    [ sample_result
        [ ("uniforms", JArray [ JObject (sample_incomplete "iTime" "_uiTime") ]) ] ].

(** A translation that also carries a string under "error". *)
Definition flagged_text : list Byte.byte :=
  sample_response_text
    [ GoJSON.member "error" (GoJSON.appendString "deprecated");
      sample_result_text
        [ GoJSON.member "uniforms"
            (sample_array [ sample_variable_text "iTime" "_uiTime" ]) ] ].

Definition flagged : gmap string JSON :=
  sample_response
    [ ("error", JString "deprecated");
      sample_result
        [ ("uniforms", JArray [ JObject (sample_variable "iTime" "_uiTime") ]) ] ].

(** A decoder for the sample texts. *)
Definition sample_Unmarshal (data : list Byte.byte) : Decoded :=
  if decide (data = translated_text) then DecodedMap translated
  else if decide (data = failed_text) then DecodedMap failed
  else if decide (data = incomplete_text) then DecodedMap incomplete
  else if decide (data = flagged_text) then DecodedMap flagged
  else DecodeError "invalid character looking for beginning of value".

(** The order of [range] taken to be that of [map_to_list]. *)
Definition sample_range_order (m : gmap string JSON) : list (string * JSON) :=
  map_to_list m.

Definition sample_uint_unrepresentable (f : float64) : Z := 2 ^ 63.

(** A guest that allocates at 64 and answers at 1024 with a terminated
    text. *)
Definition answering (text : list Byte.byte) : SampleGuest :=
  {| heap_next := 64; reply := text ++ [Byte.x00]; reply_at := 1024;
     close_failures := 0 |}.

(** A guest whose runtime refuses to close once. *)
Definition reluctant : SampleGuest :=
  {| heap_next := 64; reply := failed_text ++ [Byte.x00]; reply_at := 1024;
     close_failures := 1 |}.

(** A guest whose allocator returns a block that runs past the end of
    memory. *)
Definition overrunning : SampleGuest :=
  {| heap_next := 4000; reply := failed_text ++ [Byte.x00]; reply_at := 1024;
     close_failures := 0 |}.

(** The embedded module as it is shipped: everything succeeds and the
    five functions are exported. *)
Definition shipped (g : SampleGuest) : Embedded SampleGuest :=
  {| wasi_instantiates := true; CompileModule := None;
     InstantiateModule := inr (sample_memory, g);
     ExportedFunction := fun _ => true |}.

(** A module that does not compile. *)
Definition corrupt : Embedded SampleGuest :=
  {| wasi_instantiates := true; CompileModule := Some "invalid magic number";
     InstantiateModule := inl "not compiled";
     ExportedFunction := fun _ => false |}.

(** A module built without its [finalize]. *)
Definition truncated (g : SampleGuest) : Embedded SampleGuest :=
  {| wasi_instantiates := true; CompileModule := None;
     InstantiateModule := inr (sample_memory, g);
     ExportedFunction :=
       fun f => match f with finalize => false | _ => true end |}.

(** A guest whose finalizer traps. *)
Definition trapping_Call (f : Export) (params : list Z)
    (s : list Byte.byte * SampleGuest)
  : CallResult * (list Byte.byte * SampleGuest) :=
  match f with
  | finalize => (Failed "wasm error: unreachable", s)
  | _ => sample_Call f params s
  end.

(** A reply with neither result nor error, a reply whose category is
    null, and a translation that lists no variables at all. *)
Definition hollow : gmap string JSON := sample_response [].

Definition nulled : gmap string JSON :=
  sample_response [ sample_result [ ("uniforms", JNull) ] ].

Definition bare : gmap string JSON :=
  sample_response
    [ ("result", JObject (list_to_map [ ("object_code", JString "void main(){}") ])) ].

(** ** The translator *)

Section Translator.

(** The guest module: its private state, what a call to one of its
    exports returns and does to linear memory, and what releasing the
    runtime does. *)
Context {Guest : Type}.
Variable Call :
  Export -> list Z -> list Byte.byte * Guest ->
  CallResult * (list Byte.byte * Guest).
Variable runtime_Close :
  list Byte.byte * Guest -> option string * (list Byte.byte * Guest).

(** [json.Unmarshal] into a [map[string]interface{}]. *)
Variable json_Unmarshal : list Byte.byte -> Decoded.

(** The order in which [range] visits the entries of a map: some order
    of its entries. *)
Variable range_order : gmap string JSON -> list (string * JSON).
Hypothesis range_order_perm :
  forall m : gmap string JSON, range_order m ≡ₚ map_to_list m.

(** The value of [uint(f)] for an [f] outside the range of [uint], which
    the language leaves to the implementation. *)
Variable uint_unrepresentable : float64 -> Z.

(** [f.Call(st.ctx, params...)] *)
Definition callExport (f : Export) (params : list Z) (st : ShaderTranslator Guest)
  : CallResult * ShaderTranslator Guest :=
  let r := Call f params (memory st, guest st) in
  (r.1, {| memory := r.2.1; guest := r.2.2; closed := closed st;
           history := history st ++ [EvCall f params] |}).

(** [st.runtime.Close(st.ctx)] *)
Definition runtimeClose (st : ShaderTranslator Guest)
  : option string * ShaderTranslator Guest :=
  let r := runtime_Close (memory st, guest st) in
  (r.1, {| memory := r.2.1; guest := r.2.2; closed := closed st;
           history := history st ++ [EvRuntimeClose] |}).

(** *** NewShaderTranslator (transpiler.go, 81-134)

    The result and what was asked of the runtime on the way. On the
    paths that return an error the runtime is closed and no translator
    exists; the value of [r.Close] is dropped. *)
Definition NewShaderTranslator (wasm : Embedded Guest)
  : outcome (ShaderTranslator Guest) * list Event :=
  if negb (wasi_instantiates wasm) then (Panic, [])
  else
    match CompileModule wasm with
    | Some err => (Err ("failed to compile wasm module: " +:+ err), [EvRuntimeClose])
    | None =>
        match InstantiateModule wasm with
        | inl err =>
            (Err ("failed to instantiate wasm module: " +:+ err), [EvRuntimeClose])
        | inr (m, g) =>
            if negb (ExportedFunction wasm invoke) || negb (ExportedFunction wasm malloc)
               || negb (ExportedFunction wasm free)
               || negb (ExportedFunction wasm initialize)
               || negb (ExportedFunction wasm finalize)
            then
              (Err "one or more required library functions not exported from wasm module",
               [EvRuntimeClose])
            else
              match callExport initialize []
                      {| memory := m; guest := g; closed := false; history := [] |} with
              | (Failed err, st) =>
                  (Err ("failed to call 'initialize' function: " +:+ err),
                   history st ++ [EvRuntimeClose])
              | (Returned [], st) => (Panic, history st)
              | (Returned (result0 :: _), st) =>
                  if result0 =? 0
                  then (Err "the ANGLE library's 'initialize' function failed",
                        history st ++ [EvRuntimeClose])
                  else (Ok st, history st)
              end
        end
    end.

(** *** Close (transpiler.go, 137-149) *)
Definition Close (st : ShaderTranslator Guest)
  : option string * ShaderTranslator Guest :=
  if closed st then (None, st)
  else
    let st1 :=
      match callExport finalize [] st with
      | (Failed err, st1) =>
          record (EvLog ("warning: call to wasm finalizer failed: " +:+ err)) st1
      | (Returned _, st1) => st1
      end in
    match runtimeClose st1 with
    | (Some err, st2) => (Some ("failed to close wazero runtime: " +:+ err), st2)
    | (None, st2) => (None, setClosed true st2)
    end.

(** *** writeStringToMemory (transpiler.go, 211-228) *)
Definition writeStringToMemory (data : list Byte.byte) (st : ShaderTranslator Guest)
  : outcome Z * ShaderTranslator Guest :=
  let byteCount := uint64 (Z.of_nat (length data)) in
  match callExport malloc [uint64 (byteCount + 1)] st with
  | (Failed err, st1) => (Err ("wasm malloc call failed: " +:+ err), st1)
  | (Returned [], st1) => (Panic, st1)
  | (Returned (ptr :: _), st1) =>
      if ptr =? 0 then (Err "wasm malloc failed to allocate memory", st1)
      else
        match Memory.Write (memory st1) (uint32 ptr) data with
        | None => (Err "failed to write to wasm memory", st1)
        | Some m1 =>
            match Memory.WriteByte m1 (uint32 (uint64 (ptr + byteCount)))
                    Byte.x00 with
            | None =>
                (Err "failed to write null terminator to wasm memory",
                 setMemory m1 st1)
            | Some m2 => (Ok ptr, setMemory m2 st1)
            end
        end
  end.

(** *** readStringFromMemory (transpiler.go, 230-247) *)

(** The loop over [memBuffer]: the index of the first zero byte, counting
    from [i], or -1. *)
Fixpoint nullTerminatorIndex (memBuffer : list Byte.byte) (i : Z) : Z :=
  match memBuffer with
  | [] => -1
  | b :: rest =>
      if Byte.eqb b Byte.x00 then i else nullTerminatorIndex rest (i + 1)
  end.

Definition readStringFromMemory (ptr : Z) (st : ShaderTranslator Guest)
  : outcome (list Byte.byte) :=
  let mem := memory st in
  match Memory.Read mem ptr (uint32 (Memory.Size mem - ptr)) with
  | None => Err "failed to read from wasm memory"
  | Some memBuffer =>
      let idx := nullTerminatorIndex memBuffer 0 in
      if idx =? -1 then Err "string from wasm is not null-terminated"
      else Ok (take (Z.to_nat idx) memBuffer)
  end.

(** *** newShader (lines 19-50 of its file) *)

(** [uint(f)] on a 64-bit platform. *)
Definition uint_of_float64 (f : float64) : Z :=
  match float64_trunc f with
  | Some z => if (0 <=? z) && (z <? 2 ^ 64) then z else uint_unrepresentable f
  | None => uint_unrepresentable f
  end.

(** The struct literal of lines 32-41; [None] when one of its unchecked
    type assertions fails. *)
Definition shaderVariable (name : string) (variableMap : gmap string JSON)
  : option ShaderVariable :=
  active ← asBool (variableMap !! "active");
  is_row_major ← asBool (variableMap !! "is_row_major");
  mapped_name ← asString (variableMap !! "mapped_name");
  name' ← asString (variableMap !! "name");
  precision_enum ← asFloat64 (variableMap !! "precision_enum");
  static_use ← asBool (variableMap !! "static_use");
  type_enum ← asFloat64 (variableMap !! "type_enum");
  Some {| Active := active; IsRowMajor := is_row_major;
          MappedName := mapped_name; Name := name';
          Precision := uint_of_float64 precision_enum;
          StaticUse := static_use; Type' := uint_of_float64 type_enum;
          Category := name |}.

(** The inner loop, over the elements of one category. *)
Fixpoint rangeVarData (name : string) (varData : list JSON)
    (variables : gmap string ShaderVariable)
  : outcome (gmap string ShaderVariable) :=
  match varData with
  | [] => Ok variables
  | JObject variableMap :: rest =>
      match shaderVariable name variableMap with
      | None => Panic
      | Some variable =>
          rangeVarData name rest (<[Name variable := variable]> variables)
      end
  | _ :: rest => rangeVarData name rest variables
  end.

(** The outer loop, over the categories in the order [range] yields
    them. *)
Fixpoint rangeActiveVariables (entries : list (string * JSON))
    (variables : gmap string ShaderVariable)
  : outcome (gmap string ShaderVariable) :=
  match entries with
  | [] => Ok variables
  | (name, JArray varData) :: rest =>
      match rangeVarData name varData variables with
      | Ok variables' => rangeActiveVariables rest variables'
      | Err e => Err e
      | Panic => Panic
      end
  | (_, _) :: _ => Panic
  end.

Definition newShader (response : gmap string JSON) : outcome Shader :=
  let fsResultPayload := default ∅ (asMap (response !! "result")) in
  let active_variables :=
    default ∅ (asMap (fsResultPayload !! "active_variables")) in
  match rangeActiveVariables (range_order active_variables) ∅ with
  | Ok variables =>
      match asString (fsResultPayload !! "object_code") with
      | Some code => Ok {| Code := code; Variables := variables |}
      | None => Panic
      end
  | Err e => Err e
  | Panic => Panic
  end.

(** *** TranslateShader (transpiler.go, 152-209)

    [json.Marshal] has no failing case on [JSONRPCRequest] (strings, an
    int, a bool and a [map[string]bool]), so the error return of lines
    172-174 is never taken and has no counterpart here. *)

Definition newRequest (shaderCode shaderType : string) (spec : ShaderSpec)
    (output : OutputFormat) : JSONRPCRequest :=
  let shaderCodeB64 := Base64.EncodeToString (bytes_of_string shaderCode) in
  {| JsonRPC := "2.0";
     ID := 1;
     Method := "translate";
     Params :=
       {| ShaderCodeBase64 := shaderCodeB64;
          ShaderType := shaderType;
          Spec := spec;
          Output := output;
          PrintActiveVariables := true;
          CompileOptions := {[ "objectCode" := true ]} |} |}.

(** Lines 196-208: what is made of the bytes read back from the guest. *)
Definition parseResponse (responseBytes : list Byte.byte) : outcome Shader :=
  match json_Unmarshal responseBytes with
  | DecodeError err => Err ("failed to unmarshal wasm response: " +:+ err)
  | DecodedMap responseMap =>
      match asMap (responseMap !! "error") with
      | Some serr =>
          let errorMessage := default "" (asString (serr !! "message")) in
          let data := default ∅ (asMap (serr !! "data")) in
          let log := default "" (asString (data !! "info_log")) in
          Err (errorMessage +:+ String "010"%char log)
      | None => newShader responseMap
      end
  end.

(** [defer st.free.Call(st.ctx, requestPtr)]: the call is made when the
    function returns or panics; its result is dropped. *)
Definition deferFree {A : Type} (requestPtr : Z)
    (body : outcome A * ShaderTranslator Guest) : outcome A * ShaderTranslator Guest :=
  (body.1, (callExport free [requestPtr] body.2).2).

Definition TranslateShader (st : ShaderTranslator Guest)
    (shaderCode shaderType : string) (spec : ShaderSpec)
    (output : OutputFormat) : outcome Shader * ShaderTranslator Guest :=
  if closed st then (Err "translator has been closed", st)
  else
    let requestPayload := newRequest shaderCode shaderType spec output in
    let requestBytes := Marshal_JSONRPCRequest requestPayload in
    match writeStringToMemory requestBytes st with
    | (Err e, st1) => (Err e, st1)
    | (Panic, st1) => (Panic, st1)
    | (Ok requestPtr, st1) =>
        deferFree requestPtr
          match callExport invoke [requestPtr] st1 with
          | (Failed err, st2) => (Err ("wasm invoke call failed: " +:+ err), st2)
          | (Returned [], st2) => (Panic, st2)
          | (Returned (responsePtr :: _), st2) =>
              if responsePtr =? 0
              then (Err "wasm invoke function returned a null pointer", st2)
              else
                match readStringFromMemory (uint32 responsePtr) st2 with
                | Err e => (Err e, st2)
                | Panic => (Panic, st2)
                | Ok responseBytes => (parseResponse responseBytes, st2)
                end
          end
    end.



(** *** The variable objects of a response *)

(** The objects among the elements of one category, tagged with it. *)
Fixpoint objectsOf (name : string) (varData : list JSON)
  : list (string * gmap string JSON) :=
  match varData with
  | [] => []
  | JObject variableMap :: rest => (name, variableMap) :: objectsOf name rest
  | _ :: rest => objectsOf name rest
  end.

(** The variable objects in the order the two loops of [newShader] reach
    them. *)
Fixpoint visited (entries : list (string * JSON))
  : list (string * gmap string JSON) :=
  match entries with
  | [] => []
  | (name, JArray varData) :: rest => objectsOf name varData ++ visited rest
  | _ :: rest => visited rest
  end.

Definition visitedVariables (entries : list (string * JSON))
  : list ShaderVariable :=
  omap (fun o : string * gmap string JSON => shaderVariable o.1 o.2)
    (visited entries).

(** The last variable of a sequence that bears a given original name. *)
Definition lastNamed (k : string) (l : list ShaderVariable)
  : option ShaderVariable :=
  last (filter (fun v => Name v = k) l).

(** The [active_variables] of a response, as [newShader] finds them. *)
Definition activeVariablesOf (response : gmap string JSON) : gmap string JSON :=
  default ∅ (asMap (default ∅ (asMap (response !! "result")) !! "active_variables")).

(** A variable object with a field that is missing or not of the type
    [newShader] asserts. *)
Definition malformed_variable (variableMap : gmap string JSON) : Prop :=
  asBool (variableMap !! "active") = None
  \/ asBool (variableMap !! "is_row_major") = None
  \/ asString (variableMap !! "mapped_name") = None
  \/ asString (variableMap !! "name") = None
  \/ asFloat64 (variableMap !! "precision_enum") = None
  \/ asBool (variableMap !! "static_use") = None
  \/ asFloat64 (variableMap !! "type_enum") = None.

(** Every field of [v] is the value found under its key in [variableMap],
    the two codes narrowed from [float64], and its category is [name]. *)
Definition reads_fields (name : string) (variableMap : gmap string JSON)
    (v : ShaderVariable) : Prop :=
  variableMap !! "active" = Some (JBool (Active v))
  /\ variableMap !! "is_row_major" = Some (JBool (IsRowMajor v))
  /\ variableMap !! "mapped_name" = Some (JString (MappedName v))
  /\ variableMap !! "name" = Some (JString (Name v))
  /\ (exists f, variableMap !! "precision_enum" = Some (JNumber f)
               /\ Precision v = uint_of_float64 f)
  /\ variableMap !! "static_use" = Some (JBool (StaticUse v))
  /\ (exists f, variableMap !! "type_enum" = Some (JNumber f)
               /\ Type' v = uint_of_float64 f)
  /\ Category v = name.

(** *** Sequences of calls on one translator *)

Inductive Op : Type :=
| OpClose
| OpTranslate (shaderCode shaderType : string) (spec : ShaderSpec)
    (output : OutputFormat).

Inductive Reply : Type :=
| ReplyClose (err : option string)
| ReplyTranslate (r : outcome Shader).

Definition step (op : Op) (st : ShaderTranslator Guest)
  : Reply * ShaderTranslator Guest :=
  match op with
  | OpClose => (ReplyClose (Close st).1, (Close st).2)
  | OpTranslate shaderCode shaderType spec output =>
      (ReplyTranslate (TranslateShader st shaderCode shaderType spec output).1,
       (TranslateShader st shaderCode shaderType spec output).2)
  end.

Fixpoint run (ops : list Op) (st : ShaderTranslator Guest)
  : list Reply * ShaderTranslator Guest :=
  match ops with
  | [] => ([], st)
  | op :: rest =>
      let r := step op st in
      let rs := run rest r.2 in
      (r.1 :: rs.1, rs.2)
  end.

(** What every call answers on a closed translator. *)
Definition closedReply (op : Op) : Reply :=
  match op with
  | OpClose => ReplyClose None
  | OpTranslate _ _ _ _ => ReplyTranslate (Err "translator has been closed")
  end.

(** The statement that a second [Close] does nothing: it returns nil and
    leaves the translator, the guest and the history as the first left
    them. *)
Definition second_Close_is_noop (st : ShaderTranslator Guest) : Prop :=
  Close (Close st).2 = (None, (Close st).2).

(** The guest answered a translate call: the request was written at
    [requestPtr], [invoke] returned a non-null pointer and a terminated
    string [responseBytes] was read there, in state [st2]. *)
Definition guest_replied (st : ShaderTranslator Guest)
    (shaderCode shaderType : string) (spec : ShaderSpec) (output : OutputFormat)
    (requestPtr : Z) (st2 : ShaderTranslator Guest)
    (responseBytes : list Byte.byte) : Prop :=
  closed st = false /\
  exists st1 responsePtr rest,
    writeStringToMemory
      (Marshal_JSONRPCRequest (newRequest shaderCode shaderType spec output)) st
      = (Ok requestPtr, st1) /\
    callExport invoke [requestPtr] st1 = (Returned (responsePtr :: rest), st2) /\
    responsePtr <> 0 /\
    readStringFromMemory (uint32 responsePtr) st2 = Ok responseBytes.


(** ** Properties *)

(** Closes [None = None <-> D] where one disjunct of [D] is
    [None = None]. *)
Ltac pick_disjunct :=
  first [ reflexivity | left; reflexivity | right; pick_disjunct ].
Ltac failed_assertion :=
  split; [intros _; pick_disjunct | intros _; reflexivity].

(** *** Calls into the runtime *)

Lemma callExport_closed f params st :
  closed (callExport f params st).2 = closed st.
Proof. reflexivity. Qed.

Lemma callExport_history f params st :
  history (callExport f params st).2 = history st ++ [EvCall f params].
Proof. reflexivity. Qed.

Lemma runtimeClose_closed st : closed (runtimeClose st).2 = closed st.
Proof. reflexivity. Qed.

Lemma runtimeClose_history st :
  history (runtimeClose st).2 = history st ++ [EvRuntimeClose].
Proof. reflexivity. Qed.

(** The state in which [Close] releases the runtime: after the finalizer
    has been called and, if it failed, the warning logged. *)
Lemma Close_open st :
  closed st = false ->
  exists log st1,
    closed st1 = false /\
    history st1 = history st ++ EvCall finalize [] :: log /\
    Close st =
      match (runtimeClose st1).1 with
      | Some err =>
          (Some ("failed to close wazero runtime: " +:+ err), (runtimeClose st1).2)
      | None => (None, setClosed true (runtimeClose st1).2)
      end.
Proof.
  intros Hopen. unfold Close. rewrite Hopen.
  destruct (callExport finalize [] st) as [r st0] eqn:Hfin.
  assert (Hst0 : st0 = (callExport finalize [] st).2) by (rewrite Hfin; reflexivity).
  destruct r as [results | err].
  - exists [], st0. subst st0. split; [assumption |]. split; [reflexivity |].
    destruct (runtimeClose _) as [[e |] st2]; reflexivity.
  - exists [EvLog ("warning: call to wasm finalizer failed: " +:+ err)],
      (record (EvLog ("warning: call to wasm finalizer failed: " +:+ err)) st0).
    subst st0. split; [assumption |]. split.
    + simpl. rewrite <- app_assoc. reflexivity.
    + destruct (runtimeClose _) as [[e |] st2]; reflexivity.
Qed.

Lemma Close_nil_closed st st' : Close st = (None, st') -> closed st' = true.
Proof.
  destruct (closed st) eqn:Hc.
  - unfold Close. rewrite Hc. intros [= <-]. assumption.
  - destruct (Close_open st Hc) as (log & st1 & _ & _ & ->).
    destruct (runtimeClose st1).1; intros [= <-]. reflexivity.
Qed.

Lemma Close_closed st : closed st = true -> Close st = (None, st).
Proof. intros Hc. unfold Close. rewrite Hc. reflexivity. Qed.

Lemma TranslateShader_closed st shaderCode shaderType spec output :
  closed st = true ->
  TranslateShader st shaderCode shaderType spec output
  = (Err "translator has been closed", st).
Proof. intros Hc. unfold TranslateShader. rewrite Hc. reflexivity. Qed.

Lemma step_closed op st : closed st = true -> step op st = (closedReply op, st).
Proof.
  intros Hc. destruct op; simpl.
  - rewrite (Close_closed st Hc). reflexivity.
  - rewrite (TranslateShader_closed st _ _ _ _ Hc). reflexivity.
Qed.

Lemma run_closed ops st :
  closed st = true -> run ops st = (closedReply <$> ops, st).
Proof.
  intros Hc. induction ops as [| op ops IH]; simpl; [reflexivity |].
  rewrite (step_closed op st Hc). simpl. rewrite IH. reflexivity.
Qed.

(** C2. Once [Close] has returned nil on a translator, whatever calls
    follow, every [TranslateShader] among them returns the error
    "translator has been closed" (an error value, not a panic), and the
    translator is left exactly as [Close] left it: same memory, same guest
    state, and a history with no further call into the runtime. *)
Theorem translate_after_close_is_refused st st' ops :
  Close st = (None, st') ->
  run ops st' = (closedReply <$> ops, st').
Proof. intros H. apply run_closed. exact (Close_nil_closed st st' H). Qed.

(** C3, amended. Once [Close] has returned nil on a translator, a second
    [Close] returns nil and changes nothing: the finalizer is not called
    and the runtime is not released again. *)
Theorem close_twice_after_success st :
  (Close st).1 = None -> second_Close_is_noop st.
Proof.
  intros H. unfold second_Close_is_noop. apply Close_closed.
  apply (Close_nil_closed st). destruct (Close st); simpl in *; congruence.
Qed.

(** *** The calls a translation makes *)

Lemma deferFree_outcome {A : Type} requestPtr (body : outcome A * ShaderTranslator Guest) :
  (deferFree requestPtr body).1 = body.1.
Proof. reflexivity. Qed.

Lemma deferFree_history {A : Type} requestPtr (body : outcome A * ShaderTranslator Guest) :
  history (deferFree requestPtr body).2
  = history body.2 ++ [EvCall free [requestPtr]].
Proof. reflexivity. Qed.

Lemma writeStringToMemory_history data st :
  history (writeStringToMemory data st).2
  = history st ++ [EvCall malloc [uint64 (uint64 (Z.of_nat (length data)) + 1)]].
Proof.
  unfold writeStringToMemory.
  destruct (callExport malloc _ st) as [r st1] eqn:Hm.
  assert (Hh : history st1 = history (callExport malloc
             [uint64 (uint64 (Z.of_nat (length data)) + 1)] st).2)
    by (rewrite Hm; reflexivity).
  rewrite callExport_history in Hh.
  destruct r as [[| ptr results] | err]; simpl; try assumption.
  destruct (ptr =? 0); simpl; try assumption.
  destruct (Memory.Write _ _ _) as [m1 |]; simpl; try assumption.
  destruct (Memory.WriteByte _ _ _) as [m2 |]; simpl; assumption.
Qed.

Lemma writeStringToMemory_closed data st :
  closed (writeStringToMemory data st).2 = closed st.
Proof.
  unfold writeStringToMemory.
  destruct (callExport malloc _ st) as [r st1] eqn:Hm.
  assert (Hh : closed st1 = closed (callExport malloc
             [uint64 (uint64 (Z.of_nat (length data)) + 1)] st).2)
    by (rewrite Hm; reflexivity).
  rewrite callExport_closed in Hh.
  destruct r as [[| ptr results] | err]; simpl; try assumption.
  destruct (ptr =? 0); simpl; try assumption.
  destruct (Memory.Write _ _ _) as [m1 |]; simpl; try assumption.
  destruct (Memory.WriteByte _ _ _) as [m2 |]; simpl; assumption.
Qed.

(** The calls made by one [TranslateShader] on an open translator: the
    allocation, and, when the request could be written, [invoke] and one
    [free], both on the request pointer. *)
Lemma TranslateShader_history st shaderCode shaderType spec output :
  closed st = false ->
  let requestBytes :=
    Marshal_JSONRPCRequest (newRequest shaderCode shaderType spec output) in
  let size := uint64 (uint64 (Z.of_nat (length requestBytes)) + 1) in
  history (TranslateShader st shaderCode shaderType spec output).2
  = history st ++ EvCall malloc [size] ::
      match (writeStringToMemory requestBytes st).1 with
      | Ok requestPtr => [EvCall invoke [requestPtr]; EvCall free [requestPtr]]
      | _ => []
      end.
Proof.
  intros Hopen requestBytes size. unfold TranslateShader. rewrite Hopen.
  fold requestBytes.
  pose proof (writeStringToMemory_history requestBytes st) as Hw.
  fold size in Hw.
  destruct (writeStringToMemory requestBytes st) as [[requestPtr | e |] st1];
    cbn [fst snd] in *; try exact Hw.
  rewrite deferFree_history.
  assert (Hbody : forall o : outcome Shader,
    history (o, (callExport invoke [requestPtr] st1).2).2 ++ [EvCall free [requestPtr]]
    = history st ++ [EvCall malloc [size]; EvCall invoke [requestPtr];
                     EvCall free [requestPtr]]).
  { intros o. cbn [snd]. rewrite callExport_history, Hw, <- !app_assoc.
    reflexivity. }
  destruct (callExport invoke [requestPtr] st1) as [r st2].
  destruct r as [[| responsePtr results] | err]; try apply Hbody.
  destruct (responsePtr =? 0); try apply Hbody.
  destruct (readStringFromMemory _ st2); apply Hbody.
Qed.

(** *** The errors of a translation *)

Lemma has_newline_append a b : has_newline (a +:+ String "010"%char b) = true.
Proof.
  induction a as [| c a IH]; simpl; [reflexivity |].
  rewrite IH. apply orb_true_r.
Qed.

Lemma rangeVarData_not_Err name varData variables e :
  rangeVarData name varData variables <> Err e.
Proof.
  revert variables. induction varData as [| data rest IH]; intros variables.
  - discriminate.
  - simpl. destruct data; try apply IH.
    destruct (shaderVariable name m); [apply IH | discriminate].
Qed.

Lemma rangeActiveVariables_not_Err entries variables e :
  rangeActiveVariables entries variables <> Err e.
Proof.
  revert variables.
  induction entries as [| [name varData] rest IH]; intros variables.
  - discriminate.
  - simpl. destruct varData; try discriminate.
    destruct (rangeVarData name l variables) as [v | e' |] eqn:Hv.
    + apply IH.
    + exfalso. exact (rangeVarData_not_Err _ _ _ _ Hv).
    + discriminate.
Qed.

(** [newShader] has no error result: it returns a [Shader] or panics. *)
Lemma newShader_not_Err response e : newShader response <> Err e.
Proof.
  unfold newShader.
  destruct (rangeActiveVariables _ _) as [v | e' |] eqn:Hv.
  - destruct (asString _); discriminate.
  - exfalso. exact (rangeActiveVariables_not_Err _ _ _ Hv).
  - discriminate.
Qed.

Lemma parseResponse_not_closed responseBytes :
  parseResponse responseBytes <> Err "translator has been closed".
Proof.
  unfold parseResponse.
  destruct (json_Unmarshal responseBytes) as [err | responseMap].
  - discriminate.
  - destruct (asMap (responseMap !! "error")) as [serr |].
    + intros [= H]. apply (f_equal has_newline) in H.
      rewrite has_newline_append in H. discriminate H.
    + apply newShader_not_Err.
Qed.

Lemma TranslateShader_open_not_refused st shaderCode shaderType spec output :
  closed st = false ->
  (TranslateShader st shaderCode shaderType spec output).1
  <> Err "translator has been closed".
Proof.
  intros Hopen. unfold TranslateShader. rewrite Hopen.
  destruct (writeStringToMemory _ st) as [[requestPtr | e |] st1] eqn:Hw;
    cbn [fst]; try discriminate.
  - rewrite deferFree_outcome.
    destruct (callExport invoke [requestPtr] st1) as [[[| responsePtr results] | err] st2];
      cbn [fst]; try discriminate.
    destruct (responsePtr =? 0); cbn [fst]; try discriminate.
    unfold readStringFromMemory.
    destruct (Memory.Read _ _ _); cbn [fst]; try discriminate.
    destruct (_ =? -1); cbn [fst]; try discriminate.
    apply parseResponse_not_closed.
  - revert Hw. unfold writeStringToMemory.
    destruct (callExport malloc _ st) as [[[| ptr results] | err] st0];
      try discriminate.
    + destruct (ptr =? 0); [intros [= <- _]; discriminate |].
      destruct (Memory.Write _ _ _); [| intros [= <- _]; discriminate].
      destruct (Memory.WriteByte _ _ _); [discriminate |].
      intros [= <- _]; discriminate.
    + intros [= <- _]; discriminate.
Qed.

(** C9. When [Close] returns an error (the runtime could not be released),
    the translator stays open: a following [TranslateShader] is not
    refused with "translator has been closed" but starts by asking the
    guest for memory; a following [Close] calls the finalizer and the
    runtime's close once more; and that [Close] marks the translator
    closed exactly when it returns nil, every error it returns being the
    runtime's failure to close. *)
Theorem failed_close_leaves_translator_open st e st1 :
  Close st = (Some e, st1) ->
  closed st1 = false
  /\ (forall shaderCode shaderType spec output,
        (TranslateShader st1 shaderCode shaderType spec output).1
          <> Err "translator has been closed"
        /\ exists size rest,
             history (TranslateShader st1 shaderCode shaderType spec output).2
             = history st1 ++ EvCall malloc [size] :: rest)
  /\ (exists log,
        history (Close st1).2
        = history st1 ++ EvCall finalize [] :: log ++ [EvRuntimeClose])
  /\ (closed (Close st1).2 = true <-> (Close st1).1 = None)
  /\ (forall e', (Close st1).1 = Some e' ->
        exists err, e' = "failed to close wazero runtime: " +:+ err).
Proof.
  intros HClose.
  assert (Hopen : closed st = false).
  { destruct (closed st) eqn:Hc; [| reflexivity].
    rewrite (Close_closed st Hc) in HClose. discriminate. }
  assert (Hopen1 : closed st1 = false).
  { destruct (Close_open st Hopen) as (log & st0 & Hc0 & _ & HC).
    rewrite HC in HClose.
    destruct (runtimeClose st0).1 eqn:Hr; [| discriminate].
    injection HClose as _ <-. exact Hc0. }
  split; [exact Hopen1 |]. split.
  { intros shaderCode shaderType spec output. split.
    - apply TranslateShader_open_not_refused. exact Hopen1.
    - rewrite (TranslateShader_history st1 _ _ _ _ Hopen1). eauto. }
  destruct (Close_open st1 Hopen1) as (log & st2 & Hc2 & Hh2 & HC).
  rewrite HC. split; [| split].
  - exists log.
    destruct (runtimeClose st2).1; simpl; rewrite Hh2, <- app_assoc; reflexivity.
  - destruct (runtimeClose st2).1; simpl.
    + rewrite Hc2. split; discriminate.
    + split; reflexivity.
  - intros e'. destruct (runtimeClose st2).1; simpl; [| discriminate].
    intros [= <-]. eauto.
Qed.

(** *** The request on the wire *)

Lemma compile_options_text :
  GoJSON.appendMapBool {[ "objectCode" := true ]}
  = spec_render (DObject [ ("objectCode", DBool true) ]).
Proof. vm_compute. reflexivity. Qed.

(** The bytes [json.Marshal] produces for the request struct are the text
    of the envelope. *)
Lemma Marshal_request_is_envelope shaderCode shaderType spec output :
  Marshal_JSONRPCRequest (newRequest shaderCode shaderType spec output)
  = spec_render (spec_envelope shaderCode shaderType spec output).
Proof.
  unfold Marshal_JSONRPCRequest, Marshal_TranslateRequestParams, newRequest,
    spec_envelope, spec_envelope_of.
  cbn [JsonRPC ID Method Params ShaderCodeBase64 ShaderType Spec Output
       PrintActiveVariables CompileOptions].
  rewrite compile_options_text.
  unfold GoJSON.object, GoJSON.member.
  cbn [GoJSON.members spec_render].
  rewrite <- !app_assoc. reflexivity.
Qed.

(** *** Linear memory *)

Lemma uint32_small z : 0 <= z < 2 ^ 32 -> uint32 z = z.
Proof. intros H. unfold uint32. apply Z.mod_small. exact H. Qed.

Lemma uint64_small z : 0 <= z < 2 ^ 64 -> uint64 z = z.
Proof. intros H. unfold uint64. apply Z.mod_small. exact H. Qed.

Lemma Write_Some m offset v m' :
  0 <= offset ->
  Memory.Write m offset v = Some m' ->
  offset + Z.of_nat (length v) <= Z.of_nat (length m)
  /\ m' = take (Z.to_nat offset) m ++ v ++ drop (Z.to_nat offset + length v) m
  /\ length m' = length m.
Proof.
  intros Hoff. unfold Memory.Write, Memory.hasSize.
  destruct (Z.leb_spec (offset + Z.of_nat (length v)) (Z.of_nat (length m)));
    [| discriminate].
  intros [= <-]. split; [assumption |]. split; [reflexivity |].
  rewrite !length_app, length_take, length_drop. lia.
Qed.

(** Writing [data] and then a zero byte just after it is one write of
    [data ++ [0]]. *)
Lemma Write_then_WriteByte m offset data m1 m2 :
  0 <= offset ->
  Memory.Write m offset data = Some m1 ->
  Memory.WriteByte m1 (offset + Z.of_nat (length data)) Byte.x00 = Some m2 ->
  Memory.Write m offset (data ++ [Byte.x00]) = Some m2.
Proof.
  intros Hoff Hw Hb.
  destruct (Write_Some _ _ _ _ Hoff Hw) as (Hin & -> & Hlen).
  revert Hb. unfold Memory.WriteByte, Memory.Write, Memory.hasSize.
  rewrite Hlen, length_app. cbn [length].
  destruct (Z.leb_spec (offset + Z.of_nat (length data) + 1) (Z.of_nat (length m)));
    [| discriminate].
  intros [= <-].
  destruct (Z.leb_spec (offset + Z.of_nat (length data + 1)) (Z.of_nat (length m)));
    [| lia].
  f_equal.
  assert (Hd : exists x, drop (Z.to_nat offset + length data) m
                         = x :: drop (Z.to_nat offset + (length data + 1)) m).
  { destruct (lookup_lt_is_Some_2 m (Z.to_nat offset + length data)) as [x Hx];
      [lia |].
    exists x. rewrite (drop_S _ _ _ Hx). f_equal. f_equal. lia. }
  destruct Hd as [x ->].
  replace (Z.to_nat (offset + Z.of_nat (length data)))
    with (length (take (Z.to_nat offset) m) + (length data + 0))%nat
    by (rewrite length_take; lia).
  rewrite insert_app_r, insert_app_r. cbn [insert list_insert].
  rewrite <- app_assoc. reflexivity.
Qed.

(** What a successful write leaves in memory: the bytes written, and
    everything before and after them as it was. *)
Lemma Write_contents m offset v m' :
  0 <= offset ->
  Memory.Write m offset v = Some m' ->
  take (length v) (drop (Z.to_nat offset) m') = v
  /\ take (Z.to_nat offset) m' = take (Z.to_nat offset) m
  /\ drop (Z.to_nat offset + length v) m' = drop (Z.to_nat offset + length v) m
  /\ length m' = length m.
Proof.
  intros Hoff Hw.
  destruct (Write_Some _ _ _ _ Hoff Hw) as (Hin & -> & Hlen).
  assert (Ht : length (take (Z.to_nat offset) m) = Z.to_nat offset)
    by (rewrite length_take; lia).
  repeat split.
  - rewrite drop_app_length'; [| symmetry; exact Ht]. apply take_app_length.
  - rewrite take_app_length'; [reflexivity | symmetry; exact Ht].
  - rewrite app_assoc. apply drop_app_length'. rewrite length_app. lia.
  - exact Hlen.
Qed.

(** *** writeStringToMemory *)

Lemma writeStringToMemory_Ok data st ptr st1 :
  writeStringToMemory data st = (Ok ptr, st1) ->
  let byteCount := uint64 (Z.of_nat (length data)) in
  let allocation := callExport malloc [uint64 (byteCount + 1)] st in
  exists results m1 m2,
    allocation.1 = Returned (ptr :: results)
    /\ ptr <> 0
    /\ Memory.Write (memory allocation.2) (uint32 ptr) data = Some m1
    /\ Memory.WriteByte m1 (uint32 (uint64 (ptr + byteCount))) Byte.x00 = Some m2
    /\ st1 = setMemory m2 allocation.2.
Proof.
  intros H byteCount allocation. revert H. unfold writeStringToMemory.
  fold byteCount. fold allocation.
  destruct allocation as [[[| p results] | err] st0]; try discriminate.
  destruct (Z.eqb_spec p 0) as [| Hp]; [discriminate |].
  cbn [fst snd].
  destruct (Memory.Write (memory st0) (uint32 p) data) as [m1 |] eqn:Hw1;
    [| discriminate].
  destruct (Memory.WriteByte m1 _ _) as [m2 |] eqn:Hw2; [| discriminate].
  intros [= <- <-]. exists results, m1, m2. repeat split; assumption.
Qed.

(** *** readStringFromMemory *)

Lemma nullTerminatorIndex_none memBuffer i :
  Byte.x00 ∉ memBuffer -> nullTerminatorIndex memBuffer i = -1.
Proof.
  revert i. induction memBuffer as [| b rest IH]; intros i Hno; [reflexivity |].
  cbn [nullTerminatorIndex].
  destruct (Byte.eqb b Byte.x00) eqn:Hb.
  - apply Byte.byte_dec_bl in Hb. subst b. exfalso. apply Hno. left.
  - apply IH. intros Hin. apply Hno. right. exact Hin.
Qed.

Lemma nullTerminatorIndex_first bytes rest i :
  Byte.x00 ∉ bytes ->
  nullTerminatorIndex (bytes ++ Byte.x00 :: rest) i = i + Z.of_nat (length bytes).
Proof.
  revert i. induction bytes as [| b bytes IH]; intros i Hno.
  - cbn. lia.
  - cbn [app nullTerminatorIndex length].
    destruct (Byte.eqb b Byte.x00) eqn:Hb.
    + apply Byte.byte_dec_bl in Hb. subst b. exfalso. apply Hno. left.
    + rewrite IH; [lia |]. intros Hin. apply Hno. right. exact Hin.
Qed.

(** The read of [readStringFromMemory] covers memory from [ptr] to its
    end, and fails for a [ptr] beyond the end. *)
Lemma Read_to_end mem ptr :
  0 < ptr < 2 ^ 32 ->
  Z.of_nat (length mem) <= 2 ^ 32 ->
  Memory.Read mem ptr (uint32 (Memory.Size mem - ptr))
  = if ptr <=? Z.of_nat (length mem) then Some (drop (Z.to_nat ptr) mem) else None.
Proof.
  intros Hptr Hlen. unfold Memory.Read, Memory.hasSize, Memory.Size, uint32.
  change (2 ^ 32) with 4294967296 in *.
  set (len := Z.of_nat (length mem)) in *.
  assert (Hcount : ((len mod 4294967296 - ptr) mod 4294967296
                    = if ptr <=? len then len - ptr else len - ptr + 4294967296)).
  { destruct (Z.leb_spec ptr len); Z.div_mod_to_equations; lia. }
  rewrite Hcount.
  destruct (Z.leb_spec ptr len) as [Hle | Hgt].
  - destruct (Z.leb_spec (ptr + (len - ptr)) len); [| lia].
    f_equal. apply take_ge. rewrite length_drop. unfold len. lia.
  - destruct (Z.leb_spec (ptr + (len - ptr + 4294967296)) len); [lia | reflexivity].
Qed.

Lemma readStringFromMemory_terminated ptr st responseBytes rest :
  0 < ptr < 2 ^ 32 ->
  Z.of_nat (length (memory st)) <= 2 ^ 32 ->
  drop (Z.to_nat ptr) (memory st) = responseBytes ++ Byte.x00 :: rest ->
  Byte.x00 ∉ responseBytes ->
  readStringFromMemory ptr st = Ok responseBytes.
Proof.
  intros Hptr Hlen Hregion Hno. unfold readStringFromMemory.
  rewrite (Read_to_end _ _ Hptr Hlen).
  destruct (Z.leb_spec ptr (Z.of_nat (length (memory st)))) as [Hle | Hgt].
  - rewrite Hregion, (nullTerminatorIndex_first _ _ 0 Hno).
    destruct (Z.eqb_spec (0 + Z.of_nat (length responseBytes)) (-1)); [lia |].
    f_equal. replace (Z.to_nat (0 + Z.of_nat (length responseBytes)))
      with (length responseBytes) by lia.
    apply take_app_length.
  - rewrite drop_ge in Hregion by lia. destruct responseBytes; discriminate.
Qed.

Lemma readStringFromMemory_unterminated ptr st :
  0 < ptr < 2 ^ 32 ->
  Z.of_nat (length (memory st)) <= 2 ^ 32 ->
  Byte.x00 ∉ drop (Z.to_nat ptr) (memory st) ->
  readStringFromMemory ptr st = Err "failed to read from wasm memory"
  \/ readStringFromMemory ptr st = Err "string from wasm is not null-terminated".
Proof.
  intros Hptr Hlen Hno. unfold readStringFromMemory.
  rewrite (Read_to_end _ _ Hptr Hlen).
  destruct (ptr <=? Z.of_nat (length (memory st))); [| left; reflexivity].
  rewrite (nullTerminatorIndex_none _ 0 Hno). right. reflexivity.
Qed.

(** [TranslateShader] once [invoke] has returned a non-null pointer. *)
Lemma TranslateShader_after_invoke
    st shaderCode shaderType spec output requestPtr st1 responsePtr results st2 :
  closed st = false ->
  writeStringToMemory
    (Marshal_JSONRPCRequest (newRequest shaderCode shaderType spec output)) st
    = (Ok requestPtr, st1) ->
  callExport invoke [requestPtr] st1 = (Returned (responsePtr :: results), st2) ->
  responsePtr <> 0 ->
  TranslateShader st shaderCode shaderType spec output
  = (match readStringFromMemory (uint32 responsePtr) st2 with
     | Ok responseBytes => parseResponse responseBytes
     | Err e => Err e
     | Panic => Panic
     end, (callExport free [requestPtr] st2).2).
Proof.
  intros Hopen Hw Hi Hnz. unfold TranslateShader. rewrite Hopen, Hw, Hi.
  destruct (Z.eqb_spec responsePtr 0) as [| _]; [contradiction |].
  unfold deferFree.
  destruct (readStringFromMemory (uint32 responsePtr) st2); reflexivity.
Qed.

(** C5. When [invoke] returns a non-null offset, the response handed to
    the decoder is the bytes of guest memory from that offset up to, and
    not including, the first zero byte at or after it; when memory has no
    zero byte from that offset to its end, [TranslateShader] returns an
    error and no response is decoded. Offsets and the size of memory are
    those of a 32-bit guest. *)
Theorem response_is_memory_up_to_first_zero
    st shaderCode shaderType spec output requestPtr st1 responsePtr results st2 :
  closed st = false ->
  writeStringToMemory
    (Marshal_JSONRPCRequest (newRequest shaderCode shaderType spec output)) st
    = (Ok requestPtr, st1) ->
  callExport invoke [requestPtr] st1 = (Returned (responsePtr :: results), st2) ->
  0 < responsePtr < 2 ^ 32 ->
  Z.of_nat (length (memory st2)) <= 2 ^ 32 ->
  let region := drop (Z.to_nat responsePtr) (memory st2) in
  (forall responseBytes rest,
      region = responseBytes ++ Byte.x00 :: rest ->
      Byte.x00 ∉ responseBytes ->
      readStringFromMemory (uint32 responsePtr) st2 = Ok responseBytes
      /\ (TranslateShader st shaderCode shaderType spec output).1
         = parseResponse responseBytes)
  /\ (Byte.x00 ∉ region ->
      (TranslateShader st shaderCode shaderType spec output).1
        = Err "failed to read from wasm memory"
      \/ (TranslateShader st shaderCode shaderType spec output).1
        = Err "string from wasm is not null-terminated").
Proof.
  intros Hopen Hw Hi Hptr Hlen region.
  assert (Hnz : responsePtr <> 0) by lia.
  rewrite (TranslateShader_after_invoke _ _ _ _ _ _ _ _ _ _ Hopen Hw Hi Hnz).
  rewrite (uint32_small responsePtr) by lia. cbn [fst].
  split.
  - intros responseBytes rest Hregion Hno.
    rewrite (readStringFromMemory_terminated _ _ _ _ Hptr Hlen Hregion Hno).
    split; reflexivity.
  - intros Hno.
    destruct (readStringFromMemory_unterminated _ _ Hptr Hlen Hno) as [-> | ->];
      [left | right]; reflexivity.
Qed.

(** *** The response *)

Lemma TranslateShader_replied
    st shaderCode shaderType spec output requestPtr st2 responseBytes :
  guest_replied st shaderCode shaderType spec output requestPtr st2 responseBytes ->
  TranslateShader st shaderCode shaderType spec output
  = (parseResponse responseBytes, (callExport free [requestPtr] st2).2).
Proof.
  intros (Hopen & st1 & responsePtr & results & Hw & Hi & Hnz & Hr).
  rewrite (TranslateShader_after_invoke _ _ _ _ _ _ _ _ _ _ Hopen Hw Hi Hnz), Hr.
  reflexivity.
Qed.

(** C6. When the decoded response has an object under "error",
    [TranslateShader] returns one error and no [Shader]; the text of the
    error is the guest's message, a line feed and the guest's info log.
    The message is the string under "message" and the log the string
    under "info_log" of the object under "data"; a part that is absent
    is the empty string. *)
Theorem error_object_is_returned_as_one_error
    st shaderCode shaderType spec output requestPtr st2 responseBytes
    responseMap serr :
  guest_replied st shaderCode shaderType spec output requestPtr st2 responseBytes ->
  json_Unmarshal responseBytes = DecodedMap responseMap ->
  responseMap !! "error" = Some (JObject serr) ->
  exists errorMessage log,
    (TranslateShader st shaderCode shaderType spec output).1
      = Err (errorMessage +:+ String "010"%char log)
    /\ (forall s, serr !! "message" = Some (JString s) -> errorMessage = s)
    /\ (asString (serr !! "message") = None -> errorMessage = "")
    /\ (forall data s,
          serr !! "data" = Some (JObject data) ->
          data !! "info_log" = Some (JString s) -> log = s)
    /\ (asMap (serr !! "data") = None -> log = "")
    /\ (forall data,
          serr !! "data" = Some (JObject data) ->
          asString (data !! "info_log") = None -> log = "").
Proof.
  intros Hreply Hdecode Herror.
  rewrite (TranslateShader_replied _ _ _ _ _ _ _ _ Hreply). cbn [fst].
  unfold parseResponse. rewrite Hdecode, Herror. cbn [asMap].
  eexists _, _. split; [reflexivity |].
  repeat split.
  - intros s ->. reflexivity.
  - intros ->. reflexivity.
  - intros data s -> Hlog. simpl. rewrite Hlog. reflexivity.
  - intros ->. reflexivity.
  - intros data -> Hlog. simpl. rewrite Hlog. reflexivity.
Qed.

Lemma newShader_delete_error response :
  newShader (delete "error" response) = newShader response.
Proof.
  unfold newShader. rewrite lookup_delete_ne by discriminate. reflexivity.
Qed.

(** C10. When the decoded response has under "error" a value that is
    not an object, [TranslateShader] does not return the guest-error
    branch: its outcome is that of [newShader] on the response, the same
    as for the response without its "error" member, and it is never an
    error value. *)
Theorem non_object_error_is_ignored
    st shaderCode shaderType spec output requestPtr st2 responseBytes
    responseMap v :
  guest_replied st shaderCode shaderType spec output requestPtr st2 responseBytes ->
  json_Unmarshal responseBytes = DecodedMap responseMap ->
  responseMap !! "error" = Some v ->
  (forall serr, v <> JObject serr) ->
  (TranslateShader st shaderCode shaderType spec output).1 = newShader responseMap
  /\ newShader responseMap = newShader (delete "error" responseMap)
  /\ (forall e, (TranslateShader st shaderCode shaderType spec output).1 <> Err e).
Proof.
  intros Hreply Hdecode Herror Hshape.
  assert (Hresult :
    (TranslateShader st shaderCode shaderType spec output).1 = newShader responseMap).
  { rewrite (TranslateShader_replied _ _ _ _ _ _ _ _ Hreply). cbn [fst].
    unfold parseResponse. rewrite Hdecode, Herror.
    destruct v; try reflexivity. exfalso. exact (Hshape _ eq_refl). }
  split; [exact Hresult |]. split.
  - symmetry. apply newShader_delete_error.
  - intros e. rewrite Hresult. apply newShader_not_Err.
Qed.

(** *** newShader *)

Lemma asBool_Some x b : asBool x = Some b -> x = Some (JBool b).
Proof. destruct x as [[] |]; simpl; congruence. Qed.

Lemma asString_Some x v : asString x = Some v -> x = Some (JString v).
Proof. destruct x as [[] |]; simpl; congruence. Qed.

Lemma asFloat64_Some x f : asFloat64 x = Some f -> x = Some (JNumber f).
Proof. destruct x as [[] |]; simpl; congruence. Qed.

(** The struct literal succeeds exactly on the well-formed objects, and
    then every field is read from the object. *)
Lemma shaderVariable_Some name variableMap v :
  shaderVariable name variableMap = Some v -> reads_fields name variableMap v.
Proof.
  unfold shaderVariable, reads_fields.
  destruct (asBool (variableMap !! "active")) as [a |] eqn:H1; [| discriminate].
  destruct (asBool (variableMap !! "is_row_major")) as [r |] eqn:H2; [| discriminate].
  destruct (asString (variableMap !! "mapped_name")) as [mn |] eqn:H3; [| discriminate].
  destruct (asString (variableMap !! "name")) as [n |] eqn:H4; [| discriminate].
  destruct (asFloat64 (variableMap !! "precision_enum")) as [p |] eqn:H5; [| discriminate].
  destruct (asBool (variableMap !! "static_use")) as [u |] eqn:H6; [| discriminate].
  destruct (asFloat64 (variableMap !! "type_enum")) as [t |] eqn:H7; [| discriminate].
  cbn. intros [= <-]. cbn.
  apply asBool_Some in H1, H2, H6. apply asString_Some in H3, H4.
  apply asFloat64_Some in H5, H7.
  repeat split; try assumption; eexists; split; try eassumption; reflexivity.
Qed.

Lemma shaderVariable_None name variableMap :
  shaderVariable name variableMap = None <-> malformed_variable variableMap.
Proof.
  unfold shaderVariable, malformed_variable.
  destruct (asBool (variableMap !! "active")); cbn; [| failed_assertion].
  destruct (asBool (variableMap !! "is_row_major")); cbn; [| failed_assertion].
  destruct (asString (variableMap !! "mapped_name")); cbn; [| failed_assertion].
  destruct (asString (variableMap !! "name")); cbn; [| failed_assertion].
  destruct (asFloat64 (variableMap !! "precision_enum")); cbn; [| failed_assertion].
  destruct (asBool (variableMap !! "static_use")); cbn; [| failed_assertion].
  destruct (asFloat64 (variableMap !! "type_enum")); cbn; [| failed_assertion].
  split; [discriminate |]. intros H. repeat destruct H as [H | H]; discriminate.
Qed.

(** In range, [uint(f)] is the integer part of [f]. *)
Lemma uint_of_float64_in_range f z :
  float64_trunc f = Some z -> 0 <= z < 2 ^ 64 -> uint_of_float64 f = z.
Proof.
  intros Hf Hz. unfold uint_of_float64. rewrite Hf.
  destruct (Z.leb_spec 0 z); [| lia]. destruct (Z.ltb_spec z (2 ^ 64)); [| lia].
  reflexivity.
Qed.

Lemma objectsOf_elem name varData o :
  o ∈ objectsOf name varData <-> exists vm, o = (name, vm) /\ JObject vm ∈ varData.
Proof.
  induction varData as [| data rest IH]; cbn [objectsOf].
  - split; [intros H; inversion H | intros (vm & _ & H); inversion H].
  - assert (Hskip : (forall m, data <> JObject m) ->
      (o ∈ objectsOf name rest <->
       exists vm, o = (name, vm) /\ JObject vm ∈ data :: rest)).
    { intros Hd. rewrite IH. split; intros (vm & Ho & Hin); exists vm; split;
        try assumption.
      - right. exact Hin.
      - apply elem_of_cons in Hin as [Heq | Hin]; [| exact Hin].
        exfalso. exact (Hd vm (eq_sym Heq)). }
    destruct data; try (apply Hskip; discriminate).
    rewrite elem_of_cons, IH. split.
    + intros [-> | (vm & Ho & Hin)].
      * exists m. split; [reflexivity | left].
      * exists vm. split; [assumption | right; assumption].
    + intros (vm & Ho & Hin). apply elem_of_cons in Hin as [[= ->] | Hin].
      * left. assumption.
      * right. exists vm. split; assumption.
Qed.

Lemma visited_elem entries o :
  o ∈ visited entries ->
  exists varData vm, (o.1, JArray varData) ∈ entries /\ JObject vm ∈ varData
                     /\ o = (o.1, vm).
Proof.
  induction entries as [| [name data] rest IH]; cbn [visited].
  - intros H. inversion H.
  - assert (Hrest : o ∈ visited rest ->
      exists varData vm, (o.1, JArray varData) ∈ (name, data) :: rest
                         /\ JObject vm ∈ varData /\ o = (o.1, vm)).
    { intros H. destruct (IH H) as (varData & vm & Hin & Hvm & Ho).
      exists varData, vm. split; [right; exact Hin | split; assumption]. }
    destruct data; try exact Hrest.
    rewrite elem_of_app. intros [H | H]; [| exact (Hrest H)].
    apply objectsOf_elem in H as (vm & -> & Hvm).
    exists l, vm. split; [left | split; [exact Hvm | reflexivity]].
Qed.

(** The inner loop, when it completes, has inserted the variables of the
    objects of its category, in order; none of them was malformed. *)
Lemma rangeVarData_Ok name varData variables variables' :
  rangeVarData name varData variables = Ok variables' ->
  variables'
  = foldl (fun acc v => <[Name v := v]> acc) variables
      (omap (fun o : string * gmap string JSON => shaderVariable o.1 o.2)
         (objectsOf name varData))
  /\ Forall (fun o : string * gmap string JSON => is_Some (shaderVariable o.1 o.2))
       (objectsOf name varData).
Proof.
  revert variables.
  induction varData as [| data rest IH]; intros variables; cbn [rangeVarData objectsOf].
  - intros [= <-]. split; [reflexivity | constructor].
  - destruct data; try apply IH.
    destruct (shaderVariable name m) as [v |] eqn:Hv; [| discriminate].
    intros H. destruct (IH _ H) as [-> Hall]. split.
    + cbn [omap list_omap fst snd]. rewrite Hv. reflexivity.
    + constructor; [cbn; rewrite Hv; eauto | exact Hall].
Qed.

Lemma rangeActiveVariables_Ok entries variables variables' :
  rangeActiveVariables entries variables = Ok variables' ->
  variables'
  = foldl (fun acc v => <[Name v := v]> acc) variables (visitedVariables entries)
  /\ Forall (fun o : string * gmap string JSON => is_Some (shaderVariable o.1 o.2))
       (visited entries).
Proof.
  revert variables. unfold visitedVariables.
  induction entries as [| [name data] rest IH]; intros variables;
    cbn [rangeActiveVariables visited].
  - intros [= <-]. split; [reflexivity | constructor].
  - destruct data; try discriminate.
    destruct (rangeVarData name l variables) as [v | e |] eqn:Hv; try discriminate.
    intros H. destruct (rangeVarData_Ok _ _ _ _ Hv) as [-> Hall1].
    destruct (IH _ H) as [-> Hall2]. split.
    + rewrite omap_app, foldl_app. reflexivity.
    + apply Forall_app. split; assumption.
Qed.

(** Looking a name up after a sequence of insertions finds the last
    variable of the sequence that bears the name. *)
Lemma foldl_insert_lookup (l : list ShaderVariable)
    (variables : gmap string ShaderVariable) k :
  foldl (fun acc v => <[Name v := v]> acc) variables l !! k
  = match lastNamed k l with Some v => Some v | None => variables !! k end.
Proof.
  induction l as [| v l IH] using rev_ind.
  - reflexivity.
  - rewrite foldl_app. cbn [foldl]. unfold lastNamed in *. rewrite filter_app.
    destruct (decide (Name v = k)) as [Heq | Hne].
    + rewrite filter_cons_True by exact Heq. rewrite filter_nil, last_snoc.
      rewrite Heq. apply lookup_insert_eq.
    + rewrite filter_cons_False by exact Hne. rewrite filter_nil, app_nil_r.
      rewrite lookup_insert_ne by exact Hne. exact IH.
Qed.

Lemma lastNamed_Some k l v : lastNamed k l = Some v -> Name v = k /\ v ∈ l.
Proof.
  unfold lastNamed. intros H. apply last_Some_elem_of in H.
  apply list_elem_of_filter in H. exact H.
Qed.

(** A malformed object in a category stops the loops with a panic. *)
Lemma rangeVarData_malformed name varData variables vm :
  JObject vm ∈ varData -> shaderVariable name vm = None ->
  rangeVarData name varData variables = Panic.
Proof.
  intros Hin Hbad.
  destruct (rangeVarData name varData variables) as [v | e |] eqn:H.
  - exfalso. destruct (rangeVarData_Ok _ _ _ _ H) as [_ Hall].
    rewrite Forall_forall in Hall.
    assert (Ho : (name, vm) ∈ objectsOf name varData)
      by (apply objectsOf_elem; eauto).
    destruct (Hall _ Ho) as [x Hx]. cbn in Hx. congruence.
  - exfalso. exact (rangeVarData_not_Err _ _ _ _ H).
  - reflexivity.
Qed.

Lemma rangeActiveVariables_malformed entries variables name varData vm :
  (name, JArray varData) ∈ entries -> JObject vm ∈ varData ->
  shaderVariable name vm = None ->
  rangeActiveVariables entries variables = Panic.
Proof.
  intros Hentry Hin Hbad. revert variables.
  induction entries as [| [n data] rest IH]; intros variables.
  - inversion Hentry.
  - cbn [rangeActiveVariables]. destruct data; try reflexivity.
    apply elem_of_cons in Hentry as [[= <- <-] | Hentry].
    + rewrite (rangeVarData_malformed _ _ _ _ Hin Hbad). reflexivity.
    + destruct (rangeVarData n l variables) as [v | e |] eqn:H.
      * apply IH. exact Hentry.
      * exfalso. exact (rangeVarData_not_Err _ _ _ _ H).
      * reflexivity.
Qed.

Lemma newShader_Ok response sh :
  newShader response = Ok sh ->
  rangeActiveVariables (range_order (activeVariablesOf response)) ∅
  = Ok (Variables sh).
Proof.
  unfold newShader, activeVariablesOf.
  destruct (rangeActiveVariables _ _) as [v | e |]; try discriminate.
  destruct (asString _); [| discriminate]. intros [= <-]. reflexivity.
Qed.

Lemma parseResponse_Ok responseBytes responseMap sh :
  json_Unmarshal responseBytes = DecodedMap responseMap ->
  parseResponse responseBytes = Ok sh ->
  newShader responseMap = Ok sh.
Proof.
  unfold parseResponse. intros ->.
  destruct (asMap (responseMap !! "error")); [discriminate |].
  intros H. exact H.
Qed.

Lemma omap_Forall2 {A B : Type} (f : A -> option B) (l : list A) :
  Forall (fun x => is_Some (f x)) l ->
  Forall2 (fun x y => f x = Some y) l (omap f l).
Proof.
  induction 1 as [| x l [y Hy] _ IH]; cbn; [constructor |].
  rewrite Hy. constructor; assumption.
Qed.

(** C7. In the [Shader] a translation returns, the variable mapping is
    keyed by original name: the entry under a key bears that name, no key
    occurs twice, and the entry under a key is the last variable with
    that name among the variable objects of the response, taken in the
    order in which the categories, and the elements within each category,
    are visited. *)
Theorem variables_are_keyed_by_name_last_one_wins
    st shaderCode shaderType spec output requestPtr st2 responseBytes
    responseMap sh :
  guest_replied st shaderCode shaderType spec output requestPtr st2 responseBytes ->
  json_Unmarshal responseBytes = DecodedMap responseMap ->
  (TranslateShader st shaderCode shaderType spec output).1 = Ok sh ->
  let entries := range_order (activeVariablesOf responseMap) in
  Forall2 (fun (o : string * gmap string JSON) v => reads_fields o.1 o.2 v)
    (visited entries) (visitedVariables entries)
  /\ (forall k, Variables sh !! k = lastNamed k (visitedVariables entries))
  /\ (forall k v, Variables sh !! k = Some v -> Name v = k)
  /\ NoDup (map_to_list (Variables sh)).*1.
Proof.
  intros Hreply Hdecode Hok entries.
  rewrite (TranslateShader_replied _ _ _ _ _ _ _ _ Hreply) in Hok. cbn [fst] in Hok.
  apply (parseResponse_Ok _ _ _ Hdecode), newShader_Ok in Hok. fold entries in Hok.
  destruct (rangeActiveVariables_Ok _ _ _ Hok) as [Hvars Hall].
  assert (Hlookup : forall k, Variables sh !! k = lastNamed k (visitedVariables entries)).
  { intros k. rewrite Hvars, foldl_insert_lookup.
    destruct (lastNamed k _); [reflexivity | apply lookup_empty]. }
  split; [| split; [exact Hlookup | split]].
  - unfold visitedVariables.
    eapply Forall2_impl; [apply omap_Forall2; exact Hall |].
    intros o v Hv. apply shaderVariable_Some. exact Hv.
  - intros k v Hk. rewrite Hlookup in Hk. apply lastNamed_Some in Hk.
    exact (proj1 Hk).
  - apply NoDup_fst_map_to_list.
Qed.

Lemma range_order_elem (m : gmap string JSON) name data :
  (name, data) ∈ range_order m <-> m !! name = Some data.
Proof. rewrite range_order_perm. apply elem_of_map_to_list. Qed.

(** C1, amended. For a response without an error object: if one of the
    variable objects listed under a category of [active_variables] has a
    field that is missing or of another type than expected, the call
    neither returns a [Shader] nor an error: it panics, the deferred
    [free] of the request having run. When a [Shader] is returned, every
    entry of its variable mapping has all its fields read from one
    variable object of the response, under that object's category, so
    that no field is a default; and the two numeric codes, which are
    [float64] values in the response, are narrowed to their integer part
    whenever that lies in the range of [uint]. *)
Theorem malformed_variable_panics_no_default
    st shaderCode shaderType spec output requestPtr st2 responseBytes responseMap :
  guest_replied st shaderCode shaderType spec output requestPtr st2 responseBytes ->
  json_Unmarshal responseBytes = DecodedMap responseMap ->
  asMap (responseMap !! "error") = None ->
  (forall name varData variableMap,
      activeVariablesOf responseMap !! name = Some (JArray varData) ->
      JObject variableMap ∈ varData ->
      malformed_variable variableMap ->
      TranslateShader st shaderCode shaderType spec output
      = (Panic, (callExport free [requestPtr] st2).2))
  /\ (forall sh k v,
        (TranslateShader st shaderCode shaderType spec output).1 = Ok sh ->
        Variables sh !! k = Some v ->
        exists name varData variableMap,
          activeVariablesOf responseMap !! name = Some (JArray varData)
          /\ JObject variableMap ∈ varData
          /\ reads_fields name variableMap v)
  /\ (forall f z,
        float64_trunc f = Some z -> 0 <= z < 2 ^ 64 -> uint_of_float64 f = z).
Proof.
  intros Hreply Hdecode Hnoerr.
  rewrite (TranslateShader_replied _ _ _ _ _ _ _ _ Hreply). cbn [fst].
  split; [| split].
  - intros name varData variableMap Hcat Hin Hbad. f_equal.
    unfold parseResponse. rewrite Hdecode, Hnoerr. unfold newShader.
    fold (activeVariablesOf responseMap).
    apply range_order_elem in Hcat. apply shaderVariable_None with (name := name) in Hbad.
    rewrite (rangeActiveVariables_malformed _ _ _ _ _ Hcat Hin Hbad). reflexivity.
  - intros sh k v Hok Hk.
    apply (parseResponse_Ok _ _ _ Hdecode), newShader_Ok in Hok.
    destruct (rangeActiveVariables_Ok _ _ _ Hok) as [Hvars Hall].
    rewrite Hvars, foldl_insert_lookup in Hk.
    destruct (lastNamed k _) as [v' |] eqn:Hlast;
      [| rewrite lookup_empty in Hk; discriminate].
    injection Hk as ->. apply lastNamed_Some in Hlast as [_ Hv].
    unfold visitedVariables in Hv.
    apply list_elem_of_omap in Hv as (o & Ho & Hsv).
    apply visited_elem in Ho as (varData & vm & Hentry & Hvm & Heq).
    exists o.1, varData, vm. split; [| split].
    + apply range_order_elem. exact Hentry.
    + exact Hvm.
    + apply shaderVariable_Some. rewrite Heq in Hsv. exact Hsv.
  - apply uint_of_float64_in_range.
Qed.

(** ** Further properties *)

(** *** Setting the translator up *)

Lemma runtimeCloses_app l k :
  runtimeCloses (l ++ k) = (runtimeCloses l + runtimeCloses k)%nat.
Proof. unfold runtimeCloses. rewrite omap_app, length_app. reflexivity. Qed.

Lemma callsOf_app f l k : callsOf f (l ++ k) = callsOf f l ++ callsOf f k.
Proof. unfold callsOf. apply omap_app. Qed.

(** The finalizer's part of [Close] on an open translator: the call,
    and a warning in the log exactly when the call failed. *)
Lemma Close_open_log st :
  closed st = false ->
  exists log st1,
    (log = [] \/ exists msg, log = [EvLog msg])
    /\ history st1 = history st ++ EvCall finalize [] :: log
    /\ Close st =
      match (runtimeClose st1).1 with
      | Some err =>
          (Some ("failed to close wazero runtime: " +:+ err), (runtimeClose st1).2)
      | None => (None, setClosed true (runtimeClose st1).2)
      end.
Proof.
  intros Hopen. unfold Close. rewrite Hopen.
  destruct (callExport finalize [] st) as [r st0] eqn:Hfin.
  assert (Hst0 : st0 = (callExport finalize [] st).2) by (rewrite Hfin; reflexivity).
  destruct r as [results | err].
  - exists [], st0. subst st0. split; [left; reflexivity |].
    split; [reflexivity |].
    destruct (runtimeClose _) as [[e |] st2]; reflexivity.
  - exists [EvLog ("warning: call to wasm finalizer failed: " +:+ err)],
      (record (EvLog ("warning: call to wasm finalizer failed: " +:+ err)) st0).
    subst st0. split; [right; eauto |]. split.
    + simpl. rewrite <- app_assoc. reflexivity.
    + destruct (runtimeClose _) as [[e |] st2]; reflexivity.
Qed.

Lemma NewShaderTranslator_Ok_inv wasm st events :
  NewShaderTranslator wasm = (Ok st, events) ->
  closed st = false
  /\ history st = [EvCall initialize []]
  /\ events = history st
  /\ (forall f, ExportedFunction wasm f = true)
  /\ exists m g result0 results,
       InstantiateModule wasm = inr (m, g)
       /\ Call initialize [] (m, g) = (Returned (result0 :: results), (memory st, guest st))
       /\ result0 <> 0.
Proof.
  unfold NewShaderTranslator.
  destruct (wasi_instantiates wasm); cbn [negb]; [| discriminate].
  destruct (CompileModule wasm); [discriminate |].
  destruct (InstantiateModule wasm) as [err | [m g]]; [discriminate |].
  destruct (ExportedFunction wasm invoke) eqn:E1; cbn [negb orb]; [| discriminate].
  destruct (ExportedFunction wasm malloc) eqn:E2; cbn [negb orb]; [| discriminate].
  destruct (ExportedFunction wasm free) eqn:E3; cbn [negb orb]; [| discriminate].
  destruct (ExportedFunction wasm initialize) eqn:E4; cbn [negb orb]; [| discriminate].
  destruct (ExportedFunction wasm finalize) eqn:E5; cbn [negb orb]; [| discriminate].
  unfold callExport. cbn [memory guest closed history].
  destruct (Call initialize [] (m, g)) as [[[| result0 results] | err] [m' g']]
    eqn:Hcall; cbn [fst snd]; try discriminate.
  destruct (Z.eqb_spec result0 0) as [| Hnz]; [discriminate |].
  intros [= <- <-]. cbn [closed history memory guest].
  repeat split.
  - intros []; assumption.
  - exists m, g, result0, results. repeat split; [exact Hcall | exact Hnz].
Qed.

(** X1. A translator that [NewShaderTranslator] returns is open; the
    module exports all five functions; the one thing asked of the guest
    was [initialize], once, without arguments, and it returned a non-zero
    value; the runtime has not been closed; and memory and guest state
    are those the initializer left. *)
Theorem NewShaderTranslator_returns_initialized_open_translator wasm st events :
  NewShaderTranslator wasm = (Ok st, events) ->
  closed st = false
  /\ history st = [EvCall initialize []]
  /\ events = history st
  /\ (forall f, ExportedFunction wasm f = true)
  /\ exists m g result0 results,
       InstantiateModule wasm = inr (m, g)
       /\ Call initialize [] (m, g) = (Returned (result0 :: results), (memory st, guest st))
       /\ result0 <> 0.
Proof. apply NewShaderTranslator_Ok_inv. Qed.

(** X2. Whenever [NewShaderTranslator] returns an error, the runtime has
    been closed, exactly once and as the last thing done, and of the
    guest's functions at most [initialize] was called. *)
Theorem NewShaderTranslator_error_closes_runtime wasm e events :
  NewShaderTranslator wasm = (Err e, events) ->
  runtimeCloses events = 1%nat
  /\ last events = Some EvRuntimeClose
  /\ (events = [EvRuntimeClose]
      \/ events = [EvCall initialize []; EvRuntimeClose]).
Proof.
  unfold NewShaderTranslator.
  destruct (wasi_instantiates wasm); cbn [negb]; [| discriminate].
  destruct (CompileModule wasm); [intros [= <- <-]; auto |].
  destruct (InstantiateModule wasm) as [err | [m g]]; [intros [= <- <-]; auto |].
  destruct (_ || _); [intros [= <- <-]; auto |].
  unfold callExport. cbn [memory guest closed history].
  destruct (Call initialize [] (m, g)) as [[[| result0 results] | err] [m' g']];
    cbn [fst snd history]; try discriminate.
  - destruct (result0 =? 0); [| discriminate]. intros [= <- <-]. auto.
  - intros [= <- <-]. auto.
Qed.

(** X3. If the module lacks one of the five functions, creation fails
    with the export error, nothing of the guest is called (not even
    [initialize]) and the runtime is closed. *)
Theorem NewShaderTranslator_requires_every_export wasm m g f :
  wasi_instantiates wasm = true ->
  CompileModule wasm = None ->
  InstantiateModule wasm = inr (m, g) ->
  ExportedFunction wasm f = false ->
  NewShaderTranslator wasm
  = (Err "one or more required library functions not exported from wasm module",
     [EvRuntimeClose]).
Proof.
  intros Hwasi Hcompile Hinst Hf. unfold NewShaderTranslator.
  rewrite Hwasi, Hcompile, Hinst. cbn [negb].
  destruct f; rewrite Hf; cbn [negb orb]; rewrite ?orb_true_r; reflexivity.
Qed.

(** X4. A translator that was created and then closed without error has
    seen the guest's initializer once and its finalizer once, and the
    runtime closed once; it is marked closed. *)
Theorem create_then_close_initializes_and_finalizes_once wasm st events st' :
  NewShaderTranslator wasm = (Ok st, events) ->
  Close st = (None, st') ->
  callsOf initialize (history st') = [[]]
  /\ callsOf finalize (history st') = [[]]
  /\ callsOf invoke (history st') = []
  /\ runtimeCloses (history st') = 1%nat
  /\ closed st' = true.
Proof.
  intros Hnew HClose.
  destruct (NewShaderTranslator_Ok_inv _ _ _ Hnew) as (Hopen & Hhist & _).
  destruct (Close_open_log st Hopen) as (log & st1 & Hlog & Hh1 & HC).
  rewrite HC in HClose.
  destruct (runtimeClose st1).1 eqn:Hr; [discriminate |].
  assert (Hst' : st' = setClosed true (runtimeClose st1).2) by congruence.
  rewrite Hst'. clear Hst' HClose.
  assert (Hh : history (setClosed true (runtimeClose st1).2)
               = [EvCall initialize []; EvCall finalize []] ++ log ++ [EvRuntimeClose]).
  { change (history (setClosed true (runtimeClose st1).2))
      with (history (runtimeClose st1).2).
    rewrite runtimeClose_history, Hh1, Hhist, <- app_assoc. reflexivity. }
  rewrite Hh.
  destruct Hlog as [-> | [msg ->]]; repeat split.
Qed.

(** *** Closing and the closed flag *)

(** X5. A failure of the guest's finalizer does not make [Close] fail:
    it is logged, the runtime is still closed, and [Close] returns nil
    and marks the translator closed whenever the runtime closes; the
    only error [Close] returns is the runtime's. *)
Theorem Close_logs_finalizer_failure_and_proceeds st err :
  closed st = false ->
  (callExport finalize [] st).1 = Failed err ->
  exists st1,
    history st1
    = history st ++ [ EvCall finalize [];
                      EvLog ("warning: call to wasm finalizer failed: " +:+ err) ]
    /\ history (Close st).2 = history st1 ++ [EvRuntimeClose]
    /\ ((runtimeClose st1).1 = None ->
        (Close st).1 = None /\ closed (Close st).2 = true)
    /\ (forall e, (runtimeClose st1).1 = Some e ->
        (Close st).1 = Some ("failed to close wazero runtime: " +:+ e)
        /\ closed (Close st).2 = false).
Proof.
  intros Hopen Hfin. unfold Close. rewrite Hopen.
  destruct (callExport finalize [] st) as [r st0] eqn:Hcall.
  cbn [fst] in Hfin. subst r.
  assert (Hst0 : st0 = (callExport finalize [] st).2) by (rewrite Hcall; reflexivity).
  set (st1 := record (EvLog ("warning: call to wasm finalizer failed: " +:+ err)) st0).
  exists st1. split.
  { subst st1 st0. cbn [history record]. rewrite callExport_history, <- app_assoc.
    reflexivity. }
  assert (Hc1 : closed st1 = false) by (subst st1 st0; exact Hopen).
  destruct (runtimeClose st1) as [[e |] st2] eqn:Hr; cbn [fst snd].
  - assert (Hst2 : st2 = (runtimeClose st1).2) by (rewrite Hr; reflexivity).
    split; [subst st2; apply runtimeClose_history |].
    split; [discriminate |]. intros e' [= <-]. split; [reflexivity |].
    subst st2. rewrite runtimeClose_closed. exact Hc1.
  - assert (Hst2 : st2 = (runtimeClose st1).2) by (rewrite Hr; reflexivity).
    split; [subst st2; apply runtimeClose_history |].
    split; [intros _; split; reflexivity | discriminate].
Qed.

Lemma parse_keeps_state {A : Type} requestPtr (body : outcome A * ShaderTranslator Guest) :
  closed (deferFree requestPtr body).2 = closed body.2.
Proof. reflexivity. Qed.

Lemma TranslateShader_closed_flag st shaderCode shaderType spec output :
  closed (TranslateShader st shaderCode shaderType spec output).2 = closed st.
Proof.
  unfold TranslateShader. destruct (closed st) eqn:Hc; [exact Hc |].
  pose proof (writeStringToMemory_closed
    (Marshal_JSONRPCRequest (newRequest shaderCode shaderType spec output)) st) as Hw.
  destruct (writeStringToMemory _ st) as [[requestPtr | e |] st1];
    cbn [fst snd] in *; try congruence.
  rewrite parse_keeps_state.
  assert (Hbody : forall o : outcome Shader,
            closed (o, (callExport invoke [requestPtr] st1).2).2 = false).
  { intros o. cbn [snd]. rewrite callExport_closed. congruence. }
  destruct (callExport invoke [requestPtr] st1) as [r st2].
  destruct r as [[| responsePtr results] | err]; try apply Hbody.
  destruct (responsePtr =? 0); try apply Hbody.
  destruct (readStringFromMemory _ st2); apply Hbody.
Qed.

(** X6. [TranslateShader] never changes the closed flag: a translation,
    whatever its outcome, neither closes the translator nor reopens
    it. *)
Theorem TranslateShader_keeps_closed_flag st shaderCode shaderType spec output :
  closed (TranslateShader st shaderCode shaderType spec output).2 = closed st.
Proof. apply TranslateShader_closed_flag. Qed.

Lemma Close_closed_flag st :
  closed (Close st).2 = true <-> closed st = true \/ (Close st).1 = None.
Proof.
  destruct (closed st) eqn:Hc.
  - rewrite (Close_closed st Hc). cbn [fst snd]. split; auto.
  - destruct (Close_open st Hc) as (log & st1 & Hc1 & _ & ->).
    destruct (runtimeClose st1).1 eqn:Hr; cbn [fst snd].
    + rewrite runtimeClose_closed, Hc1. split; [discriminate |].
      intros [H | H]; discriminate.
    + split; auto.
Qed.

(** X7. Only a [Close] that returns nil closes a translator: if an open
    translator is closed after a sequence of calls, one of the calls was
    a [Close] that returned nil. *)
Theorem only_successful_Close_closes ops st :
  closed st = false ->
  closed (run ops st).2 = true ->
  ReplyClose None ∈ (run ops st).1.
Proof.
  revert st. induction ops as [| op ops IH]; intros st Hopen Hclosed.
  - cbn in Hclosed. congruence.
  - cbn [run fst snd] in *.
    destruct (closed (step op st).2) eqn:Hstep.
    + destruct op; cbn [step fst snd] in Hstep |- *.
      * apply Close_closed_flag in Hstep as [Hstep | Hstep]; [congruence |].
        rewrite Hstep. left.
      * rewrite TranslateShader_closed_flag in Hstep. congruence.
    + right. apply IH; assumption.
Qed.

(** *** The calls and the errors of a translation *)

(** X8. On an open translator a translation asks the guest for one
    allocation and then either stops there, or calls [invoke] once and
    [free] once, in that order and both on the non-null pointer the
    allocation returned; it makes no other call, and never calls [free]
    without having called [invoke]. *)
Theorem TranslateShader_calls_are_malloc_invoke_free
    st shaderCode shaderType spec output :
  closed st = false ->
  exists size tail,
    history (TranslateShader st shaderCode shaderType spec output).2
    = history st ++ EvCall malloc [size] :: tail
    /\ (tail = []
        \/ exists requestPtr results,
             (callExport malloc [size] st).1 = Returned (requestPtr :: results)
             /\ requestPtr <> 0
             /\ tail = [EvCall invoke [requestPtr]; EvCall free [requestPtr]]).
Proof.
  intros Hopen.
  pose proof (TranslateShader_history st shaderCode shaderType spec output Hopen)
    as Hhist. cbv zeta in Hhist.
  eexists _, _. split; [exact Hhist |].
  destruct (writeStringToMemory _ st) as [[requestPtr | e |] st1] eqn:Hw;
    cbn [fst]; try (left; reflexivity).
  right. apply writeStringToMemory_Ok in Hw. cbv zeta in Hw.
  destruct Hw as (results & m1 & m2 & Hres & Hnz & _).
  exists requestPtr, results. repeat split; assumption.
Qed.

Lemma nullTerminatorIndex_absent memBuffer i :
  0 <= i -> nullTerminatorIndex memBuffer i = -1 -> Byte.x00 ∉ memBuffer.
Proof.
  revert i. induction memBuffer as [| b rest IH]; intros i Hi; cbn [nullTerminatorIndex].
  - intros _ Hin. inversion Hin.
  - destruct (Byte.eqb b Byte.x00) eqn:Hb; [lia |].
    intros Hrest Hin. apply list_elem_of_In in Hin. destruct Hin as [-> | Hin].
    + vm_compute in Hb. discriminate Hb.
    + apply (IH (i + 1)); [lia | exact Hrest | apply list_elem_of_In; exact Hin].
Qed.

(** X9. Every error [TranslateShader] returns is one of eleven, each
    with its cause: the closed error, on a closed translator; the error
    of the allocation call, or the null allocation; the refused write of
    the request, or of its terminator; the error of the [invoke] call, or
    its null result; the refused read of the response, or a response with
    no zero byte up to the end of memory; the decoder's error on the bytes
    the guest replied with; and, when the decoded reply has an object
    under "error", that object's message, a line feed and its info log
    (each the empty string when it is absent). *)
Theorem TranslateShader_errors st shaderCode shaderType spec output e :
  let requestBytes :=
    Marshal_JSONRPCRequest (newRequest shaderCode shaderType spec output) in
  let byteCount := uint64 (Z.of_nat (length requestBytes)) in
  let allocation := callExport malloc [uint64 (byteCount + 1)] st in
  (TranslateShader st shaderCode shaderType spec output).1 = Err e ->
  (closed st = true /\ e = "translator has been closed")
  \/ (exists err,
        closed st = false
        /\ allocation.1 = Failed err
        /\ e = "wasm malloc call failed: " +:+ err)
  \/ (exists results,
        closed st = false
        /\ allocation.1 = Returned (0 :: results)
        /\ e = "wasm malloc failed to allocate memory")
  \/ (exists ptr results,
        closed st = false
        /\ allocation.1 = Returned (ptr :: results) /\ ptr <> 0
        /\ Memory.Write (memory allocation.2) (uint32 ptr) requestBytes = None
        /\ e = "failed to write to wasm memory")
  \/ (exists ptr results m1,
        closed st = false
        /\ allocation.1 = Returned (ptr :: results) /\ ptr <> 0
        /\ Memory.Write (memory allocation.2) (uint32 ptr) requestBytes = Some m1
        /\ Memory.WriteByte m1 (uint32 (uint64 (ptr + byteCount))) Byte.x00 = None
        /\ e = "failed to write null terminator to wasm memory")
  \/ (exists requestPtr st1 err,
        closed st = false
        /\ writeStringToMemory requestBytes st = (Ok requestPtr, st1)
        /\ (callExport invoke [requestPtr] st1).1 = Failed err
        /\ e = "wasm invoke call failed: " +:+ err)
  \/ (exists requestPtr st1 results,
        closed st = false
        /\ writeStringToMemory requestBytes st = (Ok requestPtr, st1)
        /\ (callExport invoke [requestPtr] st1).1 = Returned (0 :: results)
        /\ e = "wasm invoke function returned a null pointer")
  \/ (exists requestPtr st1 responsePtr results,
        let mem := memory (callExport invoke [requestPtr] st1).2 in
        closed st = false
        /\ writeStringToMemory requestBytes st = (Ok requestPtr, st1)
        /\ (callExport invoke [requestPtr] st1).1 = Returned (responsePtr :: results)
        /\ responsePtr <> 0
        /\ Memory.Read mem (uint32 responsePtr)
             (uint32 (Memory.Size mem - uint32 responsePtr)) = None
        /\ e = "failed to read from wasm memory")
  \/ (exists requestPtr st1 responsePtr results memBuffer,
        let mem := memory (callExport invoke [requestPtr] st1).2 in
        closed st = false
        /\ writeStringToMemory requestBytes st = (Ok requestPtr, st1)
        /\ (callExport invoke [requestPtr] st1).1 = Returned (responsePtr :: results)
        /\ responsePtr <> 0
        /\ Memory.Read mem (uint32 responsePtr)
             (uint32 (Memory.Size mem - uint32 responsePtr)) = Some memBuffer
        /\ (Byte.x00 ∉ memBuffer)
        /\ e = "string from wasm is not null-terminated")
  \/ (exists requestPtr st2 responseBytes err,
        guest_replied st shaderCode shaderType spec output requestPtr st2
          responseBytes
        /\ json_Unmarshal responseBytes = DecodeError err
        /\ e = "failed to unmarshal wasm response: " +:+ err)
  \/ (exists requestPtr st2 responseBytes responseMap serr,
        guest_replied st shaderCode shaderType spec output requestPtr st2
          responseBytes
        /\ json_Unmarshal responseBytes = DecodedMap responseMap
        /\ responseMap !! "error" = Some (JObject serr)
        /\ e = default "" (asString (serr !! "message"))
               +:+ String "010"%char
                     (default ""
                        (asString (default ∅ (asMap (serr !! "data")) !! "info_log")))).
Proof.
  intros requestBytes byteCount allocation.
  unfold TranslateShader. cbv zeta. fold requestBytes.
  destruct (closed st) eqn:Hopen; [intros [= <-]; left; split; reflexivity |].
  destruct (writeStringToMemory requestBytes st) as [[requestPtr | e' |] st1] eqn:Hw;
    cbn [fst]; try discriminate.
  - rewrite deferFree_outcome.
    destruct (callExport invoke [requestPtr] st1)
      as [[[| responsePtr results] | err] st2] eqn:Hi; cbn [fst snd];
      try discriminate.
    + destruct (Z.eqb_spec responsePtr 0) as [-> | Hnz]; cbn [fst].
      { intros [= <-]. do 6 right. left. exists requestPtr, st1, results.
        rewrite Hi. repeat split; reflexivity. }
      destruct (readStringFromMemory (uint32 responsePtr) st2)
        as [responseBytes | e' |] eqn:Hr; cbn [fst]; try discriminate.
      * assert (Hreplied :
          guest_replied st shaderCode shaderType spec output requestPtr st2
            responseBytes).
        { split; [exact Hopen |]. exists st1, responsePtr, results.
          repeat split; assumption. }
        unfold parseResponse.
        destruct (json_Unmarshal responseBytes) as [err | responseMap] eqn:Hd.
        { intros [= <-]. do 9 right. left.
          exists requestPtr, st2, responseBytes, err.
          split; [exact Hreplied | split; [exact Hd | reflexivity]]. }
        destruct (responseMap !! "error") as [[| | | | | serr] |] eqn:Herr;
          cbn [asMap]; try (intros H; exfalso; exact (newShader_not_Err _ _ H)).
        intros [= <-]. do 10 right.
        exists requestPtr, st2, responseBytes, responseMap, serr.
        split; [exact Hreplied |]. split; [exact Hd |].
        split; [exact Herr | reflexivity].
      * intros [= <-]. revert Hr. unfold readStringFromMemory.
        destruct (Memory.Read _ _ _) as [memBuffer |] eqn:Hread.
        -- destruct (Z.eqb_spec (nullTerminatorIndex memBuffer 0) (-1)) as [Hidx |];
             [| discriminate].
           intros [= <-]. do 8 right. left.
           exists requestPtr, st1, responsePtr, results, memBuffer. cbv zeta.
           rewrite Hi. cbn [fst snd].
           repeat split; try assumption; try reflexivity.
           apply (nullTerminatorIndex_absent _ 0); [lia | exact Hidx].
        -- intros [= <-]. do 7 right. left.
           exists requestPtr, st1, responsePtr, results. cbv zeta.
           rewrite Hi. cbn [fst snd]. repeat split; assumption || reflexivity.
    + intros [= <-]. do 5 right. left. exists requestPtr, st1, err.
      rewrite Hi. repeat split; reflexivity.
  - intros [= <-]. revert Hw. unfold writeStringToMemory.
    fold byteCount. fold allocation.
    destruct allocation as [[[| ptr results] | err] st0]; cbn [fst snd];
      try discriminate.
    + destruct (Z.eqb_spec ptr 0) as [-> | Hnz].
      { intros [= <- _]. do 2 right. left. exists results.
        repeat split; reflexivity. }
      destruct (Memory.Write (memory st0) (uint32 ptr) requestBytes) as [m1 |] eqn:Hw1.
      * destruct (Memory.WriteByte m1 _ _) eqn:Hw2; [discriminate |].
        intros [= <- _]. do 4 right. left. exists ptr, results, m1.
        repeat split; assumption || reflexivity.
      * intros [= <- _]. do 3 right. left. exists ptr, results.
        repeat split; assumption || reflexivity.
    + intros [= <- _]. right. left. exists err. repeat split; reflexivity.
Qed.

(** *** Strings in guest memory *)

(** A list of bytes either has no zero byte or splits at its first. *)
Lemma first_zero_split (l : list Byte.byte) :
  Byte.x00 ∉ l
  \/ exists pre post, l = pre ++ Byte.x00 :: post /\ Byte.x00 ∉ pre.
Proof.
  induction l as [| b l IH].
  - left. apply not_elem_of_nil.
  - destruct (decide (b = Byte.x00)) as [-> | Hb].
    + right. exists [], l. split; [reflexivity | apply not_elem_of_nil].
    + destruct IH as [Hno | (pre & post & -> & Hpre)].
      * left. rewrite not_elem_of_cons. split; [congruence | exact Hno].
      * right. exists (b :: pre), post. split; [reflexivity |].
        rewrite not_elem_of_cons. split; [congruence | exact Hpre].
Qed.

(** X10. What [readStringFromMemory] returns holds no zero byte and is
    followed in memory by one: it is a prefix of memory from [ptr] that
    stops at the first zero byte, never a string that runs to the end of
    memory. *)
Theorem readStringFromMemory_returns_terminated_prefix ptr st responseBytes :
  0 < ptr < 2 ^ 32 ->
  Z.of_nat (length (memory st)) <= 2 ^ 32 ->
  readStringFromMemory ptr st = Ok responseBytes ->
  (Byte.x00 ∉ responseBytes)
  /\ (exists rest,
        drop (Z.to_nat ptr) (memory st) = responseBytes ++ Byte.x00 :: rest)
  /\ ptr + Z.of_nat (length responseBytes) < Z.of_nat (length (memory st)).
Proof.
  intros Hptr Hlen Hread.
  destruct (first_zero_split (drop (Z.to_nat ptr) (memory st)))
    as [Hno | (pre & post & Hsplit & Hpre)].
  - destruct (readStringFromMemory_unterminated _ _ Hptr Hlen Hno) as [H | H];
      rewrite H in Hread; discriminate.
  - rewrite (readStringFromMemory_terminated _ _ _ _ Hptr Hlen Hsplit Hpre) in Hread.
    injection Hread as <-. split; [exact Hpre |]. split; [eauto |].
    apply (f_equal length) in Hsplit.
    rewrite length_drop, length_app in Hsplit. cbn [length] in Hsplit. lia.
Qed.

(** X11. A string without zero bytes that [writeStringToMemory] has
    written is read back unchanged by [readStringFromMemory] at the
    pointer returned. *)
Theorem write_then_read_round_trip data st ptr st1 :
  writeStringToMemory data st = (Ok ptr, st1) ->
  Byte.x00 ∉ data ->
  0 <= ptr ->
  ptr + Z.of_nat (length data) < 2 ^ 32 ->
  Z.of_nat (length (memory st1)) <= 2 ^ 32 ->
  readStringFromMemory (uint32 ptr) st1 = Ok data.
Proof.
  intros Hw Hno Hptr Hend Hlen.
  apply writeStringToMemory_Ok in Hw. cbv zeta in Hw.
  assert (Hl : 0 <= Z.of_nat (length data)) by lia.
  rewrite (uint64_small (Z.of_nat (length data))) in Hw by lia.
  rewrite (uint64_small (ptr + _)) in Hw by lia.
  rewrite (uint32_small (ptr + _)) in Hw by lia.
  rewrite (uint32_small ptr) in Hw by lia.
  rewrite (uint32_small ptr) by lia.
  destruct Hw as (results & m1 & m2 & _ & Hnz & Hw1 & Hw2 & ->).
  pose proof (Write_then_WriteByte _ _ _ _ _ Hptr Hw1 Hw2) as Hwrite.
  destruct (Write_Some _ _ _ _ Hptr Hwrite) as (_ & Hm2 & _).
  apply readStringFromMemory_terminated
    with (rest := drop (Z.to_nat ptr + length (data ++ [Byte.x00]))
                    (memory (callExport malloc
                       [uint64 (Z.of_nat (length data) + 1)] st).2));
    [lia | exact Hlen | | exact Hno].
  cbn [memory setMemory]. rewrite Hm2.
  rewrite drop_app_length'; [| rewrite length_take; apply Write_Some in Hw1 as (? & _); lia].
  rewrite <- !app_assoc. reflexivity.
Qed.

(** *** The request text has no zero byte *)

Lemma closed_text_nonzero (l : list Byte.byte) :
  forallb (fun b => negb (Byte.eqb b Byte.x00)) l = true ->
  Forall (fun b => b <> Byte.x00) l.
Proof.
  induction l as [| b l IH]; cbn [forallb]; [constructor |].
  intros H. apply andb_true_iff in H as [Hb Hl].
  constructor; [| exact (IH Hl)].
  intros ->. discriminate Hb.
Qed.

Lemma byte_nonzero (b : Byte.byte) : (0 < Byte.to_N b)%N -> b <> Byte.x00.
Proof. intros H ->. cbn in H. lia. Qed.

Lemma hex_nonzero n : GoJSON.hex n <> Byte.x00.
Proof.
  unfold GoJSON.hex.
  destruct (nth_in_or_default (N.to_nat (N.land n 15))
              (GoJSON.lit "0123456789abcdef") "0"%byte) as [Hin | ->];
    [| discriminate].
  assert (Hall : Forall (fun b => b <> Byte.x00) (GoJSON.lit "0123456789abcdef"))
    by (apply closed_text_nonzero; vm_compute; reflexivity).
  rewrite Forall_forall in Hall. apply Hall, list_elem_of_In. exact Hin.
Qed.

Lemma escape_nonzero b :
  b <> Byte.x00 -> Forall (fun c => c <> Byte.x00) (GoJSON.escape b).
Proof.
  intros Hb. unfold GoJSON.escape.
  repeat match goal with
         | |- context [if ?c then _ else _] => destruct c
         end;
    repeat constructor; try discriminate; try exact Hb; apply hex_nonzero.
Qed.

Lemma first_lo n size lo hi :
  GoJSON.first n = Some (size, lo, hi) -> (128 <= lo)%N.
Proof.
  unfold GoJSON.first.
  repeat match goal with
         | |- context [if ?c then _ else _] => destruct c
         end; intros [= <- <- <-]; lia.
Qed.

Lemma between_nonzero lo hi b :
  (128 <= lo)%N -> GoJSON.between lo hi b = true -> b <> Byte.x00.
Proof.
  intros Hlo H. unfold GoJSON.between in H.
  apply andb_true_iff in H as [H _]. apply N.leb_le in H.
  apply byte_nonzero. lia.
Qed.

(** A zero byte in the source is written as an escape. *)
Lemma escape_zero_nonzero :
  Forall (fun c => c <> Byte.x00) (GoJSON.escape Byte.x00).
Proof. apply closed_text_nonzero. vm_compute. reflexivity. Qed.

Lemma appendBody_nonzero n :
  forall src, (length src <= n)%nat ->
  Forall (fun b => b <> Byte.x00) (GoJSON.appendBody src).
Proof.
  induction n as [| n IH]; intros [| b0 t0] Hlen; cbn [length] in Hlen;
    try (constructor; fail); [lia |].
  assert (IH0 : Forall (fun b => b <> Byte.x00) (GoJSON.appendBody t0))
    by (apply IH; lia).
  assert (Hrep : Forall (fun b => b <> Byte.x00) GoJSON.replacement)
    by (apply closed_text_nonzero; vm_compute; reflexivity).
  assert (Hinv : Forall (fun b => b <> Byte.x00)
                   (GoJSON.replacement ++ GoJSON.appendBody t0))
    by (apply Forall_app; split; assumption).
  cbn [GoJSON.appendBody]. cbv zeta.
  destruct (Byte.to_N b0 <? 128)%N eqn:Hascii.
  { apply Forall_app. split; [| exact IH0].
    destruct (GoJSON.htmlSafeSet (Byte.to_N b0)) eqn:Hsafe.
    - constructor; [| constructor]. apply byte_nonzero.
      unfold GoJSON.htmlSafeSet in Hsafe.
      apply andb_true_iff in Hsafe as [Hsafe _].
      apply andb_true_iff in Hsafe as [Hsafe _]. apply N.leb_le in Hsafe. lia.
    - destruct (decide (b0 = Byte.x00)) as [-> | Hb0];
        [apply escape_zero_nonzero | apply escape_nonzero; exact Hb0]. }
  assert (Hb0 : b0 <> Byte.x00)
    by (apply byte_nonzero; apply N.ltb_ge in Hascii; lia).
  destruct (GoJSON.first (Byte.to_N b0)) as [[[size lo] hi] |] eqn:Hfirst;
    [| exact Hinv].
  apply first_lo in Hfirst.
  destruct t0 as [| b1 t1]; [exact Hinv |].
  destruct (GoJSON.between lo hi b1) eqn:Hb1; cbn [negb]; [| exact Hinv].
  apply (between_nonzero _ _ _ Hfirst) in Hb1.
  cbn [length] in Hlen.
  assert (IH1 : Forall (fun b => b <> Byte.x00) (GoJSON.appendBody t1))
    by (apply IH; lia).
  destruct (size =? 2)%nat; [repeat constructor; assumption |].
  destruct t1 as [| b2 t2]; [exact Hinv |].
  destruct (GoJSON.between 128 191 b2) eqn:Hb2; cbn [negb]; [| exact Hinv].
  apply between_nonzero in Hb2; [| lia].
  cbn [length] in Hlen.
  assert (IH2 : Forall (fun b => b <> Byte.x00) (GoJSON.appendBody t2))
    by (apply IH; lia).
  destruct (size =? 3)%nat.
  { destruct (_ && _).
    - constructor; [discriminate |]. apply Forall_app. split.
      + apply closed_text_nonzero. vm_compute. reflexivity.
      + constructor; [apply hex_nonzero | exact IH2].
    - repeat constructor; assumption. }
  destruct t2 as [| b3 t3]; [exact Hinv |].
  destruct (GoJSON.between 128 191 b3) eqn:Hb3; cbn [negb]; [| exact Hinv].
  apply between_nonzero in Hb3; [| lia].
  cbn [length] in Hlen.
  repeat constructor; try assumption. apply IH. lia.
Qed.

Lemma appendString_nonzero str :
  Forall (fun b => b <> Byte.x00) (GoJSON.appendString str).
Proof.
  unfold GoJSON.appendString. constructor; [discriminate |].
  apply Forall_app. split.
  - apply (appendBody_nonzero (length (bytes_of_string str))). lia.
  - repeat constructor. discriminate.
Qed.

(** X12. The text of a request never contains a zero byte, whatever
    the shader source, stage, spec and output strings are (a zero byte in
    one of them is written as an escape), so that the terminator written
    after the request is the first zero byte the guest meets. *)
Theorem request_text_has_no_zero_byte shaderCode shaderType spec output :
  Byte.x00 ∉ Marshal_JSONRPCRequest (newRequest shaderCode shaderType spec output).
Proof.
  assert (H : Forall (fun b => b <> Byte.x00)
                (Marshal_JSONRPCRequest
                   (newRequest shaderCode shaderType spec output))).
  { unfold Marshal_JSONRPCRequest, Marshal_TranslateRequestParams, newRequest.
    cbn [JsonRPC ID Method Params ShaderCodeBase64 ShaderType Spec Output
         PrintActiveVariables CompileOptions].
    rewrite compile_options_text.
    unfold GoJSON.object, GoJSON.member. cbn [GoJSON.members].
    repeat (apply Forall_app; split);
      first [ apply appendString_nonzero
            | apply closed_text_nonzero; vm_compute; reflexivity ]. }
  rewrite Forall_forall in H. intros Hin. exact (H _ Hin eq_refl).
Qed.

(** *** What newShader needs and what it tolerates *)

(** X13. [newShader] returns a [Shader] only for a response whose
    "result" is an object with a string under "object_code", and that
    string is the code returned; a response without such a result (an
    empty object, "result" null or missing) makes it panic. *)
Theorem newShader_needs_object_code response :
  (forall sh, newShader response = Ok sh ->
     exists result,
       response !! "result" = Some (JObject result)
       /\ result !! "object_code" = Some (JString (Code sh)))
  /\ (asMap (response !! "result") = None -> newShader response = Panic).
Proof.
  unfold newShader. split.
  - intros sh.
    destruct (rangeActiveVariables _ _) as [v | e |]; try discriminate.
    destruct (response !! "result") as [[| | | | | result] |];
      unfold asMap at 1, from_option, id;
      try (rewrite lookup_empty; discriminate).
    destruct (asString (result !! "object_code")) as [code |] eqn:Hcode;
      [| discriminate].
    intros [= <-]. exists result. split; [reflexivity |].
    cbn [Code]. apply asString_Some. exact Hcode.
  - intros ->. unfold from_option at 1 3, id. rewrite !lookup_empty.
    unfold asString.
    destruct (rangeActiveVariables _ _) as [v | e |] eqn:Hv; try reflexivity.
    exfalso. exact (rangeActiveVariables_not_Err _ _ _ Hv).
Qed.

Lemma range_order_empty : range_order ∅ = [].
Proof.
  apply Permutation_nil_r. rewrite range_order_perm, map_to_list_empty.
  reflexivity.
Qed.

(** X14. A result without "active_variables", or with a value there
    that is not an object, is not an error: the [Shader] is returned with
    its code and an empty variable mapping. *)
Theorem newShader_without_active_variables response result code :
  response !! "result" = Some (JObject result) ->
  result !! "object_code" = Some (JString code) ->
  asMap (result !! "active_variables") = None ->
  newShader response = Ok {| Code := code; Variables := ∅ |}.
Proof.
  intros Hresult Hcode Hav. unfold newShader.
  rewrite Hresult. unfold asMap at 2 3, from_option at 2 3, id.
  rewrite Hav, Hcode. unfold from_option, id, asString.
  rewrite range_order_empty. reflexivity.
Qed.

(** X15. The elements of a category that are not objects are skipped:
    the inner loop does with the list what it does with its objects
    alone. *)
Theorem rangeVarData_skips_non_objects name varData variables :
  rangeVarData name varData variables
  = rangeVarData name (filter (fun data => isObject data = true) varData) variables.
Proof.
  revert variables. induction varData as [| data rest IH]; intros variables;
    [reflexivity |].
  destruct data;
    try (rewrite filter_cons_False by discriminate; cbn [rangeVarData]; apply IH).
  rewrite filter_cons_True by reflexivity. cbn [rangeVarData].
  destruct (shaderVariable name m); [apply IH | reflexivity].
Qed.

Lemma rangeActiveVariables_not_array entries variables name data :
  (name, data) ∈ entries -> (forall l, data <> JArray l) ->
  rangeActiveVariables entries variables = Panic.
Proof.
  intros Hentry Hdata. revert variables.
  induction entries as [| [n d] rest IH]; intros variables.
  - inversion Hentry.
  - cbn [rangeActiveVariables]. destruct d; try reflexivity.
    apply elem_of_cons in Hentry as [[= -> ->] | Hentry].
    + exfalso. exact (Hdata _ eq_refl).
    + destruct (rangeVarData n l variables) as [v | e |] eqn:H.
      * apply IH. exact Hentry.
      * exfalso. exact (rangeVarData_not_Err _ _ _ _ H).
      * reflexivity.
Qed.

(** X16. A category of "active_variables" whose value is not an array
    (null, an object, a string) makes [newShader] panic, whatever the
    rest of the response holds. *)
Theorem newShader_panics_on_category_that_is_no_array response name data :
  activeVariablesOf response !! name = Some data ->
  (forall l, data <> JArray l) ->
  newShader response = Panic.
Proof.
  intros Hcat Hdata. unfold newShader. fold (activeVariablesOf response).
  apply range_order_elem in Hcat.
  rewrite (rangeActiveVariables_not_array _ _ _ _ Hcat Hdata). reflexivity.
Qed.

Lemma rangeVarData_completes name varData variables :
  (forall variableMap, JObject variableMap ∈ varData ->
     ~ malformed_variable variableMap) ->
  exists variables', rangeVarData name varData variables = Ok variables'.
Proof.
  revert variables. induction varData as [| data rest IH]; intros variables Hwf.
  - eexists. reflexivity.
  - assert (Hrest : forall variableMap, JObject variableMap ∈ rest ->
                      ~ malformed_variable variableMap)
      by (intros vm Hin; apply Hwf; right; exact Hin).
    cbn [rangeVarData]. destruct data; try (apply IH; exact Hrest).
    destruct (shaderVariable name m) as [v |] eqn:Hv; [apply IH; exact Hrest |].
    exfalso. apply (Hwf m); [left |].
    exact (proj1 (shaderVariable_None name m) Hv).
Qed.

Lemma rangeActiveVariables_completes entries variables :
  (forall name data, (name, data) ∈ entries ->
     exists varData, data = JArray varData
       /\ forall variableMap, JObject variableMap ∈ varData ->
            ~ malformed_variable variableMap) ->
  exists variables', rangeActiveVariables entries variables = Ok variables'.
Proof.
  revert variables. induction entries as [| [name data] rest IH];
    intros variables Hwf.
  - eexists. reflexivity.
  - destruct (Hwf name data) as (varData & -> & Hobjects); [left |].
    cbn [rangeActiveVariables].
    destruct (rangeVarData_completes name varData variables Hobjects) as [v ->].
    apply IH. intros n d Hin. apply (Hwf n d). right. exact Hin.
Qed.

(** X17. A translation returns a [Shader] whenever the guest's reply
    decodes to a response without an error object whose result has a
    string "object_code" and whose categories are all arrays in which
    every object has its seven fields well typed; the code returned is
    that string, and the request has been freed. *)
Theorem well_formed_response_is_translated
    st shaderCode shaderType spec output requestPtr st2 responseBytes
    responseMap result code :
  guest_replied st shaderCode shaderType spec output requestPtr st2 responseBytes ->
  json_Unmarshal responseBytes = DecodedMap responseMap ->
  asMap (responseMap !! "error") = None ->
  responseMap !! "result" = Some (JObject result) ->
  result !! "object_code" = Some (JString code) ->
  (forall name data,
      activeVariablesOf responseMap !! name = Some data ->
      exists varData, data = JArray varData
        /\ forall variableMap, JObject variableMap ∈ varData ->
             ~ malformed_variable variableMap) ->
  exists variables,
    TranslateShader st shaderCode shaderType spec output
    = (Ok {| Code := code; Variables := variables |},
       (callExport free [requestPtr] st2).2).
Proof.
  intros Hreply Hdecode Hnoerr Hresult Hcode Hwf.
  rewrite (TranslateShader_replied _ _ _ _ _ _ _ _ Hreply).
  unfold parseResponse. rewrite Hdecode, Hnoerr. unfold newShader.
  fold (activeVariablesOf responseMap).
  destruct (rangeActiveVariables_completes
              (range_order (activeVariablesOf responseMap)) ∅) as [variables ->].
  { intros name data Hin. apply (Hwf name data). apply range_order_elem.
    exact Hin. }
  rewrite Hresult. unfold asMap, from_option, id. rewrite Hcode.
  exists variables. reflexivity.
Qed.

Lemma objectsOf_visited entries name varData o :
  (name, JArray varData) ∈ entries -> o ∈ objectsOf name varData ->
  o ∈ visited entries.
Proof.
  intros Hentry Ho. induction entries as [| [n d] rest IH].
  - inversion Hentry.
  - apply elem_of_cons in Hentry as [[= <- <-] | Hentry].
    + cbn [visited]. apply elem_of_app. left. exact Ho.
    + specialize (IH Hentry). cbn [visited]. destruct d; try exact IH.
      apply elem_of_app. right. exact IH.
Qed.

Lemma lastNamed_is_Some v l : v ∈ l -> is_Some (lastNamed (Name v) l).
Proof.
  intros Hin. unfold lastNamed. apply last_is_Some.
  intros Hnil.
  assert (Hv : v ∈ filter (fun w => Name w = Name v) l)
    by (apply list_elem_of_filter; split; [reflexivity | exact Hin]).
  rewrite Hnil in Hv. inversion Hv.
Qed.

(** X18. No variable of the response is lost except to a later one of
    the same name: in the [Shader] returned, the name of every variable
    object listed under a category is a key of the variable mapping. *)
Theorem every_variable_name_is_a_key response sh name varData variableMap :
  newShader response = Ok sh ->
  activeVariablesOf response !! name = Some (JArray varData) ->
  JObject variableMap ∈ varData ->
  exists n,
    variableMap !! "name" = Some (JString n)
    /\ is_Some (Variables sh !! n).
Proof.
  intros Hok Hcat Hin. apply newShader_Ok in Hok.
  destruct (rangeActiveVariables_Ok _ _ _ Hok) as [Hvars Hall].
  apply range_order_elem in Hcat.
  assert (Ho : (name, variableMap)
               ∈ visited (range_order (activeVariablesOf response))).
  { apply (objectsOf_visited _ name varData); [exact Hcat |].
    apply objectsOf_elem. eauto. }
  rewrite Forall_forall in Hall. destruct (Hall _ Ho) as [v Hv]. cbn [fst snd] in Hv.
  pose proof (shaderVariable_Some _ _ _ Hv) as (_ & _ & _ & Hname & _).
  exists (Name v). split; [exact Hname |].
  rewrite Hvars, foldl_insert_lookup.
  assert (Hseq : v ∈ visitedVariables (range_order (activeVariablesOf response))).
  { unfold visitedVariables. apply list_elem_of_omap. exists (name, variableMap).
    split; [exact Ho | exact Hv]. }
  destruct (lastNamed_is_Some v _ Hseq) as [w ->]. eauto.
Qed.

(** *** The base64 text in the request *)

Lemma alphabet_is_safe :
  Forall (fun b => (Byte.to_N b <? 128)%N = true
                   /\ GoJSON.htmlSafeSet (Byte.to_N b) = true)
    (Base64.StdPadding :: "A"%byte :: Base64.encodeStd).
Proof.
  apply Forall_forall. intros b Hb. apply list_elem_of_In in Hb.
  assert (H : forallb (fun b => (Byte.to_N b <? 128)%N
                                && GoJSON.htmlSafeSet (Byte.to_N b))
                (Base64.StdPadding :: "A"%byte :: Base64.encodeStd) = true)
    by (vm_compute; reflexivity).
  rewrite forallb_forall in H. apply andb_true_iff. exact (H b Hb).
Qed.

Lemma enc_is_safe n :
  (Byte.to_N (Base64.enc n) <? 128)%N = true
  /\ GoJSON.htmlSafeSet (Byte.to_N (Base64.enc n)) = true.
Proof.
  pose proof alphabet_is_safe as H. rewrite Forall_forall in H. apply H.
  unfold Base64.enc.
  destruct (nth_in_or_default (N.to_nat (N.land n 63)) Base64.encodeStd "A"%byte)
    as [Hin | ->].
  - right. right. apply list_elem_of_In. exact Hin.
  - right. left.
Qed.

Lemma padding_is_safe :
  (Byte.to_N Base64.StdPadding <? 128)%N = true
  /\ GoJSON.htmlSafeSet (Byte.to_N Base64.StdPadding) = true.
Proof. split; reflexivity. Qed.

Lemma encode_is_safe n :
  forall src, (length src <= n)%nat ->
  Forall (fun b => (Byte.to_N b <? 128)%N = true
                   /\ GoJSON.htmlSafeSet (Byte.to_N b) = true)
    (Base64.encode src).
Proof.
  induction n as [| n IH]; intros src Hlen.
  - destruct src; [constructor | cbn [length] in Hlen; lia].
  - destruct src as [| a [| b [| c rest]]]; cbn [Base64.encode]; cbv zeta.
    + constructor.
    + repeat constructor; first [apply enc_is_safe | apply padding_is_safe].
    + repeat constructor; first [apply enc_is_safe | apply padding_is_safe].
    + repeat (constructor; [apply enc_is_safe |]).
      apply IH. cbn [length] in Hlen. lia.
Qed.

Lemma appendBody_of_safe l :
  Forall (fun b => (Byte.to_N b <? 128)%N = true
                   /\ GoJSON.htmlSafeSet (Byte.to_N b) = true) l ->
  GoJSON.appendBody l = l.
Proof.
  induction 1 as [| b l [Hascii Hsafe] _ IH]; [reflexivity |].
  cbn [GoJSON.appendBody]. cbv zeta. rewrite Hascii, Hsafe, IH. reflexivity.
Qed.

(** X19. The base64 text of a shader source goes into the request as it
    is, between quotes: whatever bytes the source holds, none of the
    characters of its encoding is escaped or replaced by the JSON
    encoder. *)
Theorem base64_text_is_written_unescaped src :
  GoJSON.appendString (Base64.EncodeToString src)
  = GoJSON.quote :: Base64.encode src ++ [GoJSON.quote].
Proof.
  unfold GoJSON.appendString, Base64.EncodeToString, bytes_of_string,
    string_of_bytes.
  rewrite list_byte_of_string_of_list_byte.
  rewrite (appendBody_of_safe _ (encode_is_safe (length src) src (le_n _))).
  reflexivity.
Qed.

(** *** The request read back by independent decoders *)

Lemma land_63 n : N.land n 63 = (n mod 64)%N.
Proof. change 63%N with (N.ones 6). rewrite N.land_ones. reflexivity. Qed.

(** Each character of the encoder's alphabet has its index as value, and
    none is the padding character. *)
Lemma enc_value n :
  spec_base64_value (Base64.enc n) = Some (n mod 64)%N
  /\ Byte.eqb (Base64.enc n) "="%byte = false.
Proof.
  unfold Base64.enc. rewrite land_63.
  assert (Hk : (N.to_nat (n mod 64) < 64)%nat).
  { pose proof (N.mod_upper_bound n 64). lia. }
  assert (Hall :
    forallb (fun k =>
               match spec_base64_value (nth k Base64.encodeStd "A"%byte) with
               | Some v =>
                   (v =? N.of_nat k)%N
                   && negb (Byte.eqb (nth k Base64.encodeStd "A"%byte) "="%byte)
               | None => false
               end) (seq 0 64) = true) by (vm_compute; reflexivity).
  rewrite forallb_forall in Hall.
  specialize (Hall (N.to_nat (n mod 64))).
  destruct (spec_base64_value (nth (N.to_nat (n mod 64)) Base64.encodeStd "A"%byte))
    as [v |].
  - assert (H : ((v =? N.of_nat (N.to_nat (n mod 64)))%N
                 && negb (Byte.eqb (nth (N.to_nat (n mod 64)) Base64.encodeStd
                                      "A"%byte) "="%byte)) = true)
      by (apply Hall, in_seq; split; [apply Nat.le_0_l | exact Hk]).
    apply andb_true_iff in H as [Hv Hpad]. apply N.eqb_eq in Hv.
    rewrite N2Nat.id in Hv. subst v. split; [reflexivity |].
    apply negb_true_iff. exact Hpad.
  - assert (H : false = true)
      by (apply Hall, in_seq; split; [apply Nat.le_0_l | exact Hk]).
    discriminate H.
Qed.

Lemma lor_shiftl_add x c k :
  (c < 2 ^ k)%N -> N.lor (N.shiftl x k) c = (x * 2 ^ k + c)%N.
Proof.
  intros Hc. rewrite <- N.shiftl_mul_pow2.
  assert (Hdisjoint : N.land (N.shiftl x k) c = 0%N).
  { apply N.bits_inj. intros n. rewrite N.land_spec, N.bits_0.
    destruct (N.ltb_spec n k) as [Hlt | Hge].
    - rewrite N.shiftl_spec_low by exact Hlt. reflexivity.
    - rewrite <- (N.mod_small c (2 ^ k)) by exact Hc.
      rewrite N.mod_pow2_bits_high by exact Hge. apply andb_false_r. }
  rewrite N.add_nocarry_lxor by exact Hdisjoint.
  symmetry. apply N.lxor_lor. exact Hdisjoint.
Qed.

Lemma byte_of_to_N b : byte_of_N (Byte.to_N b) = b.
Proof.
  unfold byte_of_N. pose proof (Byte.to_N_bounded b).
  rewrite N.mod_small by lia. rewrite Byte.of_to_N. reflexivity.
Qed.

(** The 24 bits of a group of three bytes, as a number. *)
Lemma group_of_three a b c :
  N.lor (N.lor (N.shiftl (Byte.to_N a) 16) (N.shiftl (Byte.to_N b) 8)) (Byte.to_N c)
  = (Byte.to_N a * 65536 + Byte.to_N b * 256 + Byte.to_N c)%N.
Proof.
  pose proof (Byte.to_N_bounded b). pose proof (Byte.to_N_bounded c).
  replace (N.shiftl (Byte.to_N a) 16)
    with (N.shiftl (N.shiftl (Byte.to_N a) 8) 8)
    by (rewrite N.shiftl_shiftl; reflexivity).
  rewrite <- N.shiftl_lor.
  rewrite (lor_shiftl_add (Byte.to_N a) (Byte.to_N b) 8) by (cbn; lia).
  rewrite lor_shiftl_add by (cbn; lia).
  change (2 ^ 8)%N with 256%N. lia.
Qed.

Lemma group_of_two a b :
  N.lor (N.shiftl (Byte.to_N a) 16) (N.shiftl (Byte.to_N b) 8)
  = (Byte.to_N a * 65536 + Byte.to_N b * 256)%N.
Proof.
  pose proof (Byte.to_N_bounded b).
  replace (N.shiftl (Byte.to_N a) 16)
    with (N.shiftl (N.shiftl (Byte.to_N a) 8) 8)
    by (rewrite N.shiftl_shiftl; reflexivity).
  rewrite <- N.shiftl_lor.
  rewrite (lor_shiftl_add (Byte.to_N a) (Byte.to_N b) 8) by (cbn; lia).
  rewrite N.shiftl_mul_pow2. change (2 ^ 8)%N with 256%N. lia.
Qed.

(** The three bytes recovered from the four 6-bit values of a group;
    the bits left unused by a group of one or two bytes are zero. *)
Lemma bytes_of_group (A B C : N) :
  (A <= 255 -> B <= 255 -> C <= 255 ->
   let val := A * 65536 + B * 256 + C in
   let d0 := (val / 2 ^ 18) mod 64 in
   let d1 := (val / 2 ^ 12) mod 64 in
   let d2 := (val / 2 ^ 6) mod 64 in
   let d3 := val mod 64 in
   d0 * 4 + d1 / 16 = A
   /\ d1 mod 16 * 16 + d2 / 4 = B
   /\ d2 mod 4 * 64 + d3 = C
   /\ (B = 0 -> C = 0 -> d1 mod 16 = 0)
   /\ (C = 0 -> d2 mod 4 = 0))%N.
Proof.
  intros HA HB HC. cbv zeta.
  change (2 ^ 18)%N with 262144%N. change (2 ^ 12)%N with 4096%N.
  change (2 ^ 6)%N with 64%N.
  repeat split; try intros ? ?; try intros ?;
    zify; Z.to_euclidean_division_equations; lia.
Qed.

(** One group of the encoder, read by the decoder. *)
Lemma decode_group val c2 c3 rest :
  spec_base64_decode
    (Base64.enc (N.shiftr val 18) :: Base64.enc (N.shiftr val 12) :: c2 :: c3 :: rest)
  = let d0 := ((val / 2 ^ 18) mod 64)%N in
    let d1 := ((val / 2 ^ 12) mod 64)%N in
    let b0 := byte_of_N (d0 * 4 + d1 / 16) in
    if Byte.eqb c2 "="%byte then
      if Byte.eqb c3 "="%byte && (d1 mod 16 =? 0)%N
      then match rest with [] => Some [b0] | _ :: _ => None end
      else None
    else
      match spec_base64_value c2 with
      | Some d2 =>
          let b1 := byte_of_N (d1 mod 16 * 16 + d2 / 4) in
          if Byte.eqb c3 "="%byte
          then
            if (d2 mod 4 =? 0)%N
            then match rest with [] => Some [b0; b1] | _ :: _ => None end
            else None
          else
            match spec_base64_value c3 with
            | Some d3 =>
                let b2 := byte_of_N (d2 mod 4 * 64 + d3) in
                match spec_base64_decode rest with
                | Some bytes => Some (b0 :: b1 :: b2 :: bytes)
                | None => None
                end
            | None => None
            end
      | None => None
      end.
Proof.
  cbn [spec_base64_decode].
  rewrite (proj1 (enc_value (N.shiftr val 18))), (proj1 (enc_value (N.shiftr val 12))).
  rewrite !N.shiftr_div_pow2. reflexivity.
Qed.

(** The base64 decoder gives back what the encoder was given. *)
Lemma base64_round_trip n :
  forall src, (length src <= n)%nat ->
  spec_base64_decode (Base64.encode src) = Some src.
Proof.
  induction n as [| n IH]; intros src Hlen.
  - destruct src; [reflexivity | cbn [length] in Hlen; lia].
  - destruct src as [| a [| b [| c rest]]]; [reflexivity | | |].
    + cbn [Base64.encode]. cbv zeta. rewrite decode_group. cbv zeta.
      cbn [Base64.StdPadding Byte.eqb].
      change (Byte.eqb "="%byte "="%byte) with true. cbv iota.
      rewrite N.shiftl_mul_pow2. change (2 ^ 16)%N with 65536%N.
      pose proof (Byte.to_N_bounded a) as Ha.
      destruct (bytes_of_group (Byte.to_N a) 0 0 Ha) as (H0 & _ & _ & Hpad & _);
        try lia.
      cbv zeta in H0, Hpad.
      replace (Byte.to_N a * 65536 + 0 * 256 + 0)%N with (Byte.to_N a * 65536)%N
        in H0, Hpad by lia.
      rewrite H0, byte_of_to_N, Hpad by reflexivity. reflexivity.
    + cbn [Base64.encode]. cbv zeta. rewrite decode_group. cbv zeta.
      rewrite (proj2 (enc_value _)), (proj1 (enc_value _)).
      change (Byte.eqb Base64.StdPadding "="%byte) with true. cbv iota.
      rewrite group_of_two, !N.shiftr_div_pow2.
      pose proof (Byte.to_N_bounded a) as Ha.
      pose proof (Byte.to_N_bounded b) as Hb.
      destruct (bytes_of_group (Byte.to_N a) (Byte.to_N b) 0 Ha Hb)
        as (H0 & H1 & _ & _ & Hpad); try lia.
      cbv zeta in H0, H1, Hpad.
      replace (Byte.to_N a * 65536 + Byte.to_N b * 256 + 0)%N
        with (Byte.to_N a * 65536 + Byte.to_N b * 256)%N in H0, H1, Hpad by lia.
      rewrite H0, H1, !byte_of_to_N, Hpad by reflexivity. reflexivity.
    + cbn [Base64.encode]. cbv zeta. rewrite decode_group. cbv zeta.
      rewrite (proj2 (enc_value _)), (proj1 (enc_value _)).
      rewrite (proj2 (enc_value _)), (proj1 (enc_value _)).
      rewrite IH by (cbn [length] in Hlen; lia).
      rewrite group_of_three, !N.shiftr_div_pow2.
      pose proof (Byte.to_N_bounded a) as Ha.
      pose proof (Byte.to_N_bounded b) as Hb.
      pose proof (Byte.to_N_bounded c) as Hc.
      destruct (bytes_of_group (Byte.to_N a) (Byte.to_N b) (Byte.to_N c) Ha Hb Hc)
        as (H0 & H1 & H2 & _).
      cbv zeta in H0, H1, H2.
      rewrite H0, H1, H2, !byte_of_to_N. reflexivity.
Qed.

(** An ASCII character as the encoder writes it, read by the reader. *)
Lemma read_escaped_ascii b tail str rest :
  (Byte.to_N b <? 128)%N = true ->
  spec_read_string tail = Some (str, rest) ->
  spec_read_string
    ((if GoJSON.htmlSafeSet (Byte.to_N b) then [b] else GoJSON.escape b) ++ tail)
  = Some (b :: str, rest).
Proof.
  intros Hb Htail.
  destruct b; try (vm_compute in Hb; discriminate Hb);
    cbn; rewrite Htail; reflexivity.
Qed.

(** An ASCII string as the encoder writes it is read back unchanged, up
    to its closing quote. *)
Lemma read_appendBody_ascii l rest :
  Forall (fun b => (Byte.to_N b <? 128)%N = true) l ->
  spec_read_string (GoJSON.appendBody l ++ Byte.x22 :: rest) = Some (l, rest).
Proof.
  induction 1 as [| b l Hb _ IH]; [reflexivity |].
  cbn [GoJSON.appendBody]. cbv zeta. rewrite Hb, <- app_assoc.
  apply read_escaped_ascii; assumption.
Qed.

(** A character that has a value is the encoder's character for that
    value, and is not the padding character. *)
Lemma value_enc c d :
  spec_base64_value c = Some d ->
  Base64.enc d = c /\ (d < 64)%N /\ Byte.eqb c "="%byte = false.
Proof.
  intros H. destruct c; vm_compute in H; first [discriminate H | idtac];
    injection H as <-; vm_compute; repeat split; reflexivity.
Qed.

Lemma enc_mod n : Base64.enc n = Base64.enc (n mod 64).
Proof.
  unfold Base64.enc. rewrite !land_63, N.Div0.mod_mod. reflexivity.
Qed.

Lemma enc_shiftr val k d :
  ((val / 2 ^ k) mod 64 = d)%N -> Base64.enc (N.shiftr val k) = Base64.enc d.
Proof.
  intros <-. rewrite N.shiftr_div_pow2. apply enc_mod.
Qed.

Lemma to_N_byte_of_N n : (n < 256)%N -> Byte.to_N (byte_of_N n) = n.
Proof.
  intros H. unfold byte_of_N. rewrite N.mod_small by exact H.
  destruct (Byte.of_N n) as [b |] eqn:Hb.
  - apply Byte.to_of_N. exact Hb.
  - apply Byte.of_N_None_iff in Hb. lia.
Qed.

(** The four 6-bit values of a group recovered from its three bytes. *)
Lemma values_of_group (d0 d1 d2 d3 : N) :
  (d0 < 64 -> d1 < 64 -> d2 < 64 -> d3 < 64 ->
   let A := d0 * 4 + d1 / 16 in
   let B := d1 mod 16 * 16 + d2 / 4 in
   let C := d2 mod 4 * 64 + d3 in
   let val := A * 65536 + B * 256 + C in
   A < 256 /\ B < 256 /\ C < 256
   /\ (val / 2 ^ 18) mod 64 = d0
   /\ (val / 2 ^ 12) mod 64 = d1
   /\ (val / 2 ^ 6) mod 64 = d2
   /\ val mod 64 = d3)%N.
Proof.
  intros H0 H1 H2 H3. cbv zeta.
  change (2 ^ 18)%N with 262144%N. change (2 ^ 12)%N with 4096%N.
  change (2 ^ 6)%N with 64%N.
  repeat split; zify; Z.to_euclidean_division_equations; lia.
Qed.

(** A text the decoder accepts is the encoder's text for the bytes it
    decodes to. *)
Lemma base64_decode_unique n :
  forall text src, (length text <= n)%nat ->
  spec_base64_decode text = Some src -> text = Base64.encode src.
Proof.
  induction n as [| n IH]; intros text src Hlen.
  - destruct text; [intros [= <-]; reflexivity | cbn [length] in Hlen; lia].
  - destruct text as [| c0 [| c1 [| c2 [| c3 rest]]]];
      [intros [= <-]; reflexivity | discriminate | discriminate | discriminate |].
    cbn [spec_base64_decode].
    destruct (spec_base64_value c0) as [d0 |] eqn:E0; [| discriminate].
    destruct (spec_base64_value c1) as [d1 |] eqn:E1; [| discriminate].
    apply value_enc in E0 as (<- & H0 & _). apply value_enc in E1 as (<- & H1 & _).
    cbv zeta.
    destruct (Byte.eqb c2 "="%byte) eqn:P2.
    + apply Byte.byte_dec_bl in P2. subst c2.
      destruct (Byte.eqb c3 "="%byte) eqn:P3; [| discriminate].
      apply Byte.byte_dec_bl in P3. subst c3.
      destruct (N.eqb_spec (d1 mod 16) 0) as [Hpad |]; [| discriminate].
      cbn [andb]. destruct rest; [| discriminate]. intros [= <-].
      cbn [Base64.encode]. cbv zeta.
      destruct (values_of_group d0 d1 0 0 H0 H1) as (HA & _ & _ & V0 & V1 & _);
        try lia.
      cbv zeta in HA, V0, V1.
      rewrite to_N_byte_of_N by exact HA.
      rewrite N.shiftl_mul_pow2. change (2 ^ 16)%N with 65536%N.
      replace ((d0 * 4 + d1 / 16) * 65536
               + (d1 mod 16 * 16 + 0 / 4) * 256 + (0 mod 4 * 64 + 0))%N
        with ((d0 * 4 + d1 / 16) * 65536)%N in V0, V1
        by (rewrite Hpad, N.Div0.div_0_l, N.Div0.mod_0_l; lia).
      rewrite (enc_shiftr _ 18 d0 V0), (enc_shiftr _ 12 d1 V1). reflexivity.
    + destruct (spec_base64_value c2) as [d2 |] eqn:E2; [| discriminate].
      apply value_enc in E2 as (<- & H2 & _).
      destruct (Byte.eqb c3 "="%byte) eqn:P3.
      * apply Byte.byte_dec_bl in P3. subst c3.
        destruct (N.eqb_spec (d2 mod 4) 0) as [Hpad |]; [| discriminate].
        destruct rest; [| discriminate]. intros [= <-].
        cbn [Base64.encode]. cbv zeta.
        destruct (values_of_group d0 d1 d2 0 H0 H1 H2)
          as (HA & HB & _ & V0 & V1 & V2 & _); try lia.
        cbv zeta in HA, HB, V0, V1, V2.
        rewrite !to_N_byte_of_N by assumption.
        assert (Hval :
          N.lor (N.shiftl (d0 * 4 + d1 / 16) 16) (N.shiftl (d1 mod 16 * 16 + d2 / 4) 8)
          = ((d0 * 4 + d1 / 16) * 65536 + (d1 mod 16 * 16 + d2 / 4) * 256
             + (d2 mod 4 * 64 + 0))%N).
        { rewrite <- (to_N_byte_of_N _ HA), <- (to_N_byte_of_N _ HB), group_of_two.
          rewrite Hpad. lia. }
        rewrite Hval.
        rewrite (enc_shiftr _ 18 d0 V0), (enc_shiftr _ 12 d1 V1),
          (enc_shiftr _ 6 d2 V2).
        reflexivity.
      * destruct (spec_base64_value c3) as [d3 |] eqn:E3; [| discriminate].
        apply value_enc in E3 as (<- & H3 & _).
        destruct (spec_base64_decode rest) as [bytes |] eqn:Hrest; [| discriminate].
        intros [= <-].
        cbn [Base64.encode]. cbv zeta.
        destruct (values_of_group d0 d1 d2 d3 H0 H1 H2 H3)
          as (HA & HB & HC & V0 & V1 & V2 & V3).
        cbv zeta in HA, HB, HC, V0, V1, V2, V3.
        assert (Hval :
          N.lor (N.lor (N.shiftl (Byte.to_N (byte_of_N (d0 * 4 + d1 / 16))) 16)
                       (N.shiftl (Byte.to_N (byte_of_N (d1 mod 16 * 16 + d2 / 4))) 8))
                (Byte.to_N (byte_of_N (d2 mod 4 * 64 + d3)))
          = ((d0 * 4 + d1 / 16) * 65536 + (d1 mod 16 * 16 + d2 / 4) * 256
             + (d2 mod 4 * 64 + d3))%N).
        { rewrite group_of_three, !to_N_byte_of_N by assumption. reflexivity. }
        rewrite Hval.
        rewrite (enc_shiftr _ 18 d0 V0), (enc_shiftr _ 12 d1 V1),
          (enc_shiftr _ 6 d2 V2).
        rewrite (enc_mod (_ + _)), V3.
        rewrite (IH rest bytes) by (cbn [length] in Hlen; lia || exact Hrest).
        reflexivity.
Qed.

(** The base64 text of a source is the one text that decodes to it. *)
Lemma base64_text_is_the_decodable_one src text :
  spec_base64_decode text = Some src
  <-> text = bytes_of_string (Base64.EncodeToString src).
Proof.
  unfold Base64.EncodeToString, bytes_of_string, string_of_bytes.
  rewrite list_byte_of_string_of_list_byte. split.
  - apply (base64_decode_unique (length text)). apply le_n.
  - intros ->. apply (base64_round_trip (length src)). apply le_n.
Qed.

Lemma base64_text_ascii src : spec_ascii (Base64.EncodeToString src).
Proof.
  unfold spec_ascii, Base64.EncodeToString, bytes_of_string, string_of_bytes.
  rewrite list_byte_of_string_of_list_byte.
  eapply Forall_impl; [apply (encode_is_safe (length src)); apply le_n |].
  intros b [H _]. exact H.
Qed.

(** The text of an envelope of ASCII strings, read by the reader. *)
Lemma envelope_text_is_read code64 shaderType spec output fuel rest :
  spec_ascii code64 -> spec_ascii shaderType -> spec_ascii spec ->
  spec_ascii output ->
  spec_read_value (16 + fuel)
    (spec_render (spec_envelope_of code64 shaderType spec output) ++ rest)
  = Some (spec_envelope_of code64 shaderType spec output, rest).
Proof.
  unfold spec_ascii. intros Hcode Htype Hspec Houtput.
  unfold spec_envelope_of. cbn [spec_render].
  unfold GoJSON.appendString.
  simpl.
  repeat (rewrite <- !app_assoc; cbn [app];
          rewrite read_appendBody_ascii by assumption; simpl).
  unfold string_of_bytes, bytes_of_string.
  rewrite !string_of_list_byte_of_string.
  reflexivity.
Qed.

Lemma Marshal_request_nonzero shaderCode shaderType spec output :
  Byte.x00 ∉ Marshal_JSONRPCRequest (newRequest shaderCode shaderType spec output).
Proof.
  assert (H : Forall (fun b => b <> Byte.x00)
                (Marshal_JSONRPCRequest
                   (newRequest shaderCode shaderType spec output))).
  { unfold Marshal_JSONRPCRequest, Marshal_TranslateRequestParams, newRequest.
    cbn [JsonRPC ID Method Params ShaderCodeBase64 ShaderType Spec Output
         PrintActiveVariables CompileOptions].
    rewrite compile_options_text.
    unfold GoJSON.object, GoJSON.member. cbn [GoJSON.members].
    repeat (apply Forall_app; split);
      first [ apply appendString_nonzero
            | apply closed_text_nonzero; vm_compute; reflexivity ]. }
  rewrite Forall_forall in H. intros Hin. exact (H _ Hin eq_refl).
Qed.

(** *** The request in guest memory *)

(** When the block the guest allocated lies within memory,
    [writeStringToMemory] succeeds and leaves the data and a zero byte in
    it. *)
Lemma writeStringToMemory_fits data st ptr results :
  let size := Z.of_nat (length data) + 1 in
  let allocation := callExport malloc [size] st in
  let before := memory allocation.2 in
  allocation.1 = Returned (ptr :: results) ->
  0 < ptr ->
  ptr + size <= Z.of_nat (length before) ->
  ptr + size <= 2 ^ 32 ->
  writeStringToMemory data st
  = (Ok ptr,
     setMemory
       (take (Z.to_nat ptr) before ++ data ++ [Byte.x00]
          ++ drop (Z.to_nat (ptr + size)) before)
       allocation.2).
Proof.
  intros size allocation before Hres Hptr Hfits Hend.
  unfold writeStringToMemory.
  assert (H32 : 2 ^ 32 < 2 ^ 64) by reflexivity.
  rewrite (uint64_small (Z.of_nat (length data))) by lia.
  rewrite (uint64_small (Z.of_nat (length data) + 1)) by (unfold size in Hend; lia).
  fold size. fold allocation.
  rewrite (surjective_pairing allocation), Hres.
  destruct (Z.eqb_spec ptr 0) as [| _]; [lia |].
  rewrite (uint64_small (ptr + _)) by (unfold size in Hend; lia).
  rewrite (uint32_small (ptr + _)) by (unfold size in Hend; lia).
  rewrite (uint32_small ptr) by (unfold size in Hend; lia).
  fold before.
  assert (Hw : Memory.Write before ptr (data ++ [Byte.x00])
               = Some (take (Z.to_nat ptr) before ++ data ++ [Byte.x00]
                         ++ drop (Z.to_nat (ptr + size)) before)).
  { unfold Memory.Write, Memory.hasSize. rewrite length_app. cbn [length].
    destruct (Z.leb_spec (ptr + Z.of_nat (length data + 1)) (Z.of_nat (length before)));
      [| unfold size in Hfits; lia].
    rewrite <- app_assoc.
    replace (Z.to_nat ptr + (length data + 1))%nat with (Z.to_nat (ptr + size))
      by (unfold size; lia).
    reflexivity. }
  destruct (Memory.Write before ptr data) as [m1 |] eqn:Hw1.
  - destruct (Memory.WriteByte m1 (ptr + Z.of_nat (length data)) Byte.x00)
      as [m2 |] eqn:Hw2.
    + assert (Hp : 0 <= ptr) by lia.
      pose proof (Write_then_WriteByte _ _ _ _ _ Hp Hw1 Hw2) as Hboth.
      rewrite Hw in Hboth. injection Hboth as <-. reflexivity.
    + exfalso. assert (Hp : 0 <= ptr) by lia.
      destruct (Write_Some _ _ _ _ Hp Hw1) as (_ & _ & Hlen).
      revert Hw2. unfold Memory.WriteByte, Memory.hasSize. rewrite Hlen.
      destruct (Z.leb_spec (ptr + Z.of_nat (length data) + 1)
                  (Z.of_nat (length before)));
        [discriminate | unfold size in Hfits; lia].
  - exfalso. revert Hw1. unfold Memory.Write, Memory.hasSize.
    destruct (Z.leb_spec (ptr + Z.of_nat (length data)) (Z.of_nat (length before)));
      [discriminate | unfold size in Hfits; lia].
Qed.

(** C4. When the guest's allocator, asked for the length of the request
    text plus one, returns a block that lies within memory,
    [TranslateShader] writes the request text followed by one zero byte
    at the block's offset and changes no other byte of memory; [invoke] is
    then called on that memory with that offset, and the result of the
    translation is made of what [invoke] returns there; the calls are the
    allocation, [invoke] and one [free] of the block.

    The request text is the JSON text of the envelope
    [{jsonrpc, id, method, params}] and holds no zero byte. Read from
    guest memory by a reader of JSON, independent of the encoder, it is
    that envelope and is followed by the zero byte (for a stage, spec and
    output of ASCII characters); the text under "shader_code_base64" is
    the one text that the base64 decoder turns into the bytes of the shader
    source. *)
Theorem request_written_is_envelope_and_terminator
    st shaderCode shaderType spec output requestPtr results :
  let requestBytes :=
    Marshal_JSONRPCRequest (newRequest shaderCode shaderType spec output) in
  let size := Z.of_nat (length requestBytes) + 1 in
  let allocation := callExport malloc [size] st in
  let before := memory allocation.2 in
  let after := drop (Z.to_nat (requestPtr + size)) before in
  let written := take (Z.to_nat requestPtr) before ++ requestBytes ++ [Byte.x00] ++ after in
  let st1 := setMemory written allocation.2 in
  let invoked := callExport invoke [requestPtr] st1 in
  closed st = false ->
  allocation.1 = Returned (requestPtr :: results) ->
  0 < requestPtr ->
  requestPtr + size <= Z.of_nat (length before) ->
  requestPtr + size <= 2 ^ 32 ->
  (* the text *)
  requestBytes = spec_render (spec_envelope shaderCode shaderType spec output)
  /\ (Byte.x00 ∉ requestBytes)
  /\ (exists code64,
        (forall text,
            spec_base64_decode text = Some (bytes_of_string shaderCode)
            <-> text = bytes_of_string code64)
        /\ (spec_ascii shaderType -> spec_ascii spec -> spec_ascii output ->
            forall fuel,
              spec_read_value (16 + fuel) (drop (Z.to_nat requestPtr) written)
              = Some (spec_envelope_of code64 shaderType spec output,
                      Byte.x00 :: after)))
  (* guest memory *)
  /\ take (Z.to_nat size) (drop (Z.to_nat requestPtr) written)
     = requestBytes ++ [Byte.x00]
  /\ take (Z.to_nat requestPtr) written = take (Z.to_nat requestPtr) before
  /\ drop (Z.to_nat (requestPtr + size)) written = after
  /\ length written = length before
  (* the translation *)
  /\ writeStringToMemory requestBytes st = (Ok requestPtr, st1)
  /\ invoked.1 = (Call invoke [requestPtr] (written, guest allocation.2)).1
  /\ TranslateShader st shaderCode shaderType spec output
     = (match invoked.1 with
        | Failed err => Err ("wasm invoke call failed: " +:+ err)
        | Returned [] => Panic
        | Returned (responsePtr :: _) =>
            if responsePtr =? 0
            then Err "wasm invoke function returned a null pointer"
            else
              match readStringFromMemory (uint32 responsePtr) invoked.2 with
              | Ok responseBytes => parseResponse responseBytes
              | Err e => Err e
              | Panic => Panic
              end
        end,
        (callExport free [requestPtr] invoked.2).2)
  /\ history (TranslateShader st shaderCode shaderType spec output).2
     = history st ++ [EvCall malloc [size]; EvCall invoke [requestPtr];
                      EvCall free [requestPtr]].
Proof.
  intros requestBytes size allocation before after written st1 invoked
    Hopen Hres Hptr Hfits Hend.
  pose proof (writeStringToMemory_fits requestBytes st requestPtr results
                Hres Hptr Hfits Hend) as Hw.
  cbv zeta in Hw. fold size allocation before after written st1 in Hw.
  assert (Hbefore : length (take (Z.to_nat requestPtr) before) = Z.to_nat requestPtr)
    by (rewrite length_take; lia).
  assert (Hdrop : drop (Z.to_nat requestPtr) written = requestBytes ++ [Byte.x00] ++ after).
  { unfold written. apply drop_app_length'. symmetry. exact Hbefore. }
  assert (Htranslate :
    TranslateShader st shaderCode shaderType spec output
    = (match invoked.1 with
       | Failed err => Err ("wasm invoke call failed: " +:+ err)
       | Returned [] => Panic
       | Returned (responsePtr :: _) =>
           if responsePtr =? 0
           then Err "wasm invoke function returned a null pointer"
           else
             match readStringFromMemory (uint32 responsePtr) invoked.2 with
             | Ok responseBytes => parseResponse responseBytes
             | Err e => Err e
             | Panic => Panic
             end
       end,
       (callExport free [requestPtr] invoked.2).2)).
  { unfold TranslateShader. rewrite Hopen. cbv zeta. fold requestBytes.
    rewrite Hw. fold invoked. unfold deferFree.
    destruct invoked as [[[| responsePtr rest] | err] st2]; cbn [fst snd];
      try reflexivity.
    destruct (responsePtr =? 0); [reflexivity |].
    destruct (readStringFromMemory (uint32 responsePtr) st2); reflexivity. }
  split; [apply Marshal_request_is_envelope |].
  split; [apply Marshal_request_nonzero |].
  split.
  { exists (Base64.EncodeToString (bytes_of_string shaderCode)).
    split; [intros text; apply base64_text_is_the_decodable_one |].
    intros Htype Hspec Houtput fuel. rewrite Hdrop.
    unfold requestBytes. rewrite Marshal_request_is_envelope.
    apply envelope_text_is_read; try assumption. apply base64_text_ascii. }
  split.
  { rewrite Hdrop, app_assoc. apply take_app_length'.
    rewrite length_app. cbn [length]. unfold size. lia. }
  split; [unfold written; apply take_app_length'; symmetry; exact Hbefore |].
  split.
  { unfold written. rewrite !app_assoc. apply drop_app_length'.
    rewrite !length_app, Hbefore. cbn [length]. unfold size. lia. }
  split.
  { unfold written, after. rewrite !length_app, length_take, length_drop.
    cbn [length]. unfold size in *. lia. }
  split; [exact Hw |].
  split; [reflexivity |].
  split; [exact Htranslate |].
  pose proof (TranslateShader_history st shaderCode shaderType spec output Hopen)
    as Hhist.
  cbv zeta in Hhist. fold requestBytes in Hhist. rewrite Hw in Hhist.
  cbn [fst] in Hhist.
  rewrite (uint64_small (Z.of_nat (length requestBytes))) in Hhist
    by (unfold size in Hend; change (2 ^ 64) with (2 ^ 32 * 2 ^ 32); lia).
  rewrite (uint64_small (Z.of_nat (length requestBytes) + 1)) in Hhist
    by (unfold size in Hend; change (2 ^ 64) with (2 ^ 32 * 2 ^ 32); lia).
  exact Hhist.
Qed.

End Translator.

(** ** The definitions at work on the sample guest *)

Local Abbreviation sClose := (Close sample_Call sample_runtime_Close).
Local Abbreviation sTranslate :=
  (TranslateShader sample_Call sample_Unmarshal sample_range_order
     sample_uint_unrepresentable).
Local Abbreviation sRun :=
  (run sample_Call sample_runtime_Close sample_Unmarshal sample_range_order
     sample_uint_unrepresentable).
Local Abbreviation source := "void main(){gl_FragColor=vec4(1);}".

Example base64_Man : Base64.EncodeToString (bytes_of_string "Man") = "TWFu".
Proof. reflexivity. Qed.

Example base64_Ma : Base64.EncodeToString (bytes_of_string "Ma") = "TWE=".
Proof. reflexivity. Qed.

Example base64_M : Base64.EncodeToString (bytes_of_string "M") = "TQ==".
Proof. reflexivity. Qed.

(** The request for the sample source, as it goes over the wire. *)
Example request_text :
  string_of_bytes
    (Marshal_JSONRPCRequest
       (newRequest "void main(){}" "fragment" ShaderSpecWebGL OutputFormatGLSL330))
  = string_of_bytes
      (GoJSON.object
         [ GoJSON.member "jsonrpc" (GoJSON.appendString "2.0");
           GoJSON.member "id" (GoJSON.lit "1");
           GoJSON.member "method" (GoJSON.appendString "translate");
           GoJSON.member "params"
             (GoJSON.object
                [ GoJSON.member "shader_code_base64"
                    (GoJSON.appendString "dm9pZCBtYWluKCl7fQ==");
                  GoJSON.member "shader_type" (GoJSON.appendString "fragment");
                  GoJSON.member "spec" (GoJSON.appendString "webgl");
                  GoJSON.member "output" (GoJSON.appendString "glsl330");
                  GoJSON.member "print_active_variables" (GoJSON.lit "true");
                  GoJSON.member "compile_options"
                    (GoJSON.lit "{" ++ GoJSON.appendString "objectCode"
                       ++ GoJSON.lit ":true}") ]) ]).
Proof. vm_compute. reflexivity. Qed.

(** Characters that are escaped in a JSON string. *)
Example appendString_escapes :
  GoJSON.appendString "a<b&c" = GoJSON.quote :: GoJSON.lit "a\u003cb\u0026c" ++ [GoJSON.quote].
Proof. vm_compute. reflexivity. Qed.

(** A successful translation on the sample guest: the variable listed
    under two categories is kept as the later category has it. *)
Example translate_sample :
  match sTranslate (sample_translator (answering translated_text)) source
          "fragment" ShaderSpecWebGL OutputFormatGLSL330 with
  | (Ok sh, st') =>
      Code sh = "void main(){}"
      /\ Variables sh !! "iTime"
         = Some {| Active := true; IsRowMajor := false; MappedName := "_viTime";
                   Name := "iTime"; Precision := 36338; StaticUse := true;
                   Type' := 5126; Category := "varyings" |}
      /\ history st'
         = [EvCall initialize []; EvCall malloc [256]; EvCall invoke [64];
            EvCall free [64]]
  | _ => False
  end.
Proof. vm_compute. repeat split. Qed.

(** A reply that runs to the end of memory without a zero byte. *)
Example unterminated_reply :
  (sTranslate
     (sample_translator
        {| heap_next := 64; reply := GoJSON.lit "{}"; reply_at := 4094;
           close_failures := 0 |})
     source "fragment" ShaderSpecWebGL OutputFormatGLSL330).1
  = Err "string from wasm is not null-terminated".
Proof. vm_compute. reflexivity. Qed.

(** *** Closing *)

Lemma translate_after_close_is_refused_witness :
  sClose (sample_translator (answering translated_text))
  = (None, (sClose (sample_translator (answering translated_text))).2)
  /\ sRun [ OpTranslate source "fragment" ShaderSpecWebGL OutputFormatGLSL330;
            OpClose;
            OpTranslate source "vertex" ShaderSpecWebGL2 OutputFormatESSL ]
       (sClose (sample_translator (answering translated_text))).2
     = ([ ReplyTranslate (Err "translator has been closed");
          ReplyClose None;
          ReplyTranslate (Err "translator has been closed") ],
        (sClose (sample_translator (answering translated_text))).2).
Proof.
  assert (H : sClose (sample_translator (answering translated_text))
              = (None, (sClose (sample_translator (answering translated_text))).2))
    by (vm_compute; reflexivity).
  split; [exact H |].
  exact (translate_after_close_is_refused sample_Call sample_runtime_Close
           sample_Unmarshal sample_range_order sample_uint_unrepresentable
           _ _ [ OpTranslate source "fragment" ShaderSpecWebGL OutputFormatGLSL330;
                 OpClose;
                 OpTranslate source "vertex" ShaderSpecWebGL2 OutputFormatESSL ] H).
Defined.

Lemma close_twice_after_success_witness :
  (sClose (sample_translator (answering translated_text))).1 = None
  /\ second_Close_is_noop sample_Call sample_runtime_Close
       (sample_translator (answering translated_text)).
Proof.
  assert (H : (sClose (sample_translator (answering translated_text))).1 = None)
    by (vm_compute; reflexivity).
  split; [exact H |].
  exact (close_twice_after_success sample_Call sample_runtime_Close _ H).
Defined.

(** C3 as stated fails: on a translator whose runtime refused to close,
    the second [Close] calls the finalizer and the runtime's close
    again. *)
Lemma second_close_after_failed_close_runs_again :
  (sClose (sample_translator reluctant)).1
  = Some "failed to close wazero runtime: module closed with exit code 1"
  /\ history (sClose (sClose (sample_translator reluctant)).2).2
     = [ EvCall initialize []; EvCall finalize []; EvRuntimeClose;
         EvCall finalize []; EvRuntimeClose ]
  /\ ~ second_Close_is_noop sample_Call sample_runtime_Close
         (sample_translator reluctant).
Proof.
  split; [vm_compute; reflexivity |]. split; [vm_compute; reflexivity |].
  unfold second_Close_is_noop. intros H.
  apply (f_equal (fun r => length (history r.2))) in H.
  vm_compute in H. discriminate H.
Qed.

Lemma failed_close_leaves_translator_open_witness :
  sClose (sample_translator reluctant)
  = (Some "failed to close wazero runtime: module closed with exit code 1",
     (sClose (sample_translator reluctant)).2)
  /\ closed (sClose (sample_translator reluctant)).2 = false
  /\ (sTranslate (sClose (sample_translator reluctant)).2 source "fragment"
        ShaderSpecWebGL OutputFormatGLSL330).1
     <> Err "translator has been closed".
Proof.
  assert (H : sClose (sample_translator reluctant)
              = (Some "failed to close wazero runtime: module closed with exit code 1",
                 (sClose (sample_translator reluctant)).2))
    by (vm_compute; reflexivity).
  split; [exact H |].
  destruct (failed_close_leaves_translator_open sample_Call sample_runtime_Close
              sample_Unmarshal sample_range_order sample_uint_unrepresentable
              _ _ _ H) as (Hopen & Htranslate & _).
  split; [exact Hopen |].
  exact (proj1 (Htranslate source "fragment" ShaderSpecWebGL OutputFormatGLSL330)).
Defined.

(** *** The request *)

Lemma request_written_is_envelope_and_terminator_witness :
  closed (sample_translator (answering translated_text)) = false
  /\ (callExport sample_Call malloc [256]
        (sample_translator (answering translated_text))).1 = Returned [64]
  /\ (writeStringToMemory sample_Call
        (Marshal_JSONRPCRequest
           (newRequest source "fragment" ShaderSpecWebGL OutputFormatGLSL330))
        (sample_translator (answering translated_text))).1 = Ok 64
  /\ take 256 (drop 64
       (memory
          (writeStringToMemory sample_Call
             (Marshal_JSONRPCRequest
                (newRequest source "fragment" ShaderSpecWebGL OutputFormatGLSL330))
             (sample_translator (answering translated_text))).2))
     = spec_request source "fragment" ShaderSpecWebGL OutputFormatGLSL330
  /\ (exists code64,
        spec_base64_decode (bytes_of_string code64) = Some (bytes_of_string source)
        /\ spec_read_value 16
             (drop 64
                (memory
                   (writeStringToMemory sample_Call
                      (Marshal_JSONRPCRequest
                         (newRequest source "fragment" ShaderSpecWebGL
                            OutputFormatGLSL330))
                      (sample_translator (answering translated_text))).2))
           = Some (spec_envelope_of code64 "fragment" ShaderSpecWebGL
                     OutputFormatGLSL330,
                   repeat Byte.x00 3777))
  /\ history
       (sTranslate (sample_translator (answering translated_text)) source
          "fragment" ShaderSpecWebGL OutputFormatGLSL330).2
     = [ EvCall initialize []; EvCall malloc [256]; EvCall invoke [64];
         EvCall free [64] ].
Proof.
  assert (Hopen : closed (sample_translator (answering translated_text)) = false)
    by reflexivity.
  assert (Hres :
    (callExport sample_Call malloc
       [Z.of_nat (length (Marshal_JSONRPCRequest
                            (newRequest source "fragment" ShaderSpecWebGL
                               OutputFormatGLSL330))) + 1]
       (sample_translator (answering translated_text))).1 = Returned [64])
    by (vm_compute; reflexivity).
  assert (Hptr : 0 < 64) by lia.
  assert (Hfits :
    64 + (Z.of_nat (length (Marshal_JSONRPCRequest
                              (newRequest source "fragment" ShaderSpecWebGL
                                 OutputFormatGLSL330))) + 1)
    <= Z.of_nat (length (memory
         (callExport sample_Call malloc
            [Z.of_nat (length (Marshal_JSONRPCRequest
                                 (newRequest source "fragment" ShaderSpecWebGL
                                    OutputFormatGLSL330))) + 1]
            (sample_translator (answering translated_text))).2)))
    by (vm_compute; discriminate).
  assert (Hend :
    64 + (Z.of_nat (length (Marshal_JSONRPCRequest
                              (newRequest source "fragment" ShaderSpecWebGL
                                 OutputFormatGLSL330))) + 1)
    <= 2 ^ 32) by (vm_compute; discriminate).
  assert (Hascii : forall s, forallb (fun b => (Byte.to_N b <? 128)%N)
                               (bytes_of_string s) = true -> spec_ascii s).
  { intros s Hs. apply Forall_forall. intros b Hb. apply list_elem_of_In in Hb.
    rewrite forallb_forall in Hs. exact (Hs b Hb). }
  destruct (request_written_is_envelope_and_terminator sample_Call
              sample_Unmarshal sample_range_order sample_uint_unrepresentable
              _ source "fragment" ShaderSpecWebGL OutputFormatGLSL330 _ _
              Hopen Hres Hptr Hfits Hend)
    as (_ & _ & (code64 & Hcode & Hread) & Hat & _ & _ & _ & Hw & _ & _ & Hhistory).
  split; [exact Hopen |]. split; [exact Hres |].
  rewrite Hw. cbn [fst snd].
  split; [reflexivity |]. split; [exact Hat |].
  split; [| exact Hhistory].
  exists code64. split; [apply Hcode; reflexivity |].
  exact (Hread (Hascii "fragment" eq_refl) (Hascii ShaderSpecWebGL eq_refl)
           (Hascii OutputFormatGLSL330 eq_refl) O).
Defined.

(** *** The response *)

Local Abbreviation sWritten text :=
  (writeStringToMemory sample_Call
     (Marshal_JSONRPCRequest
        (newRequest source "fragment" ShaderSpecWebGL OutputFormatGLSL330))
     (sample_translator (answering text))).2.

Local Abbreviation sInvoked text :=
  (callExport sample_Call invoke [64] (sWritten text)).2.

Lemma sample_guest_replied text :
  closed (sample_translator (answering text)) = false ->
  writeStringToMemory sample_Call
    (Marshal_JSONRPCRequest
       (newRequest source "fragment" ShaderSpecWebGL OutputFormatGLSL330))
    (sample_translator (answering text))
  = (Ok 64, sWritten text) ->
  callExport sample_Call invoke [64] (sWritten text)
  = (Returned [1024], sInvoked text) ->
  readStringFromMemory (uint32 1024) (sInvoked text) = Ok text ->
  guest_replied sample_Call (sample_translator (answering text)) source
    "fragment" ShaderSpecWebGL OutputFormatGLSL330 64 (sInvoked text) text.
Proof.
  intros Hopen Hw Hi Hr. split; [exact Hopen |].
  exists (sWritten text), 1024, []. repeat split; try assumption. discriminate.
Qed.

Lemma response_is_memory_up_to_first_zero_witness :
  (0 < 1024 < 2 ^ 32 /\ Z.of_nat (length (memory (sInvoked translated_text))) <= 2 ^ 32)
  /\ readStringFromMemory (uint32 1024) (sInvoked translated_text)
     = Ok translated_text
  /\ (sTranslate (sample_translator (answering translated_text)) source
        "fragment" ShaderSpecWebGL OutputFormatGLSL330).1
     = parseResponse sample_Unmarshal sample_range_order
         sample_uint_unrepresentable translated_text.
Proof.
  assert (Hopen : closed (sample_translator (answering translated_text)) = false)
    by reflexivity.
  assert (Hw :
    writeStringToMemory sample_Call
      (Marshal_JSONRPCRequest
         (newRequest source "fragment" ShaderSpecWebGL OutputFormatGLSL330))
      (sample_translator (answering translated_text))
    = (Ok 64, sWritten translated_text)) by (vm_compute; reflexivity).
  assert (Hi : callExport sample_Call invoke [64] (sWritten translated_text)
               = (Returned [1024], sInvoked translated_text))
    by (vm_compute; reflexivity).
  assert (Hptr : 0 < 1024 < 2 ^ 32) by lia.
  assert (Hlen : Z.of_nat (length (memory (sInvoked translated_text))) <= 2 ^ 32)
    by (vm_compute; discriminate).
  assert (Hregion :
    drop (Z.to_nat 1024) (memory (sInvoked translated_text))
    = translated_text ++ Byte.x00
        :: drop (Z.to_nat 1024 + length translated_text + 1)
             (memory (sInvoked translated_text)))
    by (vm_compute; reflexivity).
  assert (Hno : Byte.x00 ∉ translated_text)
    by (apply (bool_decide_eq_false_1 (Byte.x00 ∈ translated_text));
        vm_compute; reflexivity).
  destruct (response_is_memory_up_to_first_zero sample_Call sample_Unmarshal
              sample_range_order sample_uint_unrepresentable
              _ _ _ _ _ _ _ _ _ _ Hopen Hw Hi Hptr Hlen) as [Hterminated _].
  split; [split; assumption |].
  exact (Hterminated _ _ Hregion Hno).
Defined.

Ltac sample_reply :=
  apply sample_guest_replied; [reflexivity | vm_compute; reflexivity ..].

Lemma error_object_is_returned_as_one_error_witness :
  guest_replied sample_Call (sample_translator (answering failed_text)) source
    "fragment" ShaderSpecWebGL OutputFormatGLSL330 64 (sInvoked failed_text)
    failed_text
  /\ (sTranslate (sample_translator (answering failed_text)) source "fragment"
        ShaderSpecWebGL OutputFormatGLSL330).1
     = Err ("Shader compilation failed"
              +:+ String "010"%char "ERROR: 0:1: syntax error").
Proof.
  assert (Hreply :
    guest_replied sample_Call (sample_translator (answering failed_text)) source
      "fragment" ShaderSpecWebGL OutputFormatGLSL330 64 (sInvoked failed_text)
      failed_text) by sample_reply.
  assert (Hdecode : sample_Unmarshal failed_text = DecodedMap failed)
    by (vm_compute; reflexivity).
  assert (Herror :
    failed !! "error"
    = Some (JObject (list_to_map
              [ ("code", JNumber (float64_of_Z (-32000)));
                ("message", JString "Shader compilation failed");
                ("data",
                  JObject (list_to_map
                             [ ("info_log", JString "ERROR: 0:1: syntax error") ])) ])))
    by (vm_compute; reflexivity).
  split; [exact Hreply |].
  destruct (error_object_is_returned_as_one_error sample_Call sample_Unmarshal
              sample_range_order sample_uint_unrepresentable
              _ _ _ _ _ _ _ _ _ _ Hreply Hdecode Herror)
    as (errorMessage & log & Hresult & Hmessage & _ & Hlog & _).
  rewrite Hresult.
  rewrite (Hmessage "Shader compilation failed") by (vm_compute; reflexivity).
  rewrite (Hlog (list_to_map [ ("info_log", JString "ERROR: 0:1: syntax error") ])
             "ERROR: 0:1: syntax error")
    by (vm_compute; reflexivity).
  reflexivity.
Defined.

Lemma non_object_error_is_ignored_witness :
  flagged !! "error" = Some (JString "deprecated")
  /\ match (sTranslate (sample_translator (answering flagged_text)) source
              "fragment" ShaderSpecWebGL OutputFormatGLSL330).1 with
     | Ok sh => Code sh = "void main(){}"
     | _ => False
     end.
Proof.
  assert (Hreply :
    guest_replied sample_Call (sample_translator (answering flagged_text)) source
      "fragment" ShaderSpecWebGL OutputFormatGLSL330 64 (sInvoked flagged_text)
      flagged_text) by sample_reply.
  assert (Hdecode : sample_Unmarshal flagged_text = DecodedMap flagged)
    by (vm_compute; reflexivity).
  assert (Herror : flagged !! "error" = Some (JString "deprecated"))
    by (vm_compute; reflexivity).
  assert (Hshape : forall serr, JString "deprecated" <> JObject serr)
    by discriminate.
  split; [exact Herror |].
  destruct (non_object_error_is_ignored sample_Call sample_Unmarshal
              sample_range_order sample_uint_unrepresentable
              _ _ _ _ _ _ _ _ _ _ Hreply Hdecode Herror Hshape)
    as (-> & _ & _).
  vm_compute. reflexivity.
Defined.

Lemma variables_are_keyed_by_name_last_one_wins_witness :
  match (sTranslate (sample_translator (answering translated_text)) source
           "fragment" ShaderSpecWebGL OutputFormatGLSL330).1 with
  | Ok sh =>
      (forall k v, Variables sh !! k = Some v -> Name v = k)
      /\ Variables sh !! "iTime"
         = lastNamed "iTime"
             (visitedVariables sample_uint_unrepresentable
                (sample_range_order (activeVariablesOf translated)))
  | _ => False
  end.
Proof.
  assert (Hreply :
    guest_replied sample_Call (sample_translator (answering translated_text))
      source "fragment" ShaderSpecWebGL OutputFormatGLSL330 64
      (sInvoked translated_text) translated_text) by sample_reply.
  assert (Hdecode : sample_Unmarshal translated_text = DecodedMap translated)
    by (vm_compute; reflexivity).
  destruct (sTranslate (sample_translator (answering translated_text)) source
              "fragment" ShaderSpecWebGL OutputFormatGLSL330).1 as [sh | e |] eqn:Hok.
  - destruct (variables_are_keyed_by_name_last_one_wins sample_Call
                sample_Unmarshal sample_range_order sample_uint_unrepresentable
                _ _ _ _ _ _ _ _ _ _ Hreply Hdecode Hok)
      as (_ & Hlast & Hname & _).
    split; [exact Hname | exact (Hlast "iTime")].
  - vm_compute in Hok. discriminate Hok.
  - vm_compute in Hok. discriminate Hok.
Defined.

Lemma malformed_variable_panics_no_default_witness :
  malformed_variable (sample_incomplete "iTime" "_uiTime")
  /\ sTranslate (sample_translator (answering incomplete_text)) source "fragment"
       ShaderSpecWebGL OutputFormatGLSL330
     = (Panic, (callExport sample_Call free [64] (sInvoked incomplete_text)).2).
Proof.
  assert (Hperm : forall m : gmap string JSON,
             sample_range_order m ≡ₚ map_to_list m) by reflexivity.
  assert (Hreply :
    guest_replied sample_Call (sample_translator (answering incomplete_text))
      source "fragment" ShaderSpecWebGL OutputFormatGLSL330 64
      (sInvoked incomplete_text) incomplete_text) by sample_reply.
  assert (Hdecode : sample_Unmarshal incomplete_text = DecodedMap incomplete)
    by (vm_compute; reflexivity).
  assert (Hnoerr : asMap (incomplete !! "error") = None)
    by (vm_compute; reflexivity).
  assert (Hcat : activeVariablesOf incomplete !! "uniforms"
                 = Some (JArray [ JObject (sample_incomplete "iTime" "_uiTime") ]))
    by (vm_compute; reflexivity).
  assert (Hin : JObject (sample_incomplete "iTime" "_uiTime")
                ∈ [ JObject (sample_incomplete "iTime" "_uiTime") ])
    by (apply list_elem_of_here).
  assert (Hbad : malformed_variable (sample_incomplete "iTime" "_uiTime")).
  { right. right. right. right. left. vm_compute. reflexivity. }
  split; [exact Hbad |].
  destruct (malformed_variable_panics_no_default sample_Call sample_Unmarshal
              sample_range_order Hperm sample_uint_unrepresentable
              _ _ _ _ _ _ _ _ _ Hreply Hdecode Hnoerr) as (Hpanic & _ & _).
  exact (Hpanic _ _ _ Hcat Hin Hbad).
Defined.

(** C1 as stated fails: the reply lists a variable without its
    "precision_enum", and the call does not return an error: it
    panics. *)
Lemma missing_precision_is_a_panic_not_an_error :
  sample_Unmarshal incomplete_text = DecodedMap incomplete
  /\ activeVariablesOf incomplete !! "uniforms"
     = Some (JArray [ JObject (sample_incomplete "iTime" "_uiTime") ])
  /\ sample_incomplete "iTime" "_uiTime" !! "precision_enum" = None
  /\ (sTranslate (sample_translator (answering incomplete_text)) source "fragment"
        ShaderSpecWebGL OutputFormatGLSL330).1 = Panic
  /\ ~ exists e,
        (sTranslate (sample_translator (answering incomplete_text)) source
           "fragment" ShaderSpecWebGL OutputFormatGLSL330).1 = Err e.
Proof.
  assert (Hpanic :
    (sTranslate (sample_translator (answering incomplete_text)) source "fragment"
       ShaderSpecWebGL OutputFormatGLSL330).1 = Panic)
    by (vm_compute; reflexivity).
  repeat split; try (vm_compute; reflexivity).
  intros [e He]. rewrite Hpanic in He. discriminate He.
Qed.

(** *** The request buffer *)

(** C8 fails on the code: the allocator returned a non-null block that
    does not fit in memory, the write is refused, and [TranslateShader]
    returns without any call of [free] on the block. *)
Lemma request_buffer_leaks_when_write_fails :
  (callExport sample_Call malloc [256] (sample_translator overrunning)).1
  = Returned [4000]
  /\ sTranslate (sample_translator overrunning) source "fragment"
       ShaderSpecWebGL OutputFormatGLSL330
     = (Err "failed to write to wasm memory",
        record (EvCall malloc [256]) (sample_translator overrunning)).
Proof. split; vm_compute; reflexivity. Qed.

(** *** Setting up and closing, on the sample guest *)

Local Abbreviation sNew := (NewShaderTranslator sample_Call).

Lemma NewShaderTranslator_returns_initialized_open_translator_witness :
  sNew (shipped (answering translated_text))
  = (Ok (sample_translator (answering translated_text)), [EvCall initialize []])
  /\ closed (sample_translator (answering translated_text)) = false.
Proof.
  assert (H : sNew (shipped (answering translated_text))
              = (Ok (sample_translator (answering translated_text)),
                 [EvCall initialize []])) by (vm_compute; reflexivity).
  split; [exact H |].
  exact (proj1 (NewShaderTranslator_returns_initialized_open_translator
                  sample_Call _ _ _ H)).
Defined.

Lemma NewShaderTranslator_error_closes_runtime_witness :
  sNew corrupt
  = (Err "failed to compile wasm module: invalid magic number", [EvRuntimeClose])
  /\ runtimeCloses [EvRuntimeClose] = 1%nat.
Proof.
  assert (H : sNew corrupt
              = (Err "failed to compile wasm module: invalid magic number",
                 [EvRuntimeClose])) by (vm_compute; reflexivity).
  split; [exact H |].
  exact (proj1 (NewShaderTranslator_error_closes_runtime sample_Call _ _ _ H)).
Defined.

Lemma NewShaderTranslator_requires_every_export_witness :
  ExportedFunction (truncated reluctant) finalize = false
  /\ sNew (truncated reluctant)
     = (Err "one or more required library functions not exported from wasm module",
        [EvRuntimeClose]).
Proof.
  split; [reflexivity |].
  apply (NewShaderTranslator_requires_every_export sample_Call
           (truncated reluctant) sample_memory reluctant finalize);
    reflexivity.
Defined.

Lemma create_then_close_initializes_and_finalizes_once_witness :
  sClose (sample_translator (answering translated_text))
  = (None, (sClose (sample_translator (answering translated_text))).2)
  /\ callsOf finalize
       (history (sClose (sample_translator (answering translated_text))).2)
     = [[]].
Proof.
  assert (Hnew : sNew (shipped (answering translated_text))
                 = (Ok (sample_translator (answering translated_text)),
                    [EvCall initialize []])) by (vm_compute; reflexivity).
  assert (HClose : sClose (sample_translator (answering translated_text))
                   = (None, (sClose (sample_translator (answering translated_text))).2))
    by (vm_compute; reflexivity).
  split; [exact HClose |].
  destruct (create_then_close_initializes_and_finalizes_once sample_Call
              sample_runtime_Close _ _ _ _ Hnew HClose) as (_ & Hfinalize & _).
  exact Hfinalize.
Defined.

Lemma Close_logs_finalizer_failure_and_proceeds_witness :
  (callExport trapping_Call finalize [] (sample_translator (answering translated_text))).1
  = Failed "wasm error: unreachable"
  /\ exists st1 : ShaderTranslator SampleGuest,
       history (Close trapping_Call sample_runtime_Close
                  (sample_translator (answering translated_text))).2
       = history st1 ++ [EvRuntimeClose].
Proof.
  assert (Hopen : closed (sample_translator (answering translated_text)) = false)
    by reflexivity.
  assert (Hfin :
    (callExport trapping_Call finalize []
       (sample_translator (answering translated_text))).1
    = Failed "wasm error: unreachable") by reflexivity.
  split; [exact Hfin |].
  destruct (Close_logs_finalizer_failure_and_proceeds trapping_Call
              sample_runtime_Close _ _ Hopen Hfin) as (st1 & _ & Hhistory & _).
  exists st1. exact Hhistory.
Defined.

(** With a trapping finalizer the translator is closed all the same. *)
Example Close_with_trapping_finalizer :
  Close trapping_Call sample_runtime_Close
    (sample_translator (answering translated_text))
  = (None,
     {| memory := sample_memory; guest := answering translated_text;
        closed := true;
        history :=
          [ EvCall initialize []; EvCall finalize [];
            EvLog "warning: call to wasm finalizer failed: wasm error: unreachable";
            EvRuntimeClose ] |}).
Proof. vm_compute. reflexivity. Qed.

Lemma only_successful_Close_closes_witness :
  closed (sample_translator (answering translated_text)) = false
  /\ ReplyClose None
     ∈ (sRun [ OpTranslate source "fragment" ShaderSpecWebGL OutputFormatGLSL330;
               OpClose ]
          (sample_translator (answering translated_text))).1.
Proof.
  split; [reflexivity |].
  apply (only_successful_Close_closes sample_Call sample_runtime_Close
           sample_Unmarshal sample_range_order sample_uint_unrepresentable);
    [reflexivity | vm_compute; reflexivity].
Defined.

(** *** Calls, errors and strings, on the sample guest *)

Lemma TranslateShader_calls_are_malloc_invoke_free_witness :
  closed (sample_translator overrunning) = false
  /\ exists size tail,
       history (sTranslate (sample_translator overrunning) source "fragment"
                  ShaderSpecWebGL OutputFormatGLSL330).2
       = history (sample_translator overrunning) ++ EvCall malloc [size] :: tail.
Proof.
  split; [reflexivity |].
  destruct (TranslateShader_calls_are_malloc_invoke_free sample_Call
              sample_Unmarshal sample_range_order sample_uint_unrepresentable
              (sample_translator overrunning) source "fragment" ShaderSpecWebGL
              OutputFormatGLSL330 eq_refl) as (size & tail & Hhistory & _).
  exists size, tail. exact Hhistory.
Defined.

Lemma TranslateShader_errors_witness :
  (sTranslate (sample_translator (answering failed_text)) source "fragment"
     ShaderSpecWebGL OutputFormatGLSL330).1
  = Err ("Shader compilation failed"
           +:+ String "010"%char "ERROR: 0:1: syntax error")
  /\ exists requestPtr st2 responseBytes responseMap serr,
       guest_replied sample_Call (sample_translator (answering failed_text))
         source "fragment" ShaderSpecWebGL OutputFormatGLSL330 requestPtr st2
         responseBytes
       /\ sample_Unmarshal responseBytes = DecodedMap responseMap
       /\ responseMap !! "error" = Some (JObject serr)
       /\ "Shader compilation failed" +:+ String "010"%char "ERROR: 0:1: syntax error"
          = default "" (asString (serr !! "message"))
              +:+ String "010"%char
                    (default ""
                       (asString
                          (default ∅ (asMap (serr !! "data")) !! "info_log"))).
Proof.
  assert (H :
    (sTranslate (sample_translator (answering failed_text)) source "fragment"
       ShaderSpecWebGL OutputFormatGLSL330).1
    = Err ("Shader compilation failed"
           +:+ String "010"%char "ERROR: 0:1: syntax error")) by (vm_compute; reflexivity).
  split; [exact H |].
  destruct (TranslateShader_errors sample_Call sample_Unmarshal sample_range_order
              sample_uint_unrepresentable _ _ _ _ _ _ H)
    as [(_ & He)
       | [(err & _ & _ & He)
       | [(results & _ & _ & He)
       | [(ptr & results & _ & _ & _ & _ & He)
       | [(ptr & results & m1 & _ & _ & _ & _ & _ & He)
       | [(requestPtr & st1 & err & _ & _ & _ & He)
       | [(requestPtr & st1 & results & _ & _ & _ & He)
       | [(requestPtr & st1 & responsePtr & results & _ & _ & _ & _ & _ & He)
       | [(requestPtr & st1 & responsePtr & results & memBuffer
           & _ & _ & _ & _ & _ & _ & He)
       | [(requestPtr & st2 & responseBytes & err & _ & _ & He)
       | Hguest]]]]]]]]]];
    try (exfalso; vm_compute in He; discriminate He).
  exact Hguest.
Defined.

Lemma readStringFromMemory_returns_terminated_prefix_witness :
  readStringFromMemory 1024 (sInvoked failed_text) = Ok failed_text
  /\ Byte.x00 ∉ failed_text.
Proof.
  assert (Hptr : 0 < 1024 < 2 ^ 32) by lia.
  assert (Hlen : Z.of_nat (length (memory (sInvoked failed_text))) <= 2 ^ 32)
    by (vm_compute; discriminate).
  assert (Hread : readStringFromMemory 1024 (sInvoked failed_text) = Ok failed_text)
    by (vm_compute; reflexivity).
  split; [exact Hread |].
  exact (proj1 (readStringFromMemory_returns_terminated_prefix sample_Unmarshal
                  _ _ _ Hptr Hlen Hread)).
Defined.

Lemma write_then_read_round_trip_witness :
  writeStringToMemory sample_Call failed_text (sample_translator reluctant)
  = (Ok 64, (writeStringToMemory sample_Call failed_text
               (sample_translator reluctant)).2)
  /\ readStringFromMemory (uint32 64)
       (writeStringToMemory sample_Call failed_text (sample_translator reluctant)).2
     = Ok failed_text.
Proof.
  assert (Hw :
    writeStringToMemory sample_Call failed_text (sample_translator reluctant)
    = (Ok 64, (writeStringToMemory sample_Call failed_text
                 (sample_translator reluctant)).2)) by (vm_compute; reflexivity).
  assert (Hno : Byte.x00 ∉ failed_text)
    by (apply (bool_decide_eq_false_1 (Byte.x00 ∈ failed_text));
        vm_compute; reflexivity).
  assert (Hptr : 0 <= 64) by lia.
  assert (Hend : 64 + Z.of_nat (length failed_text) < 2 ^ 32)
    by (vm_compute; reflexivity).
  assert (Hlen :
    Z.of_nat (length (memory (writeStringToMemory sample_Call failed_text
                                (sample_translator reluctant)).2)) <= 2 ^ 32)
    by (vm_compute; discriminate).
  split; [exact Hw |].
  exact (write_then_read_round_trip sample_Call sample_Unmarshal _ _ _ _
           Hw Hno Hptr Hend Hlen).
Defined.

(** *** newShader on the sample responses *)

Local Abbreviation sNewShader :=
  (newShader sample_range_order sample_uint_unrepresentable).

Lemma sample_range_order_perm (m : gmap string JSON) :
  sample_range_order m ≡ₚ map_to_list m.
Proof. reflexivity. Qed.

(** A reply with neither result nor error makes the call panic. *)
Example hollow_reply_panics : sNewShader hollow = Panic.
Proof. vm_compute. reflexivity. Qed.

Lemma newShader_without_active_variables_witness :
  sNewShader bare = Ok {| Code := "void main(){}"; Variables := ∅ |}.
Proof.
  apply (newShader_without_active_variables sample_range_order
           sample_range_order_perm sample_uint_unrepresentable bare
           (list_to_map [ ("object_code", JString "void main(){}") ])
           "void main(){}");
    vm_compute; reflexivity.
Defined.

Lemma newShader_panics_on_category_that_is_no_array_witness :
  activeVariablesOf nulled !! "uniforms" = Some JNull
  /\ sNewShader nulled = Panic.
Proof.
  assert (Hcat : activeVariablesOf nulled !! "uniforms" = Some JNull)
    by (vm_compute; reflexivity).
  split; [exact Hcat |].
  apply (newShader_panics_on_category_that_is_no_array sample_range_order
           sample_range_order_perm sample_uint_unrepresentable nulled "uniforms"
           JNull Hcat).
  discriminate.
Defined.

Lemma well_formed_response_is_translated_witness :
  exists variables,
    sTranslate (sample_translator (answering flagged_text)) source "fragment"
      ShaderSpecWebGL OutputFormatGLSL330
    = (Ok {| Code := "void main(){}"; Variables := variables |},
       (callExport sample_Call free [64] (sInvoked flagged_text)).2).
Proof.
  assert (Hreply :
    guest_replied sample_Call (sample_translator (answering flagged_text)) source
      "fragment" ShaderSpecWebGL OutputFormatGLSL330 64 (sInvoked flagged_text)
      flagged_text) by sample_reply.
  assert (Hdecode : sample_Unmarshal flagged_text = DecodedMap flagged)
    by (vm_compute; reflexivity).
  assert (Hnoerr : asMap (flagged !! "error") = None) by (vm_compute; reflexivity).
  assert (Hresult :
    flagged !! "result"
    = Some (JObject (list_to_map
              [ ("object_code", JString "void main(){}");
                ("active_variables",
                  JObject (list_to_map
                    [ ("uniforms",
                        JArray [ JObject (sample_variable "iTime" "_uiTime") ]) ])) ])))
    by (vm_compute; reflexivity).
  apply (well_formed_response_is_translated sample_Call sample_Unmarshal
           sample_range_order sample_range_order_perm sample_uint_unrepresentable
           _ _ _ _ _ _ _ _ _ _ _ Hreply Hdecode Hnoerr Hresult).
  - vm_compute. reflexivity.
  - intros name data Hcat.
    assert (Hav : activeVariablesOf flagged
                  = {[ "uniforms"
                       := JArray [ JObject (sample_variable "iTime" "_uiTime") ] ]})
      by (vm_compute; reflexivity).
    rewrite Hav in Hcat. apply lookup_singleton_Some in Hcat as [_ <-].
    exists [ JObject (sample_variable "iTime" "_uiTime") ].
    split; [reflexivity |].
    intros variableMap Hin. apply list_elem_of_singleton in Hin.
    injection Hin as ->.
    intros Hbad. repeat destruct Hbad as [Hbad | Hbad];
      vm_compute in Hbad; discriminate Hbad.
Defined.

Lemma every_variable_name_is_a_key_witness :
  match sNewShader translated with
  | Ok sh => is_Some (Variables sh !! "iResolution")
  | _ => False
  end.
Proof.
  destruct (sNewShader translated) as [sh | e |] eqn:Hok.
  - assert (Hcat :
      activeVariablesOf translated !! "uniforms"
      = Some (JArray [ JObject (sample_variable "iTime" "_uiTime");
                       JObject (sample_variable "iResolution" "_uiResolution") ]))
      by (vm_compute; reflexivity).
    assert (Hin :
      JObject (sample_variable "iResolution" "_uiResolution")
      ∈ [ JObject (sample_variable "iTime" "_uiTime");
          JObject (sample_variable "iResolution" "_uiResolution") ])
      by (right; left).
    destruct (every_variable_name_is_a_key sample_range_order
                sample_range_order_perm sample_uint_unrepresentable
                _ _ _ _ _ Hok Hcat Hin) as (n & Hname & Hkey).
    assert (Hn : sample_variable "iResolution" "_uiResolution" !! "name"
                 = Some (JString "iResolution")) by (vm_compute; reflexivity).
    rewrite Hn in Hname. injection Hname as <-. exact Hkey.
  - vm_compute in Hok. discriminate Hok.
  - vm_compute in Hok. discriminate Hok.
Defined.
